(** * Rocket League replays: the replay models (apps/replays/models.py)

    A shallow embedding of the model layer of the replay application:
    the platform lookup table, the [Replay], [Player], [Goal] and
    [BoostData] models with their derived properties, and the
    statements about them.

    Conventions.
    - Python [int] is [Z]; [str] is [string] (ASCII text); [None]-able
      columns ([null=True]) are [option]; a [float] that is formatted
      digit by digit is a binary64 float (see Numbers).
    - A Python [dict] is a [gmap]; a dict literal is built by successive
      insertion, so that a repeated key would keep its last value.
    - Code that can raise returns a [result]: [Ok v] or [Raise e]. *)

From Stdlib Require Import ZArith QArith Qround Lia Ascii String.
From Stdlib Require Import Floats.
From Equations Require Import Equations.
From stdpp Require Import base decidable option list strings gmap pretty sorting.

Local Open Scope Z_scope.
Local Open Scope string_scope.

(** ** Python values, exceptions and the error monad *)

Inductive exn : Type :=
  | KeyError
  | ValueError
  | TypeError
  | IndexError
  | AssertionError
  | ValidationError
  | DoesNotExist
  | MultipleObjectsReturned
  | NoReverseMatch
  | OverflowError
  | ZeroDivisionError
  | DatabaseError.

#[global] Instance exn_eq_dec : EqDecision exn.
Proof. solve_decision. Defined.

Inductive result (A : Type) : Type :=
  | Ok (a : A)
  | Raise (e : exn).
Arguments Ok {A} a.
Arguments Raise {A} e.

#[global] Instance result_ret : MRet result := λ A a, Ok a.

#[global] Instance result_bind : MBind result := λ A B k r,
  match r with
  | Ok a => k a
  | Raise e => Raise e
  end.

#[global] Instance result_fmap : FMap result := λ A B f r,
  match r with
  | Ok a => Ok (f a)
  | Raise e => Raise e
  end.

(** [try: body / except Exception: handler] *)
Definition try_except {A} (body : result A) (handler : result A) : result A :=
  match body with
  | Ok a => Ok a
  | Raise _ => handler
  end.

(** [try: body / except E: handler], for one exception class [E]. *)
Definition try_except_only {A} (E : exn) (body : result A) (handler : result A)
    : result A :=
  match body with
  | Ok a => Ok a
  | Raise e => if decide (e = E) then handler else Raise e
  end.

(** Keys and values of the module-level dictionaries: the platform table
    is keyed by strings, integers and [None], and holds integers and
    strings. *)
Inductive pykey : Type :=
  | KNone
  | KInt (z : Z)
  | KStr (s : string).

Inductive pyval : Type :=
  | VInt (z : Z)
  | VStr (s : string).

#[global] Instance pykey_eq_dec : EqDecision pykey.
Proof. solve_decision. Defined.

#[global] Instance pyval_eq_dec : EqDecision pyval.
Proof. solve_decision. Defined.

Definition pykey_to_sum (k : pykey) : option (Z + string) :=
  match k with
  | KNone => None
  | KInt z => Some (inl z)
  | KStr s => Some (inr s)
  end.

Definition pykey_of_sum (o : option (Z + string)) : pykey :=
  match o with
  | None => KNone
  | Some (inl z) => KInt z
  | Some (inr s) => KStr s
  end.

#[global] Instance pykey_countable : Countable pykey.
Proof.
  refine (inj_countable' pykey_to_sum pykey_of_sum _).
  by intros [].
Defined.

(** A dict literal [{k1: v1, k2: v2, ...}]: entries are inserted from
    left to right. *)
Definition dict_literal {K V} `{Countable K} (entries : list (K * V)) : gmap K V :=
  foldl (λ m kv, <[kv.1 := kv.2]> m) ∅ entries.

(** [d[k]] *)
Definition getitem {K V} `{Countable K} (d : gmap K V) (k : K) : result V :=
  match d !! k with
  | Some v => Ok v
  | None => Raise KeyError
  end.

(** [str(n)] for an integer. *)
Definition str_of_int (z : Z) : string := pretty z.

(** ** The platform constants and tables (models.py, lines 27-77) *)

Definition PLATFORM_UNKNOWN : Z := 0.
Definition PLATFORM_STEAM : Z := 1.
Definition PLATFORM_PSN : Z := 2.
Definition PLATFORM_XBOX : Z := 4.
Definition PLATFORM_SWITCH : Z := 6.

Definition PLATFORMS_items : list (string * Z) :=
  [ ("Unknown", PLATFORM_UNKNOWN);
    ("Steam", PLATFORM_STEAM);
    ("PlayStation", PLATFORM_PSN);
    ("Xbox", PLATFORM_XBOX);
    ("Switch", PLATFORM_SWITCH) ].

Definition PLATFORMS : gmap string Z := dict_literal PLATFORMS_items.

Definition PLATFORMS_MAPPINGS_items : list (pykey * pyval) :=
  [ (KStr "unknown", VInt PLATFORM_UNKNOWN);
    (KStr "steam", VInt PLATFORM_STEAM);
    (KStr "Steam", VInt PLATFORM_STEAM);
    (KStr "PlayStation", VInt PLATFORM_PSN);
    (KStr "playstation", VInt PLATFORM_PSN);
    (KStr "ps4", VInt PLATFORM_PSN);
    (KStr "Xbox", VInt PLATFORM_XBOX);
    (KStr "xbox", VInt PLATFORM_XBOX);
    (KStr "xboxone", VInt PLATFORM_XBOX);
    (KStr "switch", VInt PLATFORM_SWITCH);
    (KStr "Switch", VInt PLATFORM_SWITCH);
    (KStr "OnlinePlatform_PS4", VInt PLATFORM_PSN);
    (KStr "OnlinePlatform_Unknown", VInt PLATFORM_UNKNOWN);
    (KStr "OnlinePlatform_Dingo", VInt PLATFORM_XBOX);
    (KStr "OnlinePlatform_Steam", VInt PLATFORM_STEAM);
    (KStr "OnlinePlatform_NNX", VInt PLATFORM_SWITCH);

    (KStr "{'Value': ['OnlinePlatform', 'OnlinePlatform_Steam']}", VInt PLATFORM_STEAM);
    (KStr "{'Value': ['OnlinePlatform', 'OnlinePlatform_Dingo']}", VInt PLATFORM_XBOX);
    (KStr "{'Value': ['OnlinePlatform', 'OnlinePlatform_PS4']}", VInt PLATFORM_PSN);
    (KStr "{'Value': ['OnlinePlatform', 'OnlinePlatform_Unknown']}", VInt PLATFORM_UNKNOWN);

    (* The next values are used for the official API. *)
    (KInt PLATFORM_UNKNOWN, VStr "unknown");
    (KStr (str_of_int PLATFORM_UNKNOWN), VStr "unknown");
    (KInt PLATFORM_STEAM, VStr "steam");
    (KStr (str_of_int PLATFORM_STEAM), VStr "steam");
    (KInt PLATFORM_PSN, VStr "ps4");
    (KStr (str_of_int PLATFORM_PSN), VStr "ps4");
    (KInt PLATFORM_XBOX, VStr "xboxone");
    (KStr (str_of_int PLATFORM_XBOX), VStr "xboxone");
    (KInt PLATFORM_SWITCH, VStr "switch");
    (KStr (str_of_int PLATFORM_SWITCH), VStr "switch");

    (KNone, VInt PLATFORM_UNKNOWN) ].

Definition PLATFORMS_MAPPINGS : gmap pykey pyval :=
  dict_literal PLATFORMS_MAPPINGS_items.

(** ** Strings: the pieces of [str] and [re] the models use *)

Definition inspect {A} (a : A) : {b | a = b} := exist _ a eq_refl.

(** [n] leading characters of [s], all of class [p]: the matched text and
    what follows it. *)
Fixpoint match_class (p : ascii → bool) (n : nat) (s : string)
    : option (string * string) :=
  match n with
  | O => Some (EmptyString, s)
  | S n' =>
      match s with
      | String c s' =>
          if p c then
            match match_class p n' s' with
            | Some (g, rest) => Some (String c g, rest)
            | None => None
            end
          else None
      | EmptyString => None
      end
  end.

Lemma match_class_length p n s g rest :
  match_class p n s = Some (g, rest) →
  String.length s = (n + String.length rest)%nat.
Proof.
  revert s g rest. induction n as [|n IH]; intros s g rest; simpl.
  - by intros [= <- <-].
  - destruct s as [|c s]; [done|]. destruct (p c); [|done].
    destruct (match_class p n s) as [[g' r']|] eqn:E; [|done].
    intros [= <- <-]. simpl. f_equal. eauto.
Qed.

Definition strip_prefix (old s : string) : option string :=
  match match_class (λ _, true) (String.length old) s with
  | Some (g, rest) => if decide (g = old) then Some rest else None
  | None => None
  end.

Lemma strip_prefix_length old s rest :
  strip_prefix old s = Some rest →
  String.length s = (String.length old + String.length rest)%nat.
Proof.
  unfold strip_prefix. intros E.
  destruct (match_class _ _ _) as [[g r]|] eqn:E'; [|done].
  case_decide; [|done]. injection E as ->.
  by apply match_class_length in E'.
Qed.

(** [s.replace(old, new)]: every occurrence of [old], leftmost first and
    without overlap. With an empty [old] Python puts [new] around every
    character. *)
Fixpoint str_interleave (new s : string) : string :=
  match s with
  | EmptyString => new
  | String c s' => new +:+ String c (str_interleave new s')
  end.

Equations? str_replace_scan (o : ascii) (old' new s : string) : string
    by wf (String.length s) lt :=
  str_replace_scan o old' new EmptyString := EmptyString;
  str_replace_scan o old' new (String c s')
    with inspect (strip_prefix (String o old') (String c s')) := {
    | exist _ (Some rest) E => new +:+ str_replace_scan o old' new rest
    | exist _ None E => String c (str_replace_scan o old' new s') }.
Proof.
  all: try apply strip_prefix_length in E; simpl in *; lia.
Qed.

Definition str_replace (old new s : string) : string :=
  match old with
  | EmptyString => str_interleave new s
  | String o old' => str_replace_scan o old' new s
  end.

(** Every character of [s] is of class [p]. *)
Fixpoint str_forall (p : ascii → bool) (s : string) : bool :=
  match s with
  | EmptyString => true
  | String c s' => p c && str_forall p s'
  end.

(** [s.lower()] on ASCII text. *)
Definition ascii_lower (c : ascii) : ascii :=
  let n := nat_of_ascii c in
  if ((65 <=? n) && (n <=? 90))%nat then ascii_of_nat (n + 32) else c.

Fixpoint str_lower (s : string) : string :=
  match s with
  | EmptyString => EmptyString
  | String c s' => String (ascii_lower c) (str_lower s')
  end.

(** The character class [[A-F0-9]]. *)
Definition is_upper_hex (c : ascii) : bool :=
  let n := nat_of_ascii c in
  ((48 <=? n) && (n <=? 57) || (65 <=? n) && (n <=? 70))%nat.

(** A match of
    [([A-F0-9]{8})([A-F0-9]{4})([A-F0-9]{4})([A-F0-9]{4})([A-F0-9]{12})]
    at the start of [s]: its five groups and the text after the match. *)
Record re_match : Type := {
  groups : list string;
  rest : string;
}.

Definition uuid_pattern (s : string) : option re_match :=
  '(g1, s1) ← match_class is_upper_hex 8 s;
  '(g2, s2) ← match_class is_upper_hex 4 s1;
  '(g3, s3) ← match_class is_upper_hex 4 s2;
  '(g4, s4) ← match_class is_upper_hex 4 s3;
  '(g5, s5) ← match_class is_upper_hex 12 s4;
  Some {| groups := [g1; g2; g3; g4; g5]; rest := s5 |}.

Lemma uuid_pattern_length s m :
  uuid_pattern s = Some m → String.length s = (32 + String.length (rest m))%nat.
Proof.
  unfold uuid_pattern. intros E.
  repeat (apply bind_Some in E as ([? ?] & ?%match_class_length & E)).
  injection E as <-. simpl. lia.
Qed.

(** The replacement template [\1-\2-\3-\4-\5]. *)
Definition uuid_template (m : re_match) : string := String.concat "-" (groups m).

(** [re.sub(pattern, template, s)] for the pattern and template above:
    the text is scanned from the left; where the pattern matches, the
    match is replaced and the scan resumes after it, elsewhere one
    character is copied. *)
Equations? re_sub_uuid (s : string) : string by wf (String.length s) lt :=
  re_sub_uuid EmptyString := EmptyString;
  re_sub_uuid (String c s') with inspect (uuid_pattern (String c s')) := {
    | exist _ (Some m) E => uuid_template m +:+ re_sub_uuid (rest m)
    | exist _ None E => String c (re_sub_uuid s') }.
Proof.
  all: try apply uuid_pattern_length in E; simpl in *; lia.
Qed.

(** A run of 32 consecutive characters of the class [[A-F0-9]] somewhere
    in [s]. *)
Definition has_hex_run (s : string) : Prop :=
  ∃ pre run suf,
    s = pre +:+ run +:+ suf
    ∧ String.length run = 32%nat
    ∧ str_forall is_upper_hex run = true.

(** ** Numbers

    A Python [float] is an IEEE 754 binary64 number. The clock texts
    ([goal_time], [match_length]) are read off a rounded quotient digit by
    digit, so the [record_fps] column and that arithmetic are Rocq's
    primitive binary64 floats, with [divmod] and [int] as CPython computes
    them (module [F64]). The excitement factor, the average rating and
    the duration of a pack are computed on the rationals that their floats
    denote ([Q]). *)

Module F64.

(** [not x]: a zero of either sign is falsy, NaN is not. *)
Definition falsy (x : float) : bool := (x =? 0)%float.

(** [float(n)] for an integer, as in [n / x]: the nearest float, ties to
    even; an integer beyond the range raises [OverflowError]. *)
Definition of_int (n : Z) : result float :=
  match binary_normalize prec emax n 0 false with
  | S754_infinity _ => Raise OverflowError
  | x => Ok (SF2Prim x)
  end.

(** [a / b] on floats. *)
Definition truediv (a b : float) : result float :=
  if (b =? 0)%float then Raise ZeroDivisionError else Ok (a / b)%float.

(** [copysign(0.0, y)] *)
Definition copysign_zero (y : float) : float :=
  if get_sign y then (-0)%float else 0%float.

(** C's [fmod(x, y)]: the exact remainder of the division truncated
    towards zero, with the sign of [x]. *)
Definition fmod (x y : float) : float :=
  match Prim2SF x, Prim2SF y with
  | S754_nan, _ | _, S754_nan => nan
  | S754_infinity _, _ => nan
  | _, S754_zero _ => nan
  | S754_zero _, _ => x
  | S754_finite _ _ _, S754_infinity _ => x
  | S754_finite sx mx ex, S754_finite _ my ey =>
      let e := Z.min ex ey in
      let r := Z.rem (Z.pos mx * 2 ^ (ex - e)) (Z.pos my * 2 ^ (ey - e)) in
      if (r =? 0)%Z then (if sx then (-0)%float else 0%float)
      else SF2Prim (binary_normalize prec emax (if sx then - r else r) e false)
  end.

(** C's [floor(x)]. *)
Definition floor (x : float) : float :=
  match Prim2SF x with
  | S754_finite s m e =>
      if (0 <=? e)%Z then x
      else
        let n := ((if s then Z.neg m else Z.pos m) / 2 ^ (- e))%Z in
        if (n =? 0)%Z then 0%float
        else SF2Prim (binary_normalize prec emax n 0 false)
  | _ => x
  end.

(** [divmod(vx, wx)] on floats (CPython's [float_divmod]): the remainder
    takes the sign of [wx], and the quotient is snapped to the nearest
    whole number. *)
Definition divmod (vx wx : float) : result (float * float) :=
  if (wx =? 0)%float then Raise ZeroDivisionError
  else
    let md := fmod vx wx in
    (* fmod is typically exact, so vx-mod is *mathematically* an exact
       multiple of wx. *)
    let div := ((vx - md) / wx)%float in
    let '(md, div) :=
      if negb (md =? 0)%float then
        (* ensure the remainder has the same sign as the denominator *)
        if negb (Bool.eqb (wx <? 0)%float (md <? 0)%float)
        then ((md + wx)%float, (div - 1)%float)
        else (md, div)
      else (copysign_zero wx, div) in
    (* snap quotient to nearest integral value *)
    let floordiv :=
      if negb (div =? 0)%float then
        let floordiv := floor div in
        if (0.5 <? div - floordiv)%float then (floordiv + 1)%float else floordiv
      else copysign_zero (vx / wx)%float in
    Ok (floordiv, md).

(** [int(x)] for a float: truncation towards zero; NaN raises
    [ValueError], an infinity [OverflowError]. *)
Definition int (x : float) : result Z :=
  match Prim2SF x with
  | S754_nan => Raise ValueError
  | S754_infinity _ => Raise OverflowError
  | S754_zero _ => Ok 0
  | S754_finite s m e =>
      let a := (if (0 <=? e)%Z then Z.pos m * 2 ^ e else Z.pos m / 2 ^ (- e))%Z in
      Ok (if s then - a else a)
  end.

End F64.

(** [divmod(a, b)] on the rationals: the floored quotient and the
    remainder. *)
Definition float_divmod (a b : Q) : Q * Q :=
  let q := Qfloor (a / b) in
  (inject_Z q, a - inject_Z q * b)%Q.

(** [int(x)] on the rationals: truncation towards zero. *)
Definition int_of_float (x : Q) : Z :=
  if Qle_bool 0 x then Qfloor x else Qceiling x.

(** ['%d' % n] and ['%02d' % n]. *)
Definition fmt_d (n : Z) : string := pretty n.

Definition fmt_02d (n : Z) : string :=
  let s := pretty n in
  if (String.length s <? 2)%nat then "0" +:+ s else s.

(** [max(l)] and [min(l)] of a list of integers; both raise [ValueError]
    on an empty list. *)
Definition py_max (l : list Z) : result Z :=
  match l with
  | [] => Raise ValueError
  | x :: l' => Ok (foldl Z.max x l')
  end.

Definition py_min (l : list Z) : result Z :=
  match l with
  | [] => Raise ValueError
  | x :: l' => Ok (foldl Z.min x l')
  end.

(** ** The models: one record per table row

    Only the columns that the modelled methods read are kept. A
    [ForeignKey] column holds the primary key of the row it refers to. *)

Module Replay.
Record t : Type := {
  pk : Z;
  replay_id : option string;
  playlist : option Z;
  team_0_score : option Z;
  team_1_score : option Z;
  num_frames : option Z;
  record_fps : option float;
}.
End Replay.

(** The stored vehicle loadout is a JSON value. Its two documented shapes
    are a list of item numbers (legacy) and a dictionary from slot names to
    [{"Name": ..., "Id": ...}] entries next to plain numbers such as
    ["Version": 12]; any other JSON value only counts through its truth
    value. *)
Inductive loadout_value : Type :=
  | LItem (Name : option string) (Id : Z)
  | LNumber (z : Z).

Inductive loadout : Type :=
  | LoadoutNone
  | LoadoutList (l : list Z)
  | LoadoutDict (d : gmap string loadout_value)
  | LoadoutOther (truthy : bool).

Module Player.
Record t : Type := {
  pk : Z;
  replay : Z;
  player_name : string;
  team : Z;
  platform : option string;
  online_id : option string;
  bot : bool;
  vehicle_loadout : loadout;
}.
End Player.

Module Goal.
Record t : Type := {
  replay : Z;
  number : Z;
  player : Z;
  frame : option Z;
}.
End Goal.

Module BoostData.
Record t : Type := {
  replay : Z;
  player : Z;
  frame : Z;
  value : Z;
}.
End BoostData.

Module Component.
Record t : Type := {
  pk : Z;
  type : string;
  internal_id : Z;
  name : string;
}.
End Component.

#[global] Instance component_eq_dec : EqDecision Component.t.
Proof. solve_decision. Defined.

(** ** [Replay.uuid] (models.py, lines 315-317) *)

Definition uuid (self : Replay.t) : result string :=
  match Replay.replay_id self with
  | None => Raise TypeError
  | Some replay_id => Ok (str_lower (re_sub_uuid replay_id))
  end.

(** ** [Goal]: ordering and [goal_time] (models.py, lines 878-922) *)

(** [Meta.ordering = ['frame']]: related goals come back sorted by
    [frame], ascending. Where rows without a frame go is the database's
    choice: before the others ([nulls_first], as SQLite and MySQL do) or
    after them (as PostgreSQL does). *)
Definition frame_le (nulls_first : bool) (a b : option Z) : Prop :=
  match a, b with
  | None, None => True
  | None, Some _ => nulls_first = true
  | Some _, None => nulls_first = false
  | Some x, Some y => (x ≤ y)%Z
  end.

#[global] Instance frame_le_dec nf : RelDecision (frame_le nf).
Proof. intros [x|] [y|]; simpl; apply _. Defined.

Definition goal_le (nulls_first : bool) (g1 g2 : Goal.t) : Prop :=
  frame_le nulls_first (Goal.frame g1) (Goal.frame g2).

#[global] Instance goal_le_dec nf : RelDecision (goal_le nf).
Proof. intros g1 g2. unfold goal_le. apply _. Defined.

(** [replay.goal_set.all()] *)
Definition goal_set (nulls_first : bool) (goals : list Goal.t) (replay : Replay.t)
    : list Goal.t :=
  merge_sort (goal_le nulls_first)
    (filter (λ g, Goal.replay g = Replay.pk replay) goals).

(** [not self.frame]: the frame is missing or zero. *)
Definition frame_falsy (frame : option Z) : bool :=
  match frame with
  | None => true
  | Some f => bool_decide (f = 0)
  end.

(** [not self.replay.record_fps] *)
Definition fps_falsy (fps : option float) : bool :=
  match fps with
  | None => true
  | Some x => F64.falsy x
  end.

(** Past the guard both values are present; [default] only unwraps them.
    The integer operands of [/] and [divmod] are converted to floats. *)
Definition goal_time (self : Goal.t) (replay : Replay.t) : result string :=
  if frame_falsy (Goal.frame self) || fps_falsy (Replay.record_fps replay)
  then Ok "N/A"
  else
    let frame := default 0 (Goal.frame self) in
    let record_fps := default 0%float (Replay.record_fps replay) in
    calculation ← (frame ← F64.of_int frame; F64.truediv frame record_fps);
    '(minutes, seconds) ← F64.divmod calculation 60;
    minutes ← F64.int minutes;
    seconds ← F64.int seconds;
    Ok (fmt_d minutes +:+ ":" +:+ fmt_02d seconds).

(** The minutes and seconds that the clock texts show for [n] frames at
    [fps] frames per second: what [goal_time] and [match_length] format. *)
Definition clock_parts (n : Z) (fps : float) : result (Z * Z) :=
  calculation ← (n ← F64.of_int n; F64.truediv n fps);
  '(minutes, seconds) ← F64.divmod calculation 60;
  minutes ← F64.int minutes;
  seconds ← F64.int seconds;
  Ok (minutes, seconds).

(** Whether, for each of the [count] frame numbers from [n] on, the clock
    at 30 frames per second shows the whole seconds [n / 30] exactly. *)
Fixpoint clock_exact_from (count : nat) (n : Z) : bool :=
  match count with
  | O => true
  | S count' =>
      match clock_parts n 30 with
      | Ok (minutes, seconds) =>
          (minutes =? n / 30 / 60)%Z && (seconds =? (n / 30) mod 60)%Z
          && clock_exact_from count' (n + 1)
      | Raise _ => false
      end
  end.

(** ** [Replay.calculate_excitement_factor] (models.py, lines 384-437) *)

(** [goal.player]: the related row; a dangling key raises
    [Player.DoesNotExist]. *)
Definition goal_player (players : gmap Z Player.t) (goal : Goal.t) : result Player.t :=
  match players !! Goal.player goal with
  | Some p => Ok p
  | None => Raise DoesNotExist
  end.

(** The loop over the goals: the running swing and the values it took. *)
Fixpoint swing_loop (players : gmap Z Player.t) (goals : list Goal.t)
    (swing : Z) (swing_values : list Z) : result (list Z) :=
  match goals with
  | [] => Ok swing_values
  | goal :: goals' =>
      player ← goal_player players goal;
      let swing := if decide (Player.team player = 0) then swing - 1 else swing + 1 in
      swing_loop players goals' swing (swing_values ++ [swing])
  end.

(** A score column in a comparison or a sum: [None] raises [TypeError]. *)
Definition score (v : option Z) : result Z :=
  match v with
  | Some z => Ok z
  | None => Raise TypeError
  end.

Definition calculate_excitement_factor
    (nulls_first : bool) (players : gmap Z Player.t) (goals : list Goal.t)
    (self : Replay.t) : result Q :=
  (* Multiplers for use in factor tweaking. *)
  let swing_rating_multiplier : Q := 8%Q in
  let goal_count_multiplier : Q := (12 # 10)%Q in
  (* Calculate how the swing changed throughout the game. *)
  swing_values ← swing_loop players (goal_set nulls_first goals self) 0 [];
  team_0_score ← score (Replay.team_0_score self);
  team_1_score ← score (Replay.team_1_score self);
  '(deficit, score_min_def) ←
    (if decide (team_0_score > team_1_score)%Z then
       (* Team 0 won, but were they ever losing? *)
       let deficit_values := filter (λ x, x < 0)%Z swing_values in
       deficit ← (if decide (deficit_values ≠ []) then py_max swing_values else Ok 0);
       Ok (deficit, team_0_score - deficit)
     else
       (* Team 1 won, but were they ever losing? *)
       let deficit_values := filter (λ x, x < 0)%Z swing_values in
       deficit ← (if decide (deficit_values ≠ [])
                  then Z.abs <$> py_min deficit_values else Ok 0);
       Ok (deficit, team_1_score - deficit));
  let swing_rating : Q :=
    if decide (score_min_def ≠ 0)
    then (inject_Z deficit / inject_Z score_min_def * swing_rating_multiplier)%Q
    else 0%Q in
  (* Cap the goal multiplier at 5. *)
  let total_goals := team_0_score + team_1_score in
  let total_goals := if decide (total_goals > 5)%Z then 5 else total_goals in
  Ok (swing_rating + inject_Z total_goals * goal_count_multiplier)%Q.

(** ** [Player]: platform lookups (models.py, lines 730-761 and 856-866) *)

(** The platform column as a dictionary key: [None] or a string. *)
Definition platform_key (platform : option string) : pykey :=
  match platform with
  | None => KNone
  | Some s => KStr s
  end.

(** [not self.platform] *)
Definition platform_falsy (platform : option string) : bool :=
  match platform with
  | None => true
  | Some s => bool_decide (s = "")
  end.

Record LeagueRating : Type := {
  tier : Z;
}.

Record rating_data : Type := {
  image : string;
  tier_name : string;
}.

Section player_methods.

(** What the methods take from outside this module: the settings, the
    rating manager and template tags of the users application, the static
    files tag, the URL resolver and the builtin [int]. *)
Context (RANKED_PLAYLISTS : list Z).
Context (get_or_request :
  option string → option string → option Z → result (option LeagueRating)).
Context (static : string → string).
Context (tier_name_tag : Z → string).
Context (reverse : string → gmap string (option pyval) → result string).
Context (int : string → result Z).

(** [self.replay.playlist not in settings.RANKED_PLAYLISTS] *)
Definition playlist_not_ranked (playlist : option Z) : bool :=
  match playlist with
  | None => true
  | Some p => bool_decide (p ∉ RANKED_PLAYLISTS)
  end.

(** Returns [None] (no data), or the image and tier name. The lookup
    [PLATFORMS_MAPPINGS[self.platform]] is evaluated while the arguments of
    [get_or_request] are built, inside the [try]; only
    [LeagueRating.DoesNotExist] is handled there. *)
Definition get_rating_data (self : Player.t) (replay : Replay.t)
    : result (option rating_data) :=
  if playlist_not_ranked (Replay.playlist replay) then Ok None
  else
    try_except_only DoesNotExist
      (mapped ← getitem PLATFORMS_MAPPINGS (platform_key (Player.platform self));
       let online_id :=
         if decide (mapped = VInt PLATFORM_STEAM)
         then Player.online_id self
         else Some (Player.player_name self) in
       rating ← get_or_request (Player.platform self) online_id (Replay.playlist replay);
       match rating with
       | None =>
           Ok (Some {| image := static "img/tiers/icons/0.png";
                       tier_name := tier_name_tag 0 |})
       | Some rating =>
           Ok (Some {| image := static ("img/tiers/icons/" +:+ str_of_int (tier rating) +:+ ".png");
                       tier_name := tier_name_tag (tier rating) |})
       end)
      (Ok (Some {| image := static "img/tiers/icons/0.png";
                   tier_name := "Unranked" |})).

Definition get_absolute_url (self : Player.t) : result string :=
  if Player.bot self
     || bool_decide (Player.platform self = Some "0")
     || platform_falsy (Player.platform self)
  then Ok "#1"
  else
    try_except
      (mapped ← getitem PLATFORMS_MAPPINGS (platform_key (Player.platform self));
       platform_number ← int (default "" (Player.platform self));
       let player_id :=
         if decide (platform_number = PLATFORM_STEAM)
         then VStr <$> Player.online_id self
         else Some (VStr (Player.player_name self)) in
       reverse "users:player"
         (dict_literal [("platform", Some mapped); ("player_id", player_id)]))
      (Ok "#2").

End player_methods.

(** ** [Player.vehicle_data] (models.py, lines 763-854)

    The method reads and reassigns [self.vehicle_loadout] and queries and
    extends the [Component] table, and it can raise half way: it runs in a
    state-and-error monad over the instance and the database. Changes made
    before an exception stay.

    The database is the [Component] table with the limits of its columns,
    which differ between databases: [integer_max] is the largest value of
    an integer column (2147483647 on PostgreSQL, the range Django documents
    as safe everywhere; more on SQLite), and [enforces_max_length] tells
    whether a text longer than its column's [max_length] is refused
    (PostgreSQL does, SQLite does not). *)

Record world : Type := {
  self : Player.t;
  component_rows : list Component.t;
  integer_max : Z;
  enforces_max_length : bool;
}.

Definition M (A : Type) : Type := world → result A * world.

#[global] Instance M_ret : MRet M := λ A a w, (Ok a, w).

#[global] Instance M_bind : MBind M := λ A B k m w,
  match m w with
  | (Ok a, w') => k a w'
  | (Raise e, w') => (Raise e, w')
  end.

Definition raise {A} (e : exn) : M A := λ w, (Raise e, w).

(** [try: body / except Exception: handler] *)
Definition try_except_M {A} (body handler : M A) : M A := λ w,
  match body w with
  | (Ok a, w') => (Ok a, w')
  | (Raise _, w') => handler w'
  end.

Definition get_vehicle_loadout : M loadout := λ w,
  (Ok (Player.vehicle_loadout (self w)), w).

Definition set_vehicle_loadout (v : loadout) : M unit := λ w,
  let p := self w in
  (Ok (),
   {| self := {| Player.pk := Player.pk p;
                 Player.replay := Player.replay p;
                 Player.player_name := Player.player_name p;
                 Player.team := Player.team p;
                 Player.platform := Player.platform p;
                 Player.online_id := Player.online_id p;
                 Player.bot := Player.bot p;
                 Player.vehicle_loadout := v |};
      component_rows := component_rows w;
      integer_max := integer_max w;
      enforces_max_length := enforces_max_length w |}).

(** The database with other rows in the [Component] table. *)
Definition with_component_rows (w : world) (rows : list Component.t) : world :=
  {| self := self w;
     component_rows := rows;
     integer_max := integer_max w;
     enforces_max_length := enforces_max_length w |}.

(** What the database checks of a row it is asked to store.
    [internal_id = models.PositiveIntegerField()]: a negative value and a
    value above the column's range are refused.
    [name = models.CharField(max_length=100)]: a longer text is refused
    where the length is enforced. The [type] column holds 8 characters,
    and the types that [vehicle_data] passes are the six names of its
    [component_maps], of 7 characters at most. *)
Definition PositiveIntegerField_ok (integer_max value : Z) : bool :=
  (0 <=? value)%Z && (value <=? integer_max)%Z.

Definition CharField_ok (enforced : bool) (max_length : nat) (text : string) : bool :=
  negb enforced || (String.length text <=? max_length)%nat.

Definition storable (w : world) (internal_id : Z) (name : string) : bool :=
  PositiveIntegerField_ok (integer_max w) internal_id
  && CharField_ok (enforces_max_length w) 100 name.

(** Two states of one database: the column limits are the same. *)
Definition same_limits (w w' : world) : Prop :=
  integer_max w' = integer_max w
  ∧ enforces_max_length w' = enforces_max_length w.

(** The [Component] manager. Rows are kept in insertion order, which is
    also the order of their keys. A row that the database refuses raises
    [django.db.DatabaseError] (its subclasses [IntegrityError] and
    [DataError] are not told apart) and leaves the table as it was. *)
Definition component_matches (type : string) (internal_id : Z) (c : Component.t) : Prop :=
  Component.type c = type ∧ Component.internal_id c = internal_id.

#[global] Instance component_matches_dec ty iid c : Decision (component_matches ty iid c).
Proof. unfold component_matches. apply _. Defined.

Definition next_pk (rows : list Component.t) : Z :=
  foldr Z.max 0 (Component.pk <$> rows) + 1.

(** [Component.objects.filter(type=..., internal_id=...)] *)
Definition objects_filter (type : string) (internal_id : Z) : M (list Component.t) :=
  λ w, (Ok (filter (component_matches type internal_id) (component_rows w)), w).

(** [Component.objects.create(type=..., internal_id=..., name=...)] *)
Definition objects_create (type : string) (internal_id : Z) (name : string)
    : M Component.t := λ w,
  let c := {| Component.pk := next_pk (component_rows w);
              Component.type := type;
              Component.internal_id := internal_id;
              Component.name := name |} in
  if storable w internal_id name
  then (Ok c, with_component_rows w (component_rows w ++ [c]))
  else (Raise DatabaseError, w).

(** [Component.objects.get_or_create(type=..., internal_id=...,
    defaults={'name': ...})]: the row and whether it was created. *)
Definition objects_get_or_create (type : string) (internal_id : Z) (name : string)
    : M (Component.t * bool) :=
  rows ← objects_filter type internal_id;
  match rows with
  | [] => c ← objects_create type internal_id name; mret (c, true)
  | [c] => mret (c, false)
  | _ => raise MultipleObjectsReturned
  end.

(** [component.save()] for a row that has a key. *)
Definition save (c : Component.t) : M unit := λ w,
  if storable w (Component.internal_id c) (Component.name c)
  then
    (Ok (),
     with_component_rows w
       ((λ r, if decide (Component.pk r = Component.pk c) then c else r)
          <$> component_rows w))
  else (Raise DatabaseError, w).

(** [l[1:-1]] *)
Definition slice_1_m1 {A} (l : list A) : list A :=
  drop 1 (take (length l - 1) l).

(** [not self.vehicle_loadout] *)
Definition loadout_falsy (v : loadout) : bool :=
  match v with
  | LoadoutNone => true
  | LoadoutList l => bool_decide (l = [])
  | LoadoutDict d => bool_decide (d = ∅)
  | LoadoutOther truthy => negb truthy
  end.

(** The list branch's [component_maps], and [component_maps[index]]. *)
Definition list_component_maps : list string :=
  ["body"; "decal"; "wheels"; "trail"; "antenna"; "topper"].

Definition component_maps_at (index : nat) : M string :=
  match list_component_maps !! index with
  | Some type => mret type
  | None => raise IndexError
  end.

(** One turn of [for index, component in enumerate(self.vehicle_loadout)]. *)
Definition list_step (components : gmap string Component.t)
    (index : nat) (component : Z) : M (gmap string Component.t) :=
  if decide (component > 0)%Z then
    type ← component_maps_at index;
    get_component ← objects_filter type component;
    c ← match get_component with
         | c :: _ => mret c
         | [] => objects_create type component "Unknown"
         end;
    mret (<[type := c]> components)
  else mret components.

Fixpoint list_loop (components : gmap string Component.t)
    (index : nat) (l : list Z) : M (gmap string Component.t) :=
  match l with
  | [] => mret components
  | component :: l' =>
      components ← list_step components index component;
      list_loop components (S index) l'
  end.

(** The dict branch's [component_maps]: slot name, component type and the
    prefix taken off the item name. *)
Definition dict_component_maps : list (string * (string * string)) :=
  [ ("Body", ("body", "Body_"));
    ("Decal", ("decal", "Skin_"));
    ("Wheels", ("wheels", "WHEEL_"));
    ("RocketTrail", ("trail", "Boost_"));
    ("Antenna", ("antenna", "Antenna "));
    ("Topper", ("topper", "Hat_")) ].

(** [Name.replace(mappings['replace'], '').replace('_', ' ')] *)
Definition display_name (replace Name : string) : string :=
  str_replace "_" " " (str_replace replace "" Name).

(** One turn of [for component_type, mappings in component_maps.items()].
    The test [self.vehicle_loadout[component_type]['Name']] is outside the
    [try]: subscripting a number raises [TypeError]. Inside the [try] the
    row is put into [components] first and renamed there; when its
    [save()] raises, the exception is swallowed and [components] keeps
    the renamed object, while the table keeps the old name. *)
Definition dict_step (d : gmap string loadout_value)
    (components : gmap string Component.t)
    (mapping : string * (string * string)) : M (gmap string Component.t) :=
  let '(component_type, (type, replace)) := mapping in
  match d !! component_type with
  | None => mret components
  | Some (LNumber _) => raise TypeError
  | Some (LItem None _) => mret components
  | Some (LItem (Some Name) Id) =>
      if decide (Name = "") then mret components
      else
        try_except_M
          ('(c, _) ← objects_get_or_create type Id (display_name replace Name);
           if decide (Component.name c = "Unknown") then
             let c' := {| Component.pk := Component.pk c;
                          Component.type := Component.type c;
                          Component.internal_id := Component.internal_id c;
                          Component.name := display_name replace Name |} in
             try_except_M
               (_ ← save c';
                mret (<[type := c']> components))
               (mret (<[type := c']> components))
           else mret (<[type := c]> components))
          (mret components)
  end.

Fixpoint dict_loop (d : gmap string loadout_value)
    (components : gmap string Component.t)
    (mappings : list (string * (string * string))) : M (gmap string Component.t) :=
  match mappings with
  | [] => mret components
  | mapping :: mappings' =>
      components ← dict_step d components mapping;
      dict_loop d components mappings'
  end.

Definition vehicle_data : M (gmap string Component.t) :=
  let components : gmap string Component.t := ∅ in
  vehicle_loadout ← get_vehicle_loadout;
  if loadout_falsy vehicle_loadout then mret components
  else
    match vehicle_loadout with
    | LoadoutList l =>
        l ← (if decide (length l = 9%nat)
             then (_ ← set_vehicle_loadout (LoadoutList (slice_1_m1 l));
                   mret (slice_1_m1 l))
             else mret l);
        if decide (length l = 7%nat) then list_loop components 0 l
        else raise AssertionError
    | LoadoutDict d => dict_loop d components dict_component_maps
    | _ => mret components
    end.

(** The world after [self.vehicle_loadout = v]. *)
Definition with_vehicle_loadout (w : world) (v : loadout) : world :=
  (set_vehicle_loadout v w).2.

(** The rows of a type and internal id. *)
Definition matching (type : string) (internal_id : Z) (rows : list Component.t)
    : list Component.t :=
  filter (component_matches type internal_id) rows.

(** A slot of the loadout that names an item. *)
Definition names_item (d : gmap string loadout_value) (key : string) (Id : Z) : Prop :=
  ∃ Name, d !! key = Some (LItem (Some Name) Id) ∧ Name ≠ "".

(** ** [BoostData] (models.py, lines 1005-1024) *)

(** [MinValueValidator(limit_value)] rejects a value below the limit,
    [MaxValueValidator(limit_value)] one above it. *)
Definition MinValueValidator (limit_value value : Z) : result unit :=
  if decide (value < limit_value)%Z then Raise ValidationError else Ok ().

Definition MaxValueValidator (limit_value value : Z) : result unit :=
  if decide (value > limit_value)%Z then Raise ValidationError else Ok ().

(** [validators=[MinValueValidator(0), MaxValueValidator(255)]] *)
Definition value_validators : list (Z → result unit) :=
  [MinValueValidator 0; MaxValueValidator 255].

(** [Field.run_validators]: every validator runs, the errors are
    collected, and the value is refused when there is one. *)
Definition validation_error (r : result unit) : option exn :=
  match r with
  | Ok _ => None
  | Raise e => Some e
  end.

Definition run_validators (validators : list (Z → result unit)) (value : Z)
    : result unit :=
  let errors := omap (λ v, validation_error (v value)) validators in
  match errors with
  | [] => Ok ()
  | _ :: _ => Raise ValidationError
  end.

(** Model validation of a row ([full_clean]), as far as [value] goes. *)
Definition full_clean (self : BoostData.t) : result unit :=
  run_validators value_validators (BoostData.value self).

Definition is_byte (value : Z) : Prop := (0 ≤ value ≤ 255)%Z.

(** [BoostData.objects.create(replay=..., player=..., frame=..., value=...)]
    for a replay and a player that exist. Creating or saving a row does
    not run the validators of its fields (only [full_clean] does): the
    database checks its two [PositiveIntegerField] columns, [frame] and
    [value], against the range of an integer column. *)
Definition boost_data_create (integer_max : Z) (table : list BoostData.t)
    (row : BoostData.t) : result (list BoostData.t) :=
  if PositiveIntegerField_ok integer_max (BoostData.frame row)
     && PositiveIntegerField_ok integer_max (BoostData.value row)
  then Ok (table ++ [row])%list
  else Raise DatabaseError.


(** ** Goal events *)

(** Modelled from the spec: a projected goal event (sections 3 and 6: the
    originating frame index and the scoring player), and its hand-over to
    the persistence layer as [Goal] rows numbered 1, 2, 3, ... The event
    projector and the storing code are in the parser module, outside this
    source tree. *)
Record GoalEvent : Type := {
  event_frame : Z;
  event_player : Z;
}.

Definition store_goal_events (replay : Replay.t) (events : list GoalEvent)
    : list Goal.t :=
  imap (λ i e, {| Goal.replay := Replay.pk replay;
                  Goal.number := Z.of_nat i + 1;
                  Goal.player := event_player e;
                  Goal.frame := Some (event_frame e) |}) events.

(** ** Example data

    The rows and values at which the statements below are instantiated. *)

Definition epic_player : Player.t :=
  {| Player.pk := 7; Player.replay := 1; Player.player_name := "Rocketeer";
     Player.team := 0; Player.platform := Some "Epic";
     Player.online_id := Some "76561198000000000"; Player.bot := false;
     Player.vehicle_loadout := LoadoutNone |}.

Definition ranked_replay : Replay.t :=
  {| Replay.pk := 1; Replay.replay_id := None; Replay.playlist := Some 10;
     Replay.team_0_score := Some 1; Replay.team_1_score := Some 0;
     Replay.num_frames := Some 9000; Replay.record_fps := Some 30%float |}.

Definition replay_with_id (id : string) : Replay.t :=
  {| Replay.pk := 1; Replay.replay_id := Some id; Replay.playlist := None;
     Replay.team_0_score := Some 0; Replay.team_1_score := Some 0;
     Replay.num_frames := None; Replay.record_fps := Some 30%float |}.

(** A replay recorded at a given FPS. *)
Definition replay_at_fps (fps : float) : Replay.t :=
  {| Replay.pk := 1; Replay.replay_id := None; Replay.playlist := None;
     Replay.team_0_score := None; Replay.team_1_score := None;
     Replay.num_frames := Some 301; Replay.record_fps := Some fps |}.

Definition other_replay_goal : Goal.t :=
  {| Goal.replay := 2; Goal.number := 1; Goal.player := 33; Goal.frame := Some 50 |}.

Definition two_goal_events : list GoalEvent :=
  [ {| event_frame := 2400; event_player := 11 |};
    {| event_frame := 900; event_player := 10 |} ].

Definition goal_at_frame (frame : Z) : Goal.t :=
  {| Goal.replay := 1; Goal.number := 1; Goal.player := 10; Goal.frame := Some frame |}.

Definition team_0_scorer : Player.t :=
  {| Player.pk := 10; Player.replay := 1; Player.player_name := "Striker";
     Player.team := 0; Player.platform := Some "Steam";
     Player.online_id := Some "76561198000000001"; Player.bot := false;
     Player.vehicle_loadout := LoadoutNone |}.

Definition shutout_replay : Replay.t :=
  {| Replay.pk := 1; Replay.replay_id := None; Replay.playlist := Some 10;
     Replay.team_0_score := Some 1; Replay.team_1_score := Some 0;
     Replay.num_frames := Some 9000; Replay.record_fps := Some 30%float |}.

Definition shutout_goal : Goal.t :=
  {| Goal.replay := 1; Goal.number := 1; Goal.player := 10; Goal.frame := Some 1800 |}.

Definition player_with_loadout (v : loadout) : Player.t :=
  {| Player.pk := 7; Player.replay := 1; Player.player_name := "Rocketeer";
     Player.team := 0; Player.platform := Some "Steam";
     Player.online_id := Some "76561198000000000"; Player.bot := false;
     Player.vehicle_loadout := v |}.

Definition legacy_loadout : list Z := [403; 0; 376; 63; 0; 0; 0].

Definition legacy_world : world :=
  {| self := player_with_loadout (LoadoutList legacy_loadout); component_rows := [];
     integer_max := 2147483647; enforces_max_length := true |}.

Definition long_legacy_world : world :=
  {| self := player_with_loadout (LoadoutList (9 :: legacy_loadout ++ [9])%list);
     component_rows := [];
     integer_max := 2147483647; enforces_max_length := true |}.

Definition named_loadout : gmap string loadout_value :=
  <["Body" := LItem (Some "Body_Force") 22]>
    (<["Decal" := LItem (Some "Skin_Force_Junk") 1178]>
       (<["Antenna" := LItem None 0]> ∅)).

Definition named_world : world :=
  {| self := player_with_loadout (LoadoutDict named_loadout); component_rows := [];
     integer_max := 2147483647; enforces_max_length := true |}.

(** A loadout whose body carries a number that is no item number. *)
Definition unstorable_loadout : gmap string loadout_value :=
  <["Body" := LItem (Some "Body_Force") (-1)]> ∅.

Definition unstorable_world : world :=
  {| self := player_with_loadout (LoadoutDict unstorable_loadout); component_rows := [];
     integer_max := 2147483647; enforces_max_length := true |}.

Definition boost_row (value : Z) : BoostData.t :=
  {| BoostData.replay := 1; BoostData.player := 10; BoostData.frame := 120;
     BoostData.value := value |}.

(** ** Letter case

    What the statements on [str.lower] speak of. *)

(** An ASCII uppercase letter. *)
Definition is_upper (c : ascii) : bool :=
  let n := nat_of_ascii c in ((65 <=? n) && (n <=? 90))%nat.

(** The uppercase form of a lowercase hexadecimal letter. *)
Definition ascii_unlower (c : ascii) : ascii :=
  let n := nat_of_ascii c in
  if ((97 <=? n) && (n <=? 102))%nat then ascii_of_nat (n - 32) else c.

Fixpoint str_unlower (s : string) : string :=
  match s with
  | EmptyString => EmptyString
  | String c s' => String (ascii_unlower c) (str_unlower s')
  end.

(** ** Well-formed component tables *)

(** Primary keys are unique, and so are the pairs of type and internal
    id: [get_or_create] never finds two rows. *)
Definition table_ok (rows : list Component.t) : Prop :=
  NoDup (Component.pk <$> rows)
  ∧ ∀ type id, (length (matching type id rows) ≤ 1)%nat.

Definition keeps_table_ok {A} (m : M A) : Prop :=
  ∀ w r w', m w = (r, w') →
    table_ok (component_rows w) → table_ok (component_rows w').

(** ** What a run leaves of the component rows *)

(** The row [c'] that a run leaves in the place of [c]: the key, the type
    and the internal id stay, and so does every name but ['Unknown']. *)
Definition row_kept (c c' : Component.t) : Prop :=
  Component.pk c' = Component.pk c
  ∧ Component.type c' = Component.type c
  ∧ Component.internal_id c' = Component.internal_id c
  ∧ (Component.name c ≠ "Unknown" → Component.name c' = Component.name c).

Definition keeps_rows {A} (m : M A) : Prop :=
  ∀ w r w', m w = (r, w') → table_ok (component_rows w) →
    ∀ i c, component_rows w !! i = Some c →
      ∃ c', component_rows w' !! i = Some c' ∧ row_kept c c'.

(** ** [Replay.match_length] (models.py, lines 372-382) *)

(** Past the guard both values are present; [default] only unwraps them.
    The integer operands of [/] and [divmod] are converted to floats. *)
Definition match_length (self : Replay.t) : result string :=
  if frame_falsy (Replay.num_frames self) || fps_falsy (Replay.record_fps self)
  then Ok "N/A"
  else
    let num_frames := default 0 (Replay.num_frames self) in
    let record_fps := default 0%float (Replay.record_fps self) in
    calculation ← (num_frames ← F64.of_int num_frames;
                   F64.truediv num_frames record_fps);
    '(minutes, seconds) ← F64.divmod calculation 60;
    minutes ← F64.int minutes;
    seconds ← F64.int seconds;
    Ok (fmt_d minutes +:+ ":" +:+ fmt_02d seconds).

(** The decimal digit [d] as a character. *)
Definition digit_char (d : Z) : ascii := ascii_of_nat (48 + Z.to_nat d).

(** ** [ReplayPack]: goals and duration (models.py, lines 962-991)

    A pack is given by the rows of its [replays] relation. *)

(** [x > 0] on floats. *)
Definition float_pos (x : Q) : bool := negb (Qle_bool x 0).

(** SQL's [SUM] over a column: [NULL] values are skipped, and the sum of
    no value is [NULL]. *)
Definition sql_sum (values : list (option Z)) : option Z :=
  match omap id values with
  | [] => None
  | z :: zs => Some (foldl Z.add z zs)
  end.

(** SQL's [a + b]: [NULL] when either side is. *)
Definition sql_add (a b : option Z) : option Z :=
  x ← a; y ← b; Some (x + y).

Module ReplayPack.

(** [replays.aggregate(Sum(F('team_0_score') + F('team_1_score')))], or 0
    for a pack without replays. *)
Definition goals (replays : list Replay.t) : option Z :=
  if bool_decide (length replays = 0%nat) then Some 0
  else sql_sum ((λ r, sql_add (Replay.team_0_score r) (Replay.team_1_score r))
                  <$> replays).

(** The duration at 30 frames per second. Without replays [calculation]
    is the integer 0, which [divmod] and the format treat as the float
    does. The sum is [None] when no replay has a frame count, and
    [None / 30] raises [TypeError]. *)
Definition total_duration (replays : list Replay.t) : result string :=
  calculation ←
    (if bool_decide (length replays = 0%nat) then Ok 0%Q
     else
       match sql_sum (Replay.num_frames <$> replays) with
       | None => Raise TypeError
       | Some num_frames__sum => Ok (inject_Z num_frames__sum / 30)%Q
       end);
  let '(minutes, seconds) := float_divmod calculation 60 in
  let '(hours, minutes) := float_divmod minutes 60 in
  Ok ((if float_pos hours then str_of_int (int_of_float hours) +:+ "h" else "")
        +:+ " " +:+ str_of_int (int_of_float minutes) +:+ "m "
        +:+ str_of_int (int_of_float seconds) +:+ "s").

End ReplayPack.

(** ** [Season] and [get_default_season] (models.py, lines 80-107)

    Instants are numbers on one time line. *)

Module Season.
Record t : Type := {
  pk : Z;
  title : string;
  start_date : Z;
}.
End Season.

(** [Meta.ordering = ['-start_date']] *)
Definition season_le (a b : Season.t) : Prop :=
  (Season.start_date b ≤ Season.start_date a)%Z.

#[global] Instance season_le_dec : RelDecision season_le.
Proof. intros a b. unfold season_le. apply _. Defined.

Definition season_next_pk (rows : list Season.t) : Z :=
  foldr Z.max 0 (Season.pk <$> rows) + 1.

Section seasons.

(** The instant that ['2015-07-07'] denotes in the configured time zone. *)
Context (game_release_date : Z).

(** The function runs on the [Season] table and returns a primary key;
    [[0]] on an empty query set raises [IndexError]. *)
Definition get_default_season (now : Z) (seasons : list Season.t)
    : result Z * list Season.t :=
  if bool_decide (length seasons = 0%nat) then
    let season := {| Season.pk := season_next_pk seasons;
                     Season.title := "Season 1";
                     Season.start_date := game_release_date |} in
    (Ok (Season.pk season), seasons ++ [season])%list
  else
    match merge_sort season_le
            (filter (λ s, Season.start_date s ≤ now)%Z seasons) with
    | season :: _ => (Ok (Season.pk season), seasons)
    | [] => (Raise IndexError, seasons)
    end.

End seasons.

(** ** [Replay.calculate_average_rating] (models.py, lines 439-466) *)

Section replay_methods.

(** What the methods take from outside this module: the rating manager of
    the users application, the Patreon settings and template tag, and the
    URL resolver. *)
Context (rating_get : option string → option string → option Z → result LeagueRating).
Context (PATREON_PLAYBACK_PRICE PATREON_BOOST_PRICE : Z).
Context (pledge_of_user : Z → result Z).
Context (pledge_of_steam_id : option string → result Z).
Context (reverse : string → gmap string (option pyval) → result string).

(** [self.player_set.exclude(online_id__isnull=True)], out of the player
    rows in the order of the query. *)
Definition rated_players (players : list Player.t) (self : Replay.t) : list Player.t :=
  filter (λ p, Player.replay p = Replay.pk self ∧ Player.online_id p ≠ None) players.

(** The loop over the players: the number of ratings and their total. *)
Fixpoint rating_loop (playlist : option Z) (players : list Player.t)
    (num_player_ratings total_player_ratings : Z) : result (Z * Z) :=
  match players with
  | [] => Ok (num_player_ratings, total_player_ratings)
  | player :: players' =>
      '(num, total) ←
        try_except_only DoesNotExist
          (rating ← rating_get (Player.platform player) (Player.online_id player)
                      playlist;
           Ok (num_player_ratings + 1, total_player_ratings + tier rating))
          (Ok (num_player_ratings, total_player_ratings));
      rating_loop playlist players' num total
  end.

(** The tiers of the players that have a rating. *)
Definition found_tiers (playlist : option Z) (players : list Player.t) : list Z :=
  omap (λ p, match rating_get (Player.platform p) (Player.online_id p) playlist with
             | Ok rating => Some (tier rating)
             | Raise _ => None
             end) players.

Definition calculate_average_rating (players : list Player.t) (self : Replay.t)
    : result Z :=
  '(num_player_ratings, total_player_ratings) ←
    rating_loop (Replay.playlist self) (rated_players players self) 0 0;
  if decide (num_player_ratings > 0)%Z
  then Ok (Qceiling (inject_Z total_player_ratings / inject_Z num_player_ratings))
  else Ok 0.

(** ** [Replay.eligible_for_feature] (models.py, lines 468-496)

    [user] is the replay's [user] column. *)

Definition features : gmap string Z :=
  dict_literal [ ("playback", PATREON_PLAYBACK_PRICE);
                 ("boost_analysis", PATREON_BOOST_PRICE) ].

(** [self.player_set.filter(platform__in=['OnlinePlatform_Steam', '1'])] *)
Definition steam_players (players : list Player.t) (self : Replay.t) : list Player.t :=
  filter (λ p, Player.replay p = Replay.pk self
               ∧ Player.platform p ∈ [Some "OnlinePlatform_Steam"; Some "1"])
    players.

Fixpoint patron_loop (patreon_amount : Z) (players : list Player.t) : result bool :=
  match players with
  | [] => Ok false
  | player :: players' =>
      pledge_amount ← pledge_of_steam_id (Player.online_id player);
      if (pledge_amount >=? patreon_amount)%Z then Ok true
      else patron_loop patreon_amount players'
  end.

Definition eligible_for_feature (user : option Z) (players : list Player.t)
    (self : Replay.t) (feature : string) : result bool :=
  patreon_amount ← getitem features feature;
  uploader ←
    match user with
    | Some user =>
        pledge_amount ← pledge_of_user user;
        Ok (pledge_amount >=? patreon_amount)%Z
    | None => Ok false
    end;
  if uploader : bool then Ok true
  else patron_loop patreon_amount (steam_players players self).

(** ** [Replay.get_absolute_url] (models.py, lines 548-556) *)

(** [not self.replay_id], [not self.server_name]: the falsity of a text
    column that can be [None]. *)
Definition text_falsy (text : option string) : bool :=
  match text with
  | None => true
  | Some s => bool_decide (s = "")
  end.

Definition replay_get_absolute_url (self : Replay.t) : result string :=
  if text_falsy (Replay.replay_id self)
  then reverse "replay:detail" (dict_literal [("pk", Some (VInt (Replay.pk self)))])
  else
    reverse "replay:detail"
      (dict_literal
         [("replay_id",
           Some (VStr (str_lower (re_sub_uuid (default "" (Replay.replay_id self))))))]).

End replay_methods.

(** ** [Replay.lag_report_url] (models.py, lines 359-370)

    Among the characters of a [string] the class [\d] is [[0-9]]. *)

Definition is_digit (c : ascii) : bool :=
  let n := nat_of_ascii c in ((48 <=? n) && (n <=? 57))%nat.

Definition is_lower (c : ascii) : bool :=
  let n := nat_of_ascii c in ((97 <=? n) && (n <=? 122))%nat.

(** The longest prefix of [s] in the class [p], and what follows. *)
Fixpoint span (p : ascii → bool) (s : string) : string * string :=
  match s with
  | EmptyString => (EmptyString, EmptyString)
  | String c s' =>
      if p c then let '(g, rest) := span p s' in (String c g, rest)
      else (EmptyString, s)
  end.

(** [(-([A-Z][a-z]+))?] at the start of [s]: group 3 where it takes
    part. *)
Definition server_suffix (s : string) : option string :=
  match s with
  | String "-" (String c s') =>
      if is_upper c then
        match span is_lower s' with
        | (EmptyString, _) => None
        | (low, _) => Some (String "-" (String c low))
        end
      else None
  | _ => None
  end.

(** [(EU|USE|USW|OCE|SAM)(\d+)(-([A-Z][a-z]+))?] at the start of [s]:
    groups 1, 2 and 3. The alternatives are tried from left to right. *)
Definition server_regions : list string := ["EU"; "USE"; "USW"; "OCE"; "SAM"].

Fixpoint server_pattern_from (regions : list string) (s : string)
    : option (string * string * option string) :=
  match regions with
  | [] => None
  | region :: regions' =>
      match strip_prefix region s with
      | Some after =>
          match span is_digit after with
          | (EmptyString, _) => server_pattern_from regions' s
          | (digits, after') => Some (region, digits, server_suffix after')
          end
      | None => server_pattern_from regions' s
      end
  end.

Definition server_pattern : string → option (string * string * option string) :=
  server_pattern_from server_regions.

(** [re.search]: the leftmost position where the pattern matches. *)
Fixpoint server_search (s : string) : option (string * string * option string) :=
  match server_pattern s with
  | Some m => Some m
  | None =>
      match s with
      | EmptyString => None
      | String _ s' => server_search s'
      end
  end.

(** ['{}'.format(g)] for a group: a group that took no part is [None]. *)
Definition str_of_group (g : option string) : string := default "None" g.

(** [None.groups()] raises [AttributeError]. *)
Inductive lag_report : Type :=
  | LagReportUrl (url : string)
  | LagReportAttributeError.

Definition lag_report_base_url : string :=
  "https://psyonixhr.wufoo.com/forms/game-server-performance-report".

(** [server_name] is the replay's [server_name] column. The format has
    four fields: the fourth group is passed and not used. *)
Definition lag_report_url (server_name : option string) : lag_report :=
  if text_falsy server_name then LagReportUrl lag_report_base_url
  else
    match server_search (default "" server_name) with
    | None => LagReportAttributeError
    | Some (g1, g2, g3) =>
        LagReportUrl
          (lag_report_base_url +:+ "/def/field1=" +:+ g1 +:+ "&field2=" +:+ g2
             +:+ "&field13=" +:+ str_of_group g3)
    end.

(** ** [Replay.__str__] (models.py, lines 561-569)

    [title] is the replay's [title] column, and [description] the text
    that the third operand of the [or] chain would format. *)

(** [a or b] on strings: the first operand unless it is empty. *)
Definition str_or (a b : string) : string :=
  if bool_decide (a = "") then b else a.

Definition replay_str (title : option string) (description : string)
    (self : Replay.t) : string :=
  str_or (default "" title) (str_or (str_of_int (Replay.pk self)) description).

(** ** Further example data *)

(** An [int] for the examples: it reads the strings of decimal digits and
    raises [ValueError] on any other text. *)
Fixpoint digits_value (acc : Z) (s : string) : Z :=
  match s with
  | EmptyString => acc
  | String c s' => digits_value (10 * acc + Z.of_nat (nat_of_ascii c - 48)) s'
  end.

Definition int_of_digits (s : string) : result Z :=
  if negb (bool_decide (s = "")) && str_forall is_digit s
  then Ok (digits_value 0 s) else Raise ValueError.

(** A resolver for the examples: player profiles by platform and id. *)
Definition profile_reverse (name : string) (kwargs : gmap string (option pyval))
    : result string :=
  match kwargs !! "platform", kwargs !! "player_id" with
  | Some (Some (VStr platform)), Some (Some (VStr player_id)) =>
      Ok ("/players/" +:+ platform +:+ "/" +:+ player_id +:+ "/")
  | _, _ => Raise NoReverseMatch
  end.

Definition numbered_steam_player : Player.t :=
  {| Player.pk := 12; Player.replay := 1; Player.player_name := "Keeper";
     Player.team := 1; Player.platform := Some "1";
     Player.online_id := Some "76561198000000002"; Player.bot := false;
     Player.vehicle_loadout := LoadoutNone |}.

(** A table that holds a named body, and a player whose loadout names
    the same item. *)
Definition octane : Component.t :=
  {| Component.pk := 1; Component.type := "body"; Component.internal_id := 22;
     Component.name := "Octane" |}.

Definition stocked_world : world :=
  {| self := player_with_loadout (LoadoutDict named_loadout);
     component_rows := [octane];
     integer_max := 2147483647; enforces_max_length := true |}.

(** * Properties *)

(** ** Dict literals *)

Section dict_literal_facts.
Context {K V : Type} `{Countable K}.
Implicit Types (l : list (K * V)) (m : gmap K V).

Lemma foldl_insert_lookup_None l m k :
  (foldl (λ m kv, <[kv.1 := kv.2]> m) m l) !! k = None ↔ (k ∉ l.*1) ∧ m !! k = None.
Proof.
  revert m. induction l as [|[k' v'] l IH]; intros m; simpl.
  - split; [intros ?; split; [apply not_elem_of_nil | done] | by intros [_ ?]].
  - rewrite IH, not_elem_of_cons, lookup_insert_None. naive_solver.
Qed.

Lemma foldl_insert_lookup_Some l m k v :
  (foldl (λ m kv, <[kv.1 := kv.2]> m) m l) !! k = Some v → (k, v) ∈ l ∨ m !! k = Some v.
Proof.
  revert m. induction l as [|[k' v'] l IH]; intros m; simpl; [by right|].
  intros [Hin | Hm]%IH.
  - left. by right.
  - apply lookup_insert_Some in Hm as [[-> ->] | [_ Hm]]; [left; by left | by right].
Qed.

Lemma dict_literal_lookup_None l k : dict_literal l !! k = None ↔ k ∉ l.*1.
Proof.
  unfold dict_literal. rewrite foldl_insert_lookup_None, lookup_empty. naive_solver.
Qed.

Lemma dict_literal_lookup_Some l k v : dict_literal l !! k = Some v → (k, v) ∈ l.
Proof.
  unfold dict_literal. intros [?|Hm]%foldl_insert_lookup_Some; [done|].
  by rewrite lookup_empty in Hm.
Qed.

Lemma getitem_KeyError m k : getitem m k = Raise KeyError ↔ m !! k = None.
Proof. unfold getitem. by destruct (m !! k). Qed.

End dict_literal_facts.

(** ** The platform table *)

Lemma PLATFORMS_MAPPINGS_targets :
  Forall (λ kv, ∀ z, kv.2 = VInt z → z ∈ [0; 1; 2; 4; 6]) PLATFORMS_MAPPINGS_items.
Proof.
  unfold PLATFORMS_MAPPINGS_items.
  repeat (apply Forall_cons_2;
    [ simpl; intros z Hz; try discriminate Hz; injection Hz as <-;
      unfold PLATFORM_UNKNOWN, PLATFORM_STEAM, PLATFORM_PSN, PLATFORM_XBOX,
        PLATFORM_SWITCH; set_solver
    | ]).
  apply Forall_nil_2.
Qed.

(** C3. The canonical enumeration [PLATFORMS] assigns exactly Unknown=0,
    Steam=1, PlayStation=2, Xbox=4 and Switch=6, and every entry of
    [PLATFORMS_MAPPINGS] whose target is a number targets one of these
    five values. *)
Theorem platform_enumeration :
  (∀ name v, PLATFORMS !! name = Some v ↔
     (name, v) ∈ [("Unknown", 0); ("Steam", 1); ("PlayStation", 2);
                  ("Xbox", 4); ("Switch", 6)])
  ∧ (∀ k z, PLATFORMS_MAPPINGS !! k = Some (VInt z) →
       z ∈ [0; 1; 2; 4; 6] ∧ ∃ name, PLATFORMS !! name = Some z).
Proof.
  split.
  - intros name v. split.
    + intros Hl. by apply dict_literal_lookup_Some in Hl.
    + intros Hin. repeat (apply elem_of_cons in Hin as [[= -> ->] | Hin];
        [by vm_compute|]).
      by apply elem_of_nil in Hin.
  - intros k z Hl. apply dict_literal_lookup_Some in Hl.
    pose proof PLATFORMS_MAPPINGS_targets as Hall.
    rewrite Forall_forall in Hall. specialize (Hall _ Hl z eq_refl).
    split; [exact Hall|].
    repeat (apply elem_of_cons in Hall as [-> | Hall];
      [ first [ by exists "Unknown" | by exists "Steam" | by exists "PlayStation"
              | by exists "Xbox" | by exists "Switch" ] | ]).
    by apply elem_of_nil in Hall.
Qed.

Lemma platform_enumeration_witness :
  PLATFORMS_MAPPINGS !! KStr "OnlinePlatform_Dingo" = Some (VInt 4)
  ∧ 4 ∈ [0; 1; 2; 4; 6] ∧ ∃ name, PLATFORMS !! name = Some 4.
Proof.
  assert (Hl : PLATFORMS_MAPPINGS !! KStr "OnlinePlatform_Dingo" = Some (VInt 4))
    by (vm_compute; reflexivity).
  split; [exact Hl|].
  exact (proj2 platform_enumeration (KStr "OnlinePlatform_Dingo") 4 Hl).
Defined.

(** C2, as the code has it. The field string ["OnlinePlatform_Steam"] is
    mapped straight to the canonical Steam value 1. The numeric code 1,
    as a number or as the string ["1"], is mapped to the API name
    ["steam"], and it is that name which the table maps to the canonical
    Steam value: the code reaches it in two lookups. *)
Theorem steam_normalization :
  getitem PLATFORMS_MAPPINGS (KStr "OnlinePlatform_Steam") = Ok (VInt 1)
  ∧ PLATFORMS !! "Steam" = Some 1
  ∧ getitem PLATFORMS_MAPPINGS (KInt 1) = Ok (VStr "steam")
  ∧ getitem PLATFORMS_MAPPINGS (KStr "1") = Ok (VStr "steam")
  ∧ getitem PLATFORMS_MAPPINGS (KStr "steam") = Ok (VInt 1).
Proof. repeat split; vm_compute; reflexivity. Qed.

(** C2, as stated, fails: looked up in the table, the numeric code 1 does
    not yield what ["OnlinePlatform_Steam"] yields, the canonical value
    [PLATFORM_STEAM]. *)
Lemma steam_code_lookup_differs :
  getitem PLATFORMS_MAPPINGS (KStr "OnlinePlatform_Steam") = Ok (VInt PLATFORM_STEAM)
  ∧ getitem PLATFORMS_MAPPINGS (KInt 1) ≠ Ok (VInt PLATFORM_STEAM)
  ∧ getitem PLATFORMS_MAPPINGS (KStr "1") ≠ Ok (VInt PLATFORM_STEAM)
  ∧ getitem PLATFORMS_MAPPINGS (KInt 1)
      ≠ getitem PLATFORMS_MAPPINGS (KStr "OnlinePlatform_Steam").
Proof.
  assert (H1 : getitem PLATFORMS_MAPPINGS (KInt 1) = Ok (VStr "steam"))
    by (vm_compute; reflexivity).
  assert (H2 : getitem PLATFORMS_MAPPINGS (KStr "1") = Ok (VStr "steam"))
    by (vm_compute; reflexivity).
  assert (H3 : getitem PLATFORMS_MAPPINGS (KStr "OnlinePlatform_Steam")
               = Ok (VInt PLATFORM_STEAM)) by (vm_compute; reflexivity).
  rewrite H1, H2, H3. repeat split; discriminate.
Qed.

(** ** Unrecognised platform strings *)

Section unknown_platform.
Context (RANKED_PLAYLISTS : list Z).
Context (get_or_request :
  option string → option string → option Z → result (option LeagueRating)).
Context (static : string → string).
Context (tier_name_tag : Z → string).
Context (reverse : string → gmap string (option pyval) → result string).
Context (int : string → result Z).

(** [get_rating_data] makes the same lookup without a guard for
    [KeyError], unlike [get_absolute_url] below. *)
Lemma get_rating_data_KeyError self replay :
  playlist_not_ranked RANKED_PLAYLISTS (Replay.playlist replay) = false →
  PLATFORMS_MAPPINGS !! platform_key (Player.platform self) = None →
  get_rating_data RANKED_PLAYLISTS get_or_request static tier_name_tag self replay
    = Raise KeyError.
Proof.
  intros Hranked Hmiss. unfold get_rating_data. rewrite Hranked.
  apply getitem_KeyError in Hmiss. by rewrite Hmiss.
Qed.

Lemma get_absolute_url_never_raises self :
  ∃ url, get_absolute_url reverse int self = Ok url.
Proof.
  unfold get_absolute_url. destruct (_ || _); [by eexists|].
  unfold try_except. destruct (_ ≫= _); by eexists.
Qed.

Lemma get_absolute_url_KeyError self :
  PLATFORMS_MAPPINGS !! platform_key (Player.platform self) = None →
  get_absolute_url reverse int self
    = Ok (if Player.bot self || platform_falsy (Player.platform self)
          then "#1" else "#2").
Proof.
  intros Hmiss. unfold get_absolute_url.
  assert (Hne : Player.platform self ≠ Some "0").
  { intros Heq. rewrite Heq in Hmiss. by vm_compute in Hmiss. }
  rewrite (bool_decide_eq_false_2 _ Hne), orb_false_r.
  destruct (_ || _); [done|].
  apply getitem_KeyError in Hmiss. by rewrite Hmiss.
Qed.

End unknown_platform.

(** C1, as the code has it. For every platform string that is not a key
    of the table, the lookup [PLATFORMS_MAPPINGS[platform]] raises
    [KeyError]: nothing maps it to Unknown (0). [Player.get_absolute_url]
    handles the error and answers ['#2'] (['#1'] for a bot or an empty
    platform), so it never raises. *)
Theorem unrecognised_platform_lookup
    (reverse : string → gmap string (option pyval) → result string)
    (int : string → result Z)
    (platform : string) :
  KStr platform ∉ PLATFORMS_MAPPINGS_items.*1 →
  getitem PLATFORMS_MAPPINGS (KStr platform) = Raise KeyError
  ∧ (∀ self,
       Player.platform self = Some platform →
       get_absolute_url reverse int self
         = Ok (if Player.bot self || bool_decide (platform = "") then "#1" else "#2")).
Proof.
  intros Hmiss. apply dict_literal_lookup_None in Hmiss.
  fold PLATFORMS_MAPPINGS in Hmiss. split.
  - by apply getitem_KeyError.
  - intros self Hp.
    rewrite (get_absolute_url_KeyError reverse int self); rewrite Hp; done.
Qed.

Lemma Epic_not_a_key : KStr "Epic" ∉ PLATFORMS_MAPPINGS_items.*1.
Proof. apply dict_literal_lookup_None. vm_compute. reflexivity. Qed.

Lemma unrecognised_platform_lookup_witness :
  getitem PLATFORMS_MAPPINGS (KStr "Epic") = Raise KeyError
  ∧ get_absolute_url (λ _ _, Raise NoReverseMatch) (λ _, Raise ValueError) epic_player
      = Ok "#2".
Proof.
  destruct (unrecognised_platform_lookup (λ _ _, Raise NoReverseMatch)
              (λ _, Raise ValueError) "Epic" Epic_not_a_key) as (H1 & H2).
  split; [exact H1|]. exact (H2 epic_player eq_refl).
Defined.

(** C1, as stated, fails: ["Epic"] is not in the table, and its lookup
    does not give Unknown (0) but raises [KeyError]; the URL of a player
    on that platform is ['#2']. *)
Lemma unrecognised_platform_raises :
  PLATFORMS_MAPPINGS !! KStr "Epic" = None
  ∧ getitem PLATFORMS_MAPPINGS (KStr "Epic") = Raise KeyError
  ∧ getitem PLATFORMS_MAPPINGS (KStr "Epic") ≠ Ok (VInt PLATFORM_UNKNOWN)
  ∧ get_absolute_url (λ _ _, Raise NoReverseMatch) (λ _, Raise ValueError) epic_player
      = Ok "#2".
Proof.
  assert (H : PLATFORMS_MAPPINGS !! KStr "Epic" = None) by (vm_compute; reflexivity).
  split; [exact H|]. unfold getitem. rewrite H.
  split; [done|]. split; [discriminate|].
  rewrite get_absolute_url_KeyError by exact H. reflexivity.
Qed.

(** ** Strings and the replay id *)

Lemma str_app_cons c (a b : string) : String c a +:+ b = String c (a +:+ b).
Proof. reflexivity. Qed.

Lemma str_app_nil_l (b : string) : "" +:+ b = b.
Proof. reflexivity. Qed.

Lemma str_app_assoc (a b c : string) : (a +:+ b) +:+ c = a +:+ (b +:+ c).
Proof.
  induction a as [|x a IH]; [done|]. rewrite !str_app_cons. by f_equal.
Qed.

Lemma str_app_nil_r (a : string) : a +:+ "" = a.
Proof. induction a as [|x a IH]; [done|]. rewrite str_app_cons. by f_equal. Qed.

Lemma str_length_app (a b : string) :
  String.length (a +:+ b) = (String.length a + String.length b)%nat.
Proof.
  induction a as [|x a IH]; [done|]. rewrite str_app_cons. simpl. by f_equal.
Qed.

Lemma str_forall_app p (a b : string) :
  str_forall p (a +:+ b) = str_forall p a && str_forall p b.
Proof.
  induction a as [|x a IH]; [done|]. rewrite str_app_cons. simpl.
  by rewrite IH, andb_assoc.
Qed.

Lemma str_lower_app (a b : string) :
  str_lower (a +:+ b) = str_lower a +:+ str_lower b.
Proof.
  induction a as [|x a IH]; [done|]. rewrite str_app_cons. simpl.
  by rewrite IH, str_app_cons.
Qed.

Lemma match_class_app p n (g rest : string) :
  String.length g = n →
  str_forall p g = true →
  match_class p n (g +:+ rest) = Some (g, rest).
Proof.
  intros <-. induction g as [|c g IH]; [done|]. rewrite str_app_cons. simpl.
  intros [Hc Hg]%andb_true_iff. by rewrite Hc, IH.
Qed.

Lemma match_class_inv p n s g rest :
  match_class p n s = Some (g, rest) →
  s = g +:+ rest ∧ String.length g = n ∧ str_forall p g = true.
Proof.
  revert s g rest. induction n as [|n IH]; intros s g rest; simpl.
  - by intros [= <- <-].
  - destruct s as [|c s]; [done|]. destruct (p c) eqn:Hc; [|done].
    destruct (match_class p n s) as [[g' r']|] eqn:E; [|done].
    intros [= <- <-]. apply IH in E as (-> & <- & Hg). simpl.
    by rewrite Hc, Hg.
Qed.

Lemma re_sub_uuid_scan s :
  re_sub_uuid s =
    match s with
    | EmptyString => EmptyString
    | String c s' =>
        match uuid_pattern s with
        | Some m => uuid_template m +:+ re_sub_uuid (rest m)
        | None => String c (re_sub_uuid s')
        end
    end.
Proof.
  destruct s as [|c s']; simp re_sub_uuid; [done|].
  destruct (inspect (uuid_pattern (String c s'))) as [[m|] E];
    simp re_sub_uuid; by rewrite E.
Qed.

Lemma uuid_pattern_inv s m :
  uuid_pattern s = Some m →
  ∃ g1 g2 g3 g4 g5,
    groups m = [g1; g2; g3; g4; g5]
    ∧ s = g1 +:+ g2 +:+ g3 +:+ g4 +:+ g5 +:+ rest m
    ∧ String.length g1 = 8%nat ∧ String.length g2 = 4%nat
    ∧ String.length g3 = 4%nat ∧ String.length g4 = 4%nat
    ∧ String.length g5 = 12%nat
    ∧ str_forall is_upper_hex (g1 +:+ g2 +:+ g3 +:+ g4 +:+ g5) = true.
Proof.
  unfold uuid_pattern. intros E.
  apply bind_Some in E as ([g1 s1] & (-> & L1 & H1)%match_class_inv & E).
  apply bind_Some in E as ([g2 s2] & (-> & L2 & H2)%match_class_inv & E).
  apply bind_Some in E as ([g3 s3] & (-> & L3 & H3)%match_class_inv & E).
  apply bind_Some in E as ([g4 s4] & (-> & L4 & H4)%match_class_inv & E).
  apply bind_Some in E as ([g5 s5] & (-> & L5 & H5)%match_class_inv & E).
  injection E as <-. exists g1, g2, g3, g4, g5. simpl.
  rewrite !str_forall_app, H1, H2, H3, H4, H5. done.
Qed.

Lemma uuid_pattern_groups (g1 g2 g3 g4 g5 rest : string) :
  String.length g1 = 8%nat → String.length g2 = 4%nat →
  String.length g3 = 4%nat → String.length g4 = 4%nat →
  String.length g5 = 12%nat →
  str_forall is_upper_hex (g1 +:+ g2 +:+ g3 +:+ g4 +:+ g5) = true →
  uuid_pattern (g1 +:+ g2 +:+ g3 +:+ g4 +:+ g5 +:+ rest)
    = Some {| groups := [g1; g2; g3; g4; g5]; rest := rest |}.
Proof.
  intros L1 L2 L3 L4 L5. rewrite !str_forall_app, !andb_true_iff.
  intros (H1 & H2 & H3 & H4 & H5). unfold uuid_pattern.
  rewrite (match_class_app _ _ _ _ L1 H1). cbn -[match_class].
  rewrite (match_class_app _ _ _ _ L2 H2). cbn -[match_class].
  rewrite (match_class_app _ _ _ _ L3 H3). cbn -[match_class].
  rewrite (match_class_app _ _ _ _ L4 H4). cbn -[match_class].
  by rewrite (match_class_app _ _ _ _ L5 H5).
Qed.

Lemma has_hex_run_length s : has_hex_run s → (32 ≤ String.length s)%nat.
Proof.
  intros (pre & run & suf & -> & Hlen & _). rewrite !str_length_app. lia.
Qed.

Lemma uuid_pattern_has_hex_run s m : uuid_pattern s = Some m → has_hex_run s.
Proof.
  intros (g1 & g2 & g3 & g4 & g5 & _ & -> & L1 & L2 & L3 & L4 & L5 & Hhex)%uuid_pattern_inv.
  exists "", (g1 +:+ g2 +:+ g3 +:+ g4 +:+ g5), (rest m).
  rewrite str_app_nil_l, !str_app_assoc, !str_length_app. split; [done|].
  split; [lia | done].
Qed.

Lemma re_sub_uuid_groups (g1 g2 g3 g4 g5 : string) :
  String.length g1 = 8%nat → String.length g2 = 4%nat →
  String.length g3 = 4%nat → String.length g4 = 4%nat →
  String.length g5 = 12%nat →
  str_forall is_upper_hex (g1 +:+ g2 +:+ g3 +:+ g4 +:+ g5) = true →
  re_sub_uuid (g1 +:+ g2 +:+ g3 +:+ g4 +:+ g5)
    = g1 +:+ "-" +:+ g2 +:+ "-" +:+ g3 +:+ "-" +:+ g4 +:+ "-" +:+ g5.
Proof.
  intros L1 L2 L3 L4 L5 Hhex.
  pose proof (uuid_pattern_groups g1 g2 g3 g4 g5 "" L1 L2 L3 L4 L5 Hhex) as Hm.
  rewrite str_app_nil_r in Hm.
  rewrite re_sub_uuid_scan, Hm.
  destruct g1 as [|c g1]; [discriminate L1|]. rewrite str_app_cons.
  unfold uuid_template. simpl. rewrite re_sub_uuid_scan.
  by rewrite !str_app_assoc, str_app_nil_r.
Qed.

Lemma re_sub_uuid_no_run s : ¬ has_hex_run s → re_sub_uuid s = s.
Proof.
  induction s as [|c s IH]; intros Hno; rewrite re_sub_uuid_scan; [done|].
  destruct (uuid_pattern (String c s)) as [m|] eqn:E.
  - destruct Hno. by eapply uuid_pattern_has_hex_run.
  - f_equal. apply IH. intros (pre & run & suf & -> & Hlen & Hhex).
    apply Hno. by exists (String c pre), run, suf.
Qed.

Lemma split_8_4_4_4_12 s :
  String.length s = 32%nat →
  s = substring 0 8 s +:+ substring 8 4 s +:+ substring 12 4 s
        +:+ substring 16 4 s +:+ substring 20 12 s.
Proof.
  intros Hlen.
  do 32 (destruct s as [|? s]; [discriminate Hlen|]).
  destruct s; [reflexivity | discriminate Hlen].
Qed.

Lemma substring_length n m s :
  (n + m ≤ String.length s)%nat → String.length (substring n m s) = m.
Proof.
  revert n m. induction s as [|c s IH]; intros [|n] [|m]; simpl; try lia.
  - intros ?. f_equal. apply (IH 0%nat). simpl. lia.
  - intros ?. apply IH. lia.
  - intros ?. apply IH. lia.
Qed.

(** C10, as the code has it. A stored replay id of 32 characters, all of
    them uppercase hexadecimal, comes back in the dashed 8-4-4-4-12 form,
    lowercased. An id that contains no run of 32 consecutive uppercase
    hexadecimal characters comes back lowercased and otherwise unchanged.
    (The pattern is not anchored: in any other id each such run, leftmost
    first, is rewritten as well.) *)
Theorem uuid_spec (self : Replay.t) (id : string) :
  Replay.replay_id self = Some id →
  (String.length id = 32%nat → str_forall is_upper_hex id = true →
   uuid self
     = Ok (str_lower (substring 0 8 id +:+ "-" +:+ substring 8 4 id +:+ "-"
                        +:+ substring 12 4 id +:+ "-" +:+ substring 16 4 id
                        +:+ "-" +:+ substring 20 12 id)))
  ∧ (¬ has_hex_run id → uuid self = Ok (str_lower id)).
Proof.
  intros Hid. unfold uuid. rewrite Hid. split.
  - intros Hlen Hhex. do 2 f_equal.
    pose proof (split_8_4_4_4_12 id Hlen) as Hsplit.
    rewrite Hsplit at 1. rewrite Hsplit in Hhex.
    apply re_sub_uuid_groups; [by apply substring_length; lia..|done].
  - intros Hno. by rewrite re_sub_uuid_no_run.
Qed.

Lemma uuid_spec_witness :
  uuid (replay_with_id "0123456789ABCDEF0123456789ABCDEF")
    = Ok "01234567-89ab-cdef-0123-456789abcdef"
  ∧ uuid (replay_with_id "Not-A-Hex-Id") = Ok "not-a-hex-id".
Proof.
  split.
  - exact (proj1 (uuid_spec (replay_with_id "0123456789ABCDEF0123456789ABCDEF")
                    "0123456789ABCDEF0123456789ABCDEF" eq_refl)
             eq_refl eq_refl).
  - apply (proj2 (uuid_spec (replay_with_id "Not-A-Hex-Id") "Not-A-Hex-Id" eq_refl)).
    intros Hrun%has_hex_run_length. simpl in Hrun. lia.
Defined.

(** C10, as stated, fails on its second half: this id of 33 characters is
    not of the 32-character shape, yet its first 32 characters are
    rewritten into the dashed form. *)
Lemma uuid_rewrites_longer_id :
  String.length "0123456789ABCDEF0123456789ABCDEF0" ≠ 32%nat
  ∧ uuid (replay_with_id "0123456789ABCDEF0123456789ABCDEF0")
      = Ok "01234567-89ab-cdef-0123-456789abcdef0"
  ∧ uuid (replay_with_id "0123456789ABCDEF0123456789ABCDEF0")
      ≠ Ok (str_lower "0123456789ABCDEF0123456789ABCDEF0").
Proof.
  assert (H : uuid (replay_with_id "0123456789ABCDEF0123456789ABCDEF0")
              = Ok "01234567-89ab-cdef-0123-456789abcdef0")
    by (vm_compute; reflexivity).
  split; [simpl; lia|]. split; [exact H|].
  rewrite H. vm_compute. discriminate.
Qed.

(** ** Goals: ordering *)

#[global] Instance frame_le_total nf : Total (frame_le nf).
Proof. intros [x|] [y|]; destruct nf; simpl; try lia; auto. Qed.

#[global] Instance frame_le_trans nf : Transitive (frame_le nf).
Proof. intros [x|] [y|] [z|]; destruct nf; simpl; try lia; auto; congruence. Qed.

#[global] Instance goal_le_total nf : Total (goal_le nf).
Proof. intros g1 g2. apply (total (frame_le nf)). Qed.

#[global] Instance goal_le_trans nf : Transitive (goal_le nf).
Proof. intros g1 g2 g3. apply (transitivity (R := frame_le nf)). Qed.

Lemma goal_set_sorted nf goals replay :
  StronglySorted (goal_le nf) (goal_set nf goals replay).
Proof. unfold goal_set. apply StronglySorted_merge_sort; apply _. Qed.

Lemma goal_set_Permutation nf goals replay :
  goal_set nf goals replay ≡ₚ filter (λ g, Goal.replay g = Replay.pk replay) goals.
Proof. unfold goal_set. apply merge_sort_Permutation. Qed.

Lemma elem_of_goal_set nf goals replay g :
  g ∈ goal_set nf goals replay ↔ g ∈ goals ∧ Goal.replay g = Replay.pk replay.
Proof. rewrite goal_set_Permutation, list_elem_of_filter. tauto. Qed.

Lemma elem_of_store_goal_events replay events g :
  g ∈ store_goal_events replay events ↔
  ∃ i e, events !! i = Some e
         ∧ g = {| Goal.replay := Replay.pk replay;
                  Goal.number := Z.of_nat i + 1;
                  Goal.player := event_player e;
                  Goal.frame := Some (event_frame e) |}.
Proof.
  unfold store_goal_events. rewrite list_elem_of_lookup. split.
  - intros (i & Hi). rewrite list_lookup_imap in Hi.
    destruct (events !! i) as [e|] eqn:He; [|done].
    injection Hi as <-. by exists i, e.
  - intros (i & e & He & ->). exists i. by rewrite list_lookup_imap, He.
Qed.

Lemma filter_all {A} (P : A → Prop) `{∀ x, Decision (P x)} (l : list A) :
  Forall P l → filter P l = l.
Proof.
  induction 1 as [|x l Hx Hl IH]; [done|].
  rewrite filter_cons_True by done. by f_equal.
Qed.

Lemma filter_none {A} (P : A → Prop) `{∀ x, Decision (P x)} (l : list A) :
  Forall (λ x, ¬ P x) l → filter P l = [].
Proof.
  induction 1 as [|x l Hx Hl IH]; [done|].
  by rewrite filter_cons_False.
Qed.

Lemma StronglySorted_lookup_le {A} (R : relation A) `{!Reflexive R}
    (l : list A) (i j : nat) (x y : A) :
  StronglySorted R l → (i ≤ j)%nat → l !! i = Some x → l !! j = Some y → R x y.
Proof.
  intros Hsorted. revert i j. induction Hsorted as [|z l Hl IH Hz]; intros i j Hij Hi Hj.
  - done.
  - destruct i as [|i], j as [|j]; simpl in *; simplify_eq.
    + reflexivity.
    + rewrite Forall_forall in Hz. apply Hz. by eapply list_elem_of_lookup_2.
    + lia.
    + eapply IH; [|done..]. lia.
Qed.

#[global] Instance goal_le_refl nf : Reflexive (goal_le nf).
Proof. intros g. by destruct (total (goal_le nf) g g). Qed.

Lemma goal_set_ordered nf goals replay i j gi gj :
  (i ≤ j)%nat →
  goal_set nf goals replay !! i = Some gi →
  goal_set nf goals replay !! j = Some gj →
  frame_le nf (Goal.frame gi) (Goal.frame gj).
Proof.
  intros Hij Hi Hj.
  by apply (StronglySorted_lookup_le (goal_le nf) _ i j gi gj (goal_set_sorted nf goals replay)).
Qed.

(** C6. Every goal event handed to the persistence layer is stored once and
    carries its frame index and its scoring player, and the goals of a
    replay come back ordered by frame index. The ordering itself holds for
    any [Goal] table ([goal_set_ordered]); rows without a frame, which the
    model allows, sort first or last as the database decides. *)
Theorem goal_events_ordered (nulls_first : bool) (replay : Replay.t)
    (others : list Goal.t) (events : list GoalEvent) :
  Forall (λ g, Goal.replay g ≠ Replay.pk replay) others →
  let stored :=
    goal_set nulls_first (others ++ store_goal_events replay events)%list replay in
  stored ≡ₚ store_goal_events replay events
  ∧ (∀ g, g ∈ stored →
       ∃ e, e ∈ events
            ∧ Goal.frame g = Some (event_frame e)
            ∧ Goal.player g = event_player e)
  ∧ (∀ i j gi gj,
       (i ≤ j)%nat → stored !! i = Some gi → stored !! j = Some gj →
       ∃ fi fj, Goal.frame gi = Some fi ∧ Goal.frame gj = Some fj ∧ (fi ≤ fj)%Z).
Proof.
  intros Hothers stored.
  assert (Hperm : stored ≡ₚ store_goal_events replay events).
  { unfold stored. rewrite goal_set_Permutation, filter_app.
    rewrite filter_none by done. simpl. apply reflexive_eq, filter_all.
    apply Forall_forall. by intros g (i & e & _ & ->)%elem_of_store_goal_events. }
  assert (Hcarry : ∀ g, g ∈ stored →
            ∃ e, e ∈ events ∧ Goal.frame g = Some (event_frame e)
                 ∧ Goal.player g = event_player e).
  { intros g Hg. rewrite Hperm in Hg.
    apply elem_of_store_goal_events in Hg as (i & e & He & ->).
    exists e. split; [by eapply list_elem_of_lookup_2 | done]. }
  split; [exact Hperm|]. split; [exact Hcarry|].
  intros i j gi gj Hij Hi Hj.
  pose proof (goal_set_ordered _ _ _ _ _ _ _ Hij Hi Hj) as Hle.
  destruct (Hcarry gi) as (ei & _ & Hfi & _); [by eapply list_elem_of_lookup_2|].
  destruct (Hcarry gj) as (ej & _ & Hfj & _); [by eapply list_elem_of_lookup_2|].
  rewrite Hfi, Hfj in Hle. by exists (event_frame ei), (event_frame ej).
Qed.

Lemma goal_events_ordered_witness :
  let stored :=
    goal_set true
      ([other_replay_goal] ++ store_goal_events ranked_replay two_goal_events)%list
      ranked_replay in
  stored ≡ₚ store_goal_events ranked_replay two_goal_events
  ∧ (∀ g, g ∈ stored →
       ∃ e, e ∈ two_goal_events
            ∧ Goal.frame g = Some (event_frame e)
            ∧ Goal.player g = event_player e)
  ∧ (∀ i j gi gj,
       (i ≤ j)%nat → stored !! i = Some gi → stored !! j = Some gj →
       ∃ fi fj, Goal.frame gi = Some fi ∧ Goal.frame gj = Some fj ∧ (fi ≤ fj)%Z).
Proof.
  apply (goal_events_ordered true ranked_replay [other_replay_goal] two_goal_events).
  apply Forall_singleton. simpl. discriminate.
Defined.

(** ** Clock texts: [goal_time] *)

Lemma int_of_float_inject_Z z : int_of_float (inject_Z z) = z.
Proof.
  unfold int_of_float. destruct (Qle_bool 0 (inject_Z z)).
  - apply Qfloor_Z.
  - apply Qceiling_Z.
Qed.

Lemma Qfloor_div_60 (c : Q) : Qfloor (c / 60) = Qfloor c / 60.
Proof.
  destruct c as [a b]. unfold Qdiv, Qmult, Qinv, Qfloor. simpl.
  rewrite Z.mul_1_r, Pos2Z.inj_mul. symmetry. apply Z.div_div; lia.
Qed.

Lemma divmod_seconds (c : Q) :
  int_of_float (c - inject_Z (Qfloor (c / 60)) * 60) = Qfloor c mod 60.
Proof.
  rewrite Qfloor_div_60. destruct c as [a b].
  unfold int_of_float, Qminus, Qplus, Qopp, Qmult, inject_Z, Qle_bool, Qfloor.
  simpl. set (q := a / Z.pos b / 60).
  rewrite !Z.mul_1_r, Pos.mul_1_r.
  assert (Hnum : a + - (q * 60) * Z.pos b = a - 60 * q * Z.pos b) by lia.
  rewrite Hnum.
  assert (Hq : q = a / Z.pos b / 60) by done.
  pose proof (Z.div_mod a (Z.pos b) ltac:(lia)) as Ha.
  pose proof (Z.mod_pos_bound a (Z.pos b) ltac:(lia)) as Hb.
  pose proof (Z.div_mod (a / Z.pos b) 60 ltac:(lia)) as Hc.
  pose proof (Z.mod_pos_bound (a / Z.pos b) 60 ltac:(lia)) as Hd.
  rewrite <- Hq in Hc.
  assert (Hfl : (a - 60 * q * Z.pos b) / Z.pos b = (a / Z.pos b) mod 60).
  { replace (a - 60 * q * Z.pos b) with (a + (- (60 * q)) * Z.pos b) by lia.
    rewrite Z.div_add by lia. lia. }
  assert (Hnn : (0 ≤ a - 60 * q * Z.pos b)%Z) by nia.
  assert (Hleb : (0 * Z.pos b <=? a - 60 * q * Z.pos b)%Z = true)
    by (apply Z.leb_le; lia).
  by rewrite Hleb.
Qed.

Lemma clock_exact_from_spec count n k :
  clock_exact_from count n = true →
  (n ≤ k < n + Z.of_nat count)%Z →
  clock_parts k 30 = Ok (k / 30 / 60, (k / 30) mod 60)%Z.
Proof.
  revert n. induction count as [|count IH]; intros n Hcheck Hk; [lia|].
  cbn [clock_exact_from] in Hcheck.
  destruct (clock_parts n 30) as [[minutes seconds]|e] eqn:Hn; [|done].
  apply andb_true_iff in Hcheck as [Hhere Hrest].
  apply andb_true_iff in Hhere as [Hm Hs].
  apply Z.eqb_eq in Hm. apply Z.eqb_eq in Hs.
  destruct (decide (k = n)) as [->|Hne].
  - by rewrite Hn, Hm, Hs.
  - apply (IH (n + 1)%Z); [done|lia].
Qed.

(** At 30 frames per second the rounding of the quotient does not show
    in the first 18000 frames, ten minutes of play. *)
Lemma clock_parts_30 (n : Z) :
  (0 < n ≤ 18000)%Z →
  clock_parts n 30 = Ok (n / 30 / 60, (n / 30) mod 60)%Z.
Proof.
  intros Hn. apply (clock_exact_from_spec (Z.to_nat 18000) 1).
  - vm_compute. reflexivity.
  - rewrite Z2Nat.id by lia. lia.
Qed.

Lemma clock_parts_Ok (n : Z) (fps x minutes seconds : float) (m s : Z) :
  F64.of_int n = Ok x → F64.falsy fps = false →
  F64.divmod (x / fps) 60 = Ok (minutes, seconds) →
  F64.int minutes = Ok m → F64.int seconds = Ok s →
  clock_parts n fps = Ok (m, s).
Proof.
  intros Hx Hfps Hdivmod Hm Hs. unfold clock_parts, F64.truediv.
  unfold F64.falsy in Hfps. rewrite Hx. cbn [mbind result_bind].
  rewrite Hfps. cbn [mbind result_bind]. rewrite Hdivmod. cbn [mbind result_bind].
  rewrite Hm. cbn [mbind result_bind]. by rewrite Hs.
Qed.

Lemma goal_time_clock_parts (self : Goal.t) (replay : Replay.t) frame fps m s :
  Goal.frame self = Some frame → frame ≠ 0 →
  Replay.record_fps replay = Some fps → F64.falsy fps = false →
  clock_parts frame fps = Ok (m, s) →
  goal_time self replay = Ok (fmt_d m +:+ ":" +:+ fmt_02d s).
Proof.
  intros Hf Hnz Hr Hfps. unfold goal_time, clock_parts. rewrite Hf, Hr.
  unfold frame_falsy, fps_falsy. rewrite Hfps.
  rewrite bool_decide_eq_false_2 by done.
  cbn [orb default option_rect option_map from_option id].
  destruct (F64.of_int frame ≫= _) as [calculation|e]; cbn [mbind result_bind];
    [|done].
  destruct (F64.divmod calculation 60) as [[minutes seconds]|e];
    cbn [mbind result_bind]; [|done].
  destruct (F64.int minutes) as [m'|e]; cbn [mbind result_bind]; [|done].
  destruct (F64.int seconds) as [s'|e]; cbn [mbind result_bind]; [|done].
  by intros [= -> ->].
Qed.

(** C8, as the code has it. [goal_time] answers ['N/A'] whenever the
    goal's frame is missing or 0, or the replay's recording FPS is missing
    or 0 (a zero of either sign): a goal at frame 0 of a replay with a
    valid FPS therefore reads ['N/A'], not ['0:00']. Otherwise it divides
    the frame, converted to a float, by the FPS in binary64 arithmetic and
    splits the quotient by [divmod(..., 60)]; when both parts are finite it
    answers them, cut to integers, as minutes, a colon, and the seconds
    zero-padded to two digits. At 30 frames per second, for the frames 1
    to 18000, these are the whole seconds [frame / 30] exactly. *)
Theorem goal_time_spec (self : Goal.t) (replay : Replay.t) :
  (Goal.frame self = None ∨ Goal.frame self = Some 0
   ∨ Replay.record_fps replay = None
   ∨ (∃ fps, Replay.record_fps replay = Some fps ∧ (fps =? 0)%float = true) →
   goal_time self replay = Ok "N/A")
  ∧ (∀ frame fps x minutes seconds m s,
       Goal.frame self = Some frame → frame ≠ 0 →
       Replay.record_fps replay = Some fps → (fps =? 0)%float = false →
       F64.of_int frame = Ok x →
       F64.divmod (x / fps) 60 = Ok (minutes, seconds) →
       F64.int minutes = Ok m → F64.int seconds = Ok s →
       goal_time self replay = Ok (fmt_d m +:+ ":" +:+ fmt_02d s))
  ∧ (∀ frame,
       Goal.frame self = Some frame → (0 < frame ≤ 18000)%Z →
       Replay.record_fps replay = Some 30%float →
       goal_time self replay
         = Ok (fmt_d (frame / 30 / 60) +:+ ":" +:+ fmt_02d ((frame / 30) mod 60))).
Proof.
  split; [|split].
  - unfold goal_time. intros [Hf | [Hf | [Hr | (fps & Hr & Hz)]]].
    + by rewrite Hf.
    + by rewrite Hf.
    + rewrite Hr. simpl. by rewrite orb_true_r.
    + rewrite Hr. simpl. unfold F64.falsy. rewrite Hz. by rewrite orb_true_r.
  - intros frame fps x minutes seconds m s Hf Hnz Hr Hfps Hx Hdivmod Hm Hs.
    apply (goal_time_clock_parts self replay frame fps); [done..|].
    by apply (clock_parts_Ok frame fps x minutes seconds).
  - intros frame Hf Hrange Hr.
    apply (goal_time_clock_parts self replay frame 30%float); [done|lia|done|done|].
    by apply clock_parts_30.
Qed.

Lemma goal_time_spec_witness :
  goal_time (goal_at_frame 0) ranked_replay = Ok "N/A"
  ∧ goal_time (goal_at_frame 1800) ranked_replay = Ok "1:00"
  ∧ goal_time (goal_at_frame 1799) ranked_replay = Ok "0:59"
  ∧ goal_time (goal_at_frame 301) (replay_at_fps 0x1.e19999999999ap+4) = Ok "0:10".
Proof.
  split; [|split; [|split]].
  - apply (proj1 (goal_time_spec (goal_at_frame 0) ranked_replay)).
    right; left; reflexivity.
  - rewrite (proj2 (proj2 (goal_time_spec (goal_at_frame 1800) ranked_replay))
               1800 eq_refl ltac:(lia) eq_refl).
    reflexivity.
  - rewrite (proj2 (proj2 (goal_time_spec (goal_at_frame 1799) ranked_replay))
               1799 eq_refl ltac:(lia) eq_refl).
    reflexivity.
  - apply (proj1 (proj2 (goal_time_spec (goal_at_frame 301) _))
             301 0x1.e19999999999ap+4%float 301%float 0%float 10%float 0 10);
      try reflexivity.
    discriminate.
Defined.

(** C8, as stated, fails where the quotient is not finite: at frame 1 and
    the smallest positive FPS neither value is falsy, the quotient
    overflows to infinity, [divmod] answers two NaNs, and [int] raises
    instead of a text being returned. *)
Lemma goal_time_not_finite :
  frame_falsy (Goal.frame (goal_at_frame 1)) = false
  ∧ fps_falsy (Replay.record_fps (replay_at_fps 0x1p-1074)) = false
  ∧ goal_time (goal_at_frame 1) (replay_at_fps 0x1p-1074) = Raise ValueError.
Proof. repeat split. Qed.

(** ** The excitement factor *)

(** Where no swing value is negative the swing term vanishes, in both
    branches, and the factor is the capped goal count times 1.2. *)
Lemma excitement_factor_no_negative_swing
    nulls_first players goals self swing_values t0 t1 :
  swing_loop players (goal_set nulls_first goals self) 0 [] = Ok swing_values →
  Forall (λ x, 0 ≤ x)%Z swing_values →
  Replay.team_0_score self = Some t0 →
  Replay.team_1_score self = Some t1 →
  ∃ q, calculate_excitement_factor nulls_first players goals self = Ok q
       ∧ (q == inject_Z (Z.min (t0 + t1) 5) * (12 # 10))%Q.
Proof.
  intros Hloop Hnn H0 H1. unfold calculate_excitement_factor.
  rewrite Hloop, H0, H1. cbn [mbind result_bind score].
  assert (Hnone : filter (λ x, x < 0)%Z swing_values = []).
  { apply filter_none. eapply Forall_impl; [exact Hnn|]. simpl. lia. }
  rewrite Hnone.
  assert (Hcap : (if decide (t0 + t1 > 5)%Z then 5 else t0 + t1) = Z.min (t0 + t1) 5).
  { case_decide; lia. }
  assert (Hswing : ∀ d : Z,
            ((if decide (d ≠ 0%Z) then inject_Z 0 / inject_Z d * 8 else 0)
             + inject_Z (Z.min (t0 + t1) 5) * (12 # 10)
             == inject_Z (Z.min (t0 + t1) 5) * (12 # 10))%Q).
  { intros d. change (inject_Z 0) with 0%Q. destruct (decide (d ≠ 0)); unfold Qdiv; ring. }
  destruct (decide (t0 > t1)%Z); cbn [mbind result_bind];
    (destruct (decide (@nil Z ≠ [])); [done|]); cbn [mbind result_bind fmap result_fmap];
    rewrite Hcap, Z.sub_0_r; eexists; (split; [reflexivity|]); apply Hswing.
Qed.

(** C9 on the code. Team 0 wins 1-0 with the only goal of the match: it
    was never behind. The team-0 branch takes the negative swing values,
    the moments team 0 was ahead, for deficits, and [max(swing_values)],
    here -1, for the deficit: the swing term is -4 and the factor -2.8,
    where the capped goal count times 1.2 is 1.2. *)
Theorem excitement_factor_team_0_shutout (nulls_first : bool) :
  swing_loop {[ 10 := team_0_scorer ]}
    (goal_set nulls_first [shutout_goal] shutout_replay) 0 [] = Ok [-1]
  ∧ calculate_excitement_factor nulls_first {[ 10 := team_0_scorer ]}
      [shutout_goal] shutout_replay = Ok (-56 # 20)%Q
  ∧ ¬ (-56 # 20 == inject_Z (Z.min (1 + 0) 5) * (12 # 10))%Q.
Proof.
  split; [by destruct nulls_first; vm_compute|].
  split; [by destruct nulls_first; vm_compute|].
  intros H. vm_compute in H. discriminate H.
Qed.

(** ** The vehicle loadout *)

Ltac unfold_M :=
  cbv beta iota delta [mbind M_bind mret M_ret raise get_vehicle_loadout
    set_vehicle_loadout objects_filter objects_create component_maps_at] in *.

Lemma same_limits_refl w : same_limits w w.
Proof. done. Qed.

Lemma same_limits_trans w1 w2 w3 :
  same_limits w1 w2 → same_limits w2 w3 → same_limits w1 w3.
Proof. intros [H1 H2] [H3 H4]. split; congruence. Qed.

Lemma same_limits_storable w w' internal_id name :
  same_limits w w' → storable w' internal_id name = storable w internal_id name.
Proof. intros [H1 H2]. unfold storable. by rewrite H1, H2. Qed.

Lemma storable_Unknown w component :
  (0 < component ≤ integer_max w)%Z → storable w component "Unknown" = true.
Proof.
  intros Hc. unfold storable, PositiveIntegerField_ok, CharField_ok.
  apply andb_true_iff. split.
  - apply andb_true_iff. split; apply Z.leb_le; lia.
  - apply orb_true_iff. by right.
Qed.

Lemma storable_above w component name :
  (integer_max w < component)%Z → storable w component name = false.
Proof.
  intros Hc. unfold storable, PositiveIntegerField_ok.
  apply andb_false_iff. left. apply andb_false_iff. right. apply Z.leb_gt. lia.
Qed.

Lemma storable_negative w internal_id name :
  (internal_id < 0)%Z → storable w internal_id name = false.
Proof.
  intros Hc. unfold storable, PositiveIntegerField_ok.
  apply andb_false_iff. left. apply andb_false_iff. left. apply Z.leb_gt. lia.
Qed.

Lemma list_component_maps_NoDup : NoDup list_component_maps.
Proof. apply (bool_decide_unpack _). by vm_compute. Qed.

Lemma list_step_skip components index component w :
  (component ≤ 0)%Z → list_step components index component w = (Ok components, w).
Proof. intros Hle. unfold list_step. by rewrite decide_False by lia. Qed.

Lemma list_step_IndexError components index component w :
  (component > 0)%Z → list_component_maps !! index = None →
  list_step components index component w = (Raise IndexError, w).
Proof.
  intros Hpos Hnone. unfold list_step. rewrite decide_True by done.
  unfold_M. by rewrite Hnone.
Qed.

(** A positive item whose row is missing and which the column does not
    hold: the insert is refused. *)
Lemma list_step_refused components index component w type :
  (component > 0)%Z → list_component_maps !! index = Some type →
  matching type component (component_rows w) = [] →
  (integer_max w < component)%Z →
  list_step components index component w = (Raise DatabaseError, w).
Proof.
  intros Hpos Hty Hnone Habove. unfold list_step. rewrite decide_True by done.
  unfold_M. rewrite Hty. unfold matching in Hnone. rewrite Hnone.
  by rewrite storable_above.
Qed.

Lemma list_step_set components index component w type :
  (component > 0)%Z → list_component_maps !! index = Some type →
  (component ≤ integer_max w)%Z →
  ∃ c w',
    list_step components index component w = (Ok (<[type := c]> components), w')
    ∧ Component.type c = type
    ∧ Component.internal_id c = component
    ∧ c ∈ component_rows w'
    ∧ component_rows w ⊆ component_rows w'
    ∧ self w' = self w
    ∧ same_limits w w'.
Proof.
  intros Hpos Hty Hfits. unfold list_step. rewrite decide_True by done.
  unfold_M. rewrite Hty.
  destruct (filter (component_matches type component) (component_rows w))
    as [|c rows] eqn:Hfilter.
  - rewrite storable_Unknown by lia.
    eexists _, _. split; [reflexivity|]. simpl.
    split; [done|]. split; [done|]. split; [|split; [|done]].
    + apply elem_of_app. right. apply list_elem_of_here.
    + intros r Hr. apply elem_of_app. by left.
  - assert (Hc : c ∈ filter (component_matches type component) (component_rows w)).
    { rewrite Hfilter. apply list_elem_of_here. }
    apply list_elem_of_filter in Hc as [[Ht Hi] Hin].
    exists c, w. split; [reflexivity|]. done.
Qed.

Lemma list_loop_spec l index components w :
  (∀ j x, l !! j = Some x → (x > 0)%Z →
          is_Some (list_component_maps !! (index + j)%nat)) →
  (∀ x, x ∈ l → (x ≤ integer_max w)%Z) →
  ∃ components' w',
    list_loop components index l w = (Ok components', w')
    ∧ self w' = self w
    ∧ same_limits w w'
    ∧ component_rows w ⊆ component_rows w'
    ∧ (∀ type,
         (∀ j x, l !! j = Some x →
                 list_component_maps !! (index + j)%nat = Some type → (x ≤ 0)%Z) →
         components' !! type = components !! type)
    ∧ (∀ j x type,
         l !! j = Some x → (x > 0)%Z →
         list_component_maps !! (index + j)%nat = Some type →
         ∃ c, components' !! type = Some c
              ∧ Component.type c = type
              ∧ Component.internal_id c = x
              ∧ c ∈ component_rows w').
Proof.
  revert index components w.
  induction l as [|x l IH]; intros index components w Hsafe Hfits.
  - exists components, w. simpl. unfold_M. split; [done|]. split; [done|].
    split; [done|]. split; [done|]. split; [done|].
    intros j x type Hj. by rewrite lookup_nil in Hj.
  - simpl. unfold mbind, M_bind.
    destruct (decide (x > 0)%Z) as [Hpos|Hneg].
    + destruct (Hsafe 0%nat x eq_refl Hpos) as [type0 Hty0].
      rewrite Nat.add_0_r in Hty0.
      destruct (list_step_set components index x w type0 Hpos Hty0)
        as (c & w1 & Hstep & Hct & Hci & Hcin & Hsub1 & Hself1 & Hlim1).
      { apply Hfits. by left. }
      rewrite Hstep.
      destruct (IH (S index) (<[type0 := c]> components) w1)
        as (components' & w' & Hloop & Hself & Hlim & Hsub & Hkeep & Hset).
      { intros j y Hj Hy. rewrite Nat.add_succ_l, <- Nat.add_succ_r.
        by apply (Hsafe (S j) y). }
      { intros y Hy. destruct Hlim1 as [-> _]. apply Hfits. by right. }
      exists components', w'. split; [done|]. split; [congruence|].
      split; [by eapply same_limits_trans|].
      split; [set_solver|]. split.
      * intros type Hskip. rewrite Hkeep.
        -- apply lookup_insert_ne. intros ->.
           specialize (Hskip 0%nat x eq_refl). rewrite Nat.add_0_r in Hskip.
           specialize (Hskip Hty0). lia.
        -- intros j y Hj Hty. apply (Hskip (S j) y Hj).
           by rewrite Nat.add_succ_r, <- Nat.add_succ_l.
      * intros [|j] y type Hj Hy Hty.
        -- simpl in Hj. injection Hj as <-. rewrite Nat.add_0_r in Hty.
           assert (type = type0) as -> by congruence.
           exists c. split; [|split; [done|split; [done|set_solver]]].
           rewrite Hkeep; [apply lookup_insert_eq|].
           intros j y Hj Hty'. exfalso.
           pose proof (NoDup_lookup _ _ _ _ list_component_maps_NoDup Hty0 Hty').
           lia.
        -- apply (Hset j y type Hj Hy).
           by rewrite Nat.add_succ_l, <- Nat.add_succ_r.
    + rewrite list_step_skip by lia.
      destruct (IH (S index) components w)
        as (components' & w' & Hloop & Hself & Hlim & Hsub & Hkeep & Hset).
      { intros j y Hj Hy. rewrite Nat.add_succ_l, <- Nat.add_succ_r.
        by apply (Hsafe (S j) y). }
      { intros y Hy. apply Hfits. by right. }
      exists components', w'. split; [done|]. split; [done|]. split; [done|].
      split; [done|]. split.
      * intros type Hskip. apply Hkeep.
        intros j y Hj Hty. apply (Hskip (S j) y Hj).
        by rewrite Nat.add_succ_r, <- Nat.add_succ_l.
      * intros [|j] y type Hj Hy Hty.
        -- simpl in Hj. injection Hj as <-. lia.
        -- apply (Hset j y type Hj Hy).
           by rewrite Nat.add_succ_l, <- Nat.add_succ_r.
Qed.

Lemma list_loop_app l1 l2 index components w :
  list_loop components index (l1 ++ l2)%list w =
    match list_loop components index l1 w with
    | (Ok components1, w1) => list_loop components1 (index + length l1)%nat l2 w1
    | (Raise e, w1) => (Raise e, w1)
    end.
Proof.
  revert index components w. induction l1 as [|x l1 IH]; intros index components w.
  - simpl. unfold_M. by rewrite Nat.add_0_r.
  - simpl. unfold mbind, M_bind.
    destruct (list_step components index x w) as [[components1|e] w1]; [|done].
    rewrite IH. by rewrite Nat.add_succ_l, <- Nat.add_succ_r.
Qed.

Lemma slice_1_m1_9 {A} (l : list A) :
  length l = 9%nat → slice_1_m1 l = take 7 (drop 1 l) ∧ length (slice_1_m1 l) = 7%nat.
Proof.
  intros Hlen. unfold slice_1_m1. rewrite Hlen.
  do 9 (destruct l as [|? l]; [discriminate Hlen|]).
  destruct l; [done | discriminate Hlen].
Qed.

Lemma vehicle_data_falsy w :
  loadout_falsy (Player.vehicle_loadout (self w)) = true →
  vehicle_data w = (Ok ∅, w).
Proof. intros Hf. unfold vehicle_data. unfold_M. by rewrite Hf. Qed.

Lemma vehicle_data_other w :
  Player.vehicle_loadout (self w) = LoadoutOther true →
  vehicle_data w = (Ok ∅, w).
Proof. intros Hv. unfold vehicle_data. unfold_M. by rewrite Hv. Qed.

Lemma vehicle_data_list_7 w l :
  Player.vehicle_loadout (self w) = LoadoutList l →
  length l = 7%nat →
  vehicle_data w = list_loop ∅ 0 l w.
Proof.
  intros Hv Hlen. unfold vehicle_data. unfold_M. rewrite Hv. simpl.
  rewrite bool_decide_eq_false_2 by (intros ->; discriminate Hlen).
  rewrite decide_False by lia. by rewrite decide_True.
Qed.

Lemma vehicle_data_list_9 w l :
  Player.vehicle_loadout (self w) = LoadoutList l →
  length l = 9%nat →
  vehicle_data w
    = vehicle_data (with_vehicle_loadout w (LoadoutList (take 7 (drop 1 l)))).
Proof.
  intros Hv Hlen. destruct (slice_1_m1_9 l Hlen) as [Hslice Hlen7].
  rewrite <- Hslice.
  rewrite (vehicle_data_list_7 (with_vehicle_loadout w _) (slice_1_m1 l)); [|done..].
  unfold vehicle_data. unfold_M. rewrite Hv. simpl.
  rewrite bool_decide_eq_false_2 by (intros ->; discriminate Hlen).
  rewrite decide_True by done. by rewrite decide_True.
Qed.

Lemma vehicle_data_list_AssertionError w l :
  Player.vehicle_loadout (self w) = LoadoutList l →
  length l ≠ 0%nat → length l ≠ 7%nat → length l ≠ 9%nat →
  vehicle_data w = (Raise AssertionError, w).
Proof.
  intros Hv H0 H7 H9. unfold vehicle_data. unfold_M. rewrite Hv. simpl.
  rewrite bool_decide_eq_false_2 by (by intros ->).
  rewrite decide_False by done. by rewrite decide_False.
Qed.

Lemma vehicle_data_legacy w l :
  Player.vehicle_loadout (self w) = LoadoutList l →
  length l = 7%nat →
  (∀ x, x ∈ l → (x ≤ integer_max w)%Z) →
  (∀ x, l !! 6%nat = Some x → (x ≤ 0)%Z) →
  ∃ components w',
    vehicle_data w = (Ok components, w')
    ∧ self w' = self w
    ∧ (∀ type, is_Some (components !! type) → type ∈ list_component_maps)
    ∧ (∀ i type x,
         list_component_maps !! i = Some type → l !! i = Some x →
         if decide (x > 0)%Z
         then ∃ c, components !! type = Some c
                   ∧ Component.type c = type
                   ∧ Component.internal_id c = x
                   ∧ c ∈ component_rows w'
         else components !! type = None).
Proof.
  intros Hv Hlen Hfits Hlast. rewrite (vehicle_data_list_7 w l Hv Hlen).
  destruct (list_loop_spec l 0 ∅ w)
    as (components & w' & Hloop & Hself & _ & _ & Hkeep & Hset); [|done|].
  { intros j x Hj Hx. simpl. apply lookup_lt_is_Some.
    apply lookup_lt_Some in Hj as Hlt. rewrite Hlen in Hlt.
    destruct (decide (j = 6%nat)) as [->|]; [|simpl; lia].
    specialize (Hlast x Hj). lia. }
  exists components, w'. split; [done|]. split; [done|]. split.
  - intros type [c Hc]. destruct (decide (type ∈ list_component_maps)); [done|].
    rewrite Hkeep in Hc; [done|].
    intros j x _ Hty. exfalso. by eapply n, list_elem_of_lookup_2.
  - intros i type x Hty Hx. destruct (decide (x > 0)%Z) as [Hpos|Hneg].
    + by apply (Hset i x type).
    + rewrite Hkeep; [done|]. intros j y Hj Hty'. simpl in Hty'.
      pose proof (NoDup_lookup _ _ _ _ list_component_maps_NoDup Hty Hty') as ->.
      assert (y = x) by congruence. lia.
Qed.

Lemma vehicle_data_IndexError w l x :
  Player.vehicle_loadout (self w) = LoadoutList l →
  length l = 7%nat →
  (∀ x, x ∈ l → (x ≤ integer_max w)%Z) →
  l !! 6%nat = Some x → (x > 0)%Z →
  ∃ w', vehicle_data w = (Raise IndexError, w').
Proof.
  intros Hv Hlen Hfits Hx Hpos. rewrite (vehicle_data_list_7 w l Hv Hlen).
  assert (Hsplit : l = (take 6 l ++ [x])%list).
  { rewrite <- (take_drop 6 l) at 1. f_equal.
    do 7 (destruct l as [|? l]; [discriminate Hlen|]).
    destruct l; [|discriminate Hlen]. simpl in *. congruence. }
  rewrite Hsplit, list_loop_app.
  destruct (list_loop_spec (take 6 l) 0 ∅ w)
    as (components & w' & Hloop & _).
  { intros j y Hj _. simpl. apply lookup_lt_is_Some.
    apply lookup_lt_Some in Hj. rewrite length_take in Hj. simpl. lia. }
  { intros y Hy. apply Hfits. rewrite <- (take_drop 6 l). apply elem_of_app. by left. }
  rewrite Hloop. simpl. unfold mbind, M_bind.
  rewrite list_step_IndexError; [by eexists|done|].
  rewrite length_take, Hlen. reflexivity.
Qed.

(** A list of 7 with an item that the integer column does not hold and
    that has no row yet: the insert is refused and the call raises. *)
Lemma vehicle_data_refused w l i x type :
  Player.vehicle_loadout (self w) = LoadoutList l →
  length l = 7%nat →
  l !! i = Some x → list_component_maps !! i = Some type →
  (integer_max w < x)%Z → (0 < x)%Z →
  (∀ j y, l !! j = Some y → (j < i)%nat → (y ≤ 0)%Z) →
  matching type x (component_rows w) = [] →
  vehicle_data w = (Raise DatabaseError, w).
Proof.
  intros Hv Hlen Hx Hty Habove Hpos Hbefore Hnone.
  rewrite (vehicle_data_list_7 w l Hv Hlen).
  rewrite <- (take_drop_middle l i x Hx), list_loop_app.
  assert (Hskip : ∀ l' index components,
            (∀ y, y ∈ l' → (y ≤ 0)%Z) →
            list_loop components index l' w = (Ok components, w)).
  { induction l' as [|y l' IH]; intros index components Hle; [done|].
    simpl. unfold mbind, M_bind. rewrite list_step_skip by (apply Hle; by left).
    apply IH. intros z Hz. apply Hle. by right. }
  rewrite Hskip.
  - simpl. unfold mbind, M_bind.
    apply lookup_lt_Some in Hx as Hlt.
    rewrite length_take, Nat.min_l by lia.
    by rewrite (list_step_refused _ _ _ _ type) by (done || lia).
  - intros y Hy. apply list_elem_of_lookup in Hy as [j Hj].
    apply lookup_take_Some in Hj as [Hj Hlt]. by apply (Hbefore j).
Qed.

Lemma matching_create type' id' rows c :
  Component.type c ≠ type' →
  matching type' id' (rows ++ [c])%list = matching type' id' rows.
Proof.
  intros Hne. unfold matching. rewrite filter_app.
  rewrite (filter_cons_False _ c []); [by rewrite app_nil_r|].
  intros [Ht _]. done.
Qed.

Lemma matching_save type' id' rows (f : Component.t → Component.t) :
  (∀ r, f r = r ∨ Component.type (f r) ≠ type') →
  (length (matching type' id' (f <$> rows)) ≤ length (matching type' id' rows))%nat.
Proof.
  intros Hf. unfold matching. induction rows as [|r rows IH]; [done|].
  rewrite fmap_cons. destruct (Hf r) as [-> | Hne].
  - rewrite !filter_cons. case_decide; simpl; lia.
  - rewrite (filter_cons_False _ (f r)); [|by intros [Ht _]].
    rewrite filter_cons. case_decide; simpl; lia.
Qed.

(** [get_or_create] by the number of rows of the type and internal id. *)
Lemma objects_get_or_create_spec type Id name w :
  objects_get_or_create type Id name w =
    match matching type Id (component_rows w) with
    | [] =>
        let c := {| Component.pk := next_pk (component_rows w);
                    Component.type := type;
                    Component.internal_id := Id;
                    Component.name := name |} in
        if storable w Id name
        then (Ok (c, true), with_component_rows w (component_rows w ++ [c]))
        else (Raise DatabaseError, w)
    | [c] => (Ok (c, false), w)
    | _ => (Raise MultipleObjectsReturned, w)
    end.
Proof.
  unfold objects_get_or_create. unfold_M. fold (matching type Id (component_rows w)).
  destruct (matching type Id (component_rows w)) as [|c [|c2 rows]]; [|done..].
  simpl. by destruct (storable w Id name).
Qed.

(** One turn of the dict loop on a slot that names an item: the component
    is set unless several rows match or the row cannot be stored. *)
Lemma dict_step_item d components key type replace Name Id w :
  d !! key = Some (LItem (Some Name) Id) → Name ≠ "" →
  ∃ components' w',
    dict_step d components (key, (type, replace)) w = (Ok components', w')
    ∧ self w' = self w
    ∧ same_limits w w'
    ∧ (∀ type' id', type' ≠ type →
         (length (matching type' id' (component_rows w'))
          ≤ length (matching type' id' (component_rows w)))%nat)
    ∧ ((components' = components
        ∧ w' = w
        ∧ ((2 ≤ length (matching type Id (component_rows w)))%nat
           ∨ (matching type Id (component_rows w) = []
              ∧ storable w Id (display_name replace Name) = false)))
       ∨ (∃ c, components' = <[type := c]> components
               ∧ Component.type c = type
               ∧ Component.internal_id c = Id
               ∧ (length (matching type Id (component_rows w)) ≤ 1)%nat
               ∧ (matching type Id (component_rows w) = [] →
                  storable w Id (display_name replace Name) = true))).
Proof.
  intros Hkey Hname. unfold dict_step. rewrite Hkey. rewrite decide_False by done.
  unfold try_except_M at 1. unfold mbind at 1, M_bind at 1.
  rewrite objects_get_or_create_spec.
  destruct (matching type Id (component_rows w)) as [|c [|c2 rows]] eqn:Hm.
  - (* no row yet: one is created when the database takes it *)
    cbv zeta. destruct (storable w Id (display_name replace Name)) eqn:Hst.
    + cbn [Component.name Component.pk Component.type Component.internal_id].
      destruct (decide (display_name replace Name = "Unknown")) as [Hu|Hu].
      * unfold try_except_M, save. unfold_M.
        cbn [Component.name Component.pk Component.type Component.internal_id].
        rewrite (same_limits_storable w (with_component_rows w _)) by done.
        rewrite Hst.
        eexists _, _. split; [reflexivity|]. split; [reflexivity|]. split; [split; reflexivity|]. split.
        -- intros type' id' Hne. cbn [component_rows with_component_rows].
           etrans; [apply matching_save; intros r; case_decide; [by right | by left]|].
           by rewrite matching_create.
        -- right. eexists. split; [reflexivity|].
           split; [reflexivity|]. split; [reflexivity|]. split; [simpl; lia|done].
      * unfold_M.
        eexists _, _. split; [reflexivity|]. split; [reflexivity|]. split; [split; reflexivity|]. split.
        -- intros type' id' Hne. cbn [component_rows with_component_rows].
           by rewrite matching_create.
        -- right. eexists. split; [reflexivity|].
           split; [reflexivity|]. split; [reflexivity|]. split; [simpl; lia|done].
    + unfold_M. eexists _, _. split; [reflexivity|]. split; [reflexivity|]. split; [split; reflexivity|].
      split; [done|]. left. split; [done|]. split; [done|]. by right.
  - (* exactly one row *)
    assert (Hc : c ∈ matching type Id (component_rows w)).
    { rewrite Hm. apply list_elem_of_here. }
    apply list_elem_of_filter in Hc as [[Hct Hci] _].
    destruct (decide (Component.name c = "Unknown")).
    + unfold try_except_M, save. unfold_M.
      cbn [Component.name Component.pk Component.type Component.internal_id].
      destruct (storable w (Component.internal_id c) (display_name replace Name)).
      * eexists _, _. split; [reflexivity|]. split; [reflexivity|]. split; [split; reflexivity|]. split.
        -- intros type' id' Hne. cbn [component_rows with_component_rows].
           apply matching_save. intros r. case_decide; [right; simpl; congruence | by left].
        -- right. eexists. split; [reflexivity|]. simpl.
           split; [done|]. split; [done|]. split; [lia|done].
      * eexists _, _. split; [reflexivity|]. split; [reflexivity|]. split; [split; reflexivity|].
        split; [done|].
        right. eexists. split; [reflexivity|]. simpl.
        split; [done|]. split; [done|]. split; [lia|done].
    + unfold_M. eexists _, _. split; [reflexivity|]. split; [reflexivity|]. split; [split; reflexivity|].
      split; [done|].
      right. exists c. split; [reflexivity|]. split; [done|]. split; [done|].
      split; [simpl; lia|done].
  - (* several rows: the exception is swallowed *)
    unfold_M. eexists _, _. split; [reflexivity|]. split; [reflexivity|]. split; [split; reflexivity|].
    split; [done|]. left. split; [done|]. split; [done|]. left. simpl. lia.
Qed.

Lemma dict_step_spec d components key type replace w :
  match d !! key with
  | Some (LNumber _) =>
      dict_step d components (key, (type, replace)) w = (Raise TypeError, w)
  | Some (LItem (Some Name) Id) =>
      if decide (Name = "")
      then dict_step d components (key, (type, replace)) w = (Ok components, w)
      else
        ∃ components' w',
          dict_step d components (key, (type, replace)) w = (Ok components', w')
          ∧ self w' = self w
          ∧ same_limits w w'
          ∧ (∀ type' id', type' ≠ type →
               (length (matching type' id' (component_rows w'))
                ≤ length (matching type' id' (component_rows w)))%nat)
          ∧ ((components' = components
              ∧ w' = w
              ∧ ((2 ≤ length (matching type Id (component_rows w)))%nat
                 ∨ (matching type Id (component_rows w) = []
                    ∧ storable w Id (display_name replace Name) = false)))
             ∨ (∃ c, components' = <[type := c]> components
                     ∧ Component.type c = type
                     ∧ Component.internal_id c = Id
                     ∧ (length (matching type Id (component_rows w)) ≤ 1)%nat
                     ∧ (matching type Id (component_rows w) = [] →
                        storable w Id (display_name replace Name) = true)))
  | _ => dict_step d components (key, (type, replace)) w = (Ok components, w)
  end.
Proof.
  destruct (d !! key) as [[[Name|] Id|z]|] eqn:Hkey;
    try (unfold dict_step; by rewrite Hkey).
  destruct (decide (Name = "")) as [HN|HN].
  - unfold dict_step. rewrite Hkey. by rewrite decide_True.
  - by apply dict_step_item.
Qed.

Lemma dict_loop_cons d components mapping mappings w :
  dict_loop d components (mapping :: mappings) w =
    match dict_step d components mapping w with
    | (Ok components1, w1) => dict_loop d components1 mappings w1
    | (Raise e, w1) => (Raise e, w1)
    end.
Proof. reflexivity. Qed.

Lemma dict_loop_spec d w0 rows0 mappings components w :
  NoDup (mappings.*2.*1) →
  (∀ key type replace z,
     (key, (type, replace)) ∈ mappings → d !! key ≠ Some (LNumber z)) →
  same_limits w0 w →
  (∀ type id, type ∈ mappings.*2.*1 →
     (length (matching type id (component_rows w))
      ≤ length (matching type id rows0))%nat) →
  ∃ components' w',
    dict_loop d components mappings w = (Ok components', w')
    ∧ self w' = self w
    ∧ (∀ type, type ∉ mappings.*2.*1 → components' !! type = components !! type)
    ∧ (∀ key type replace c,
         (key, (type, replace)) ∈ mappings → components' !! type = Some c →
         components !! type = Some c
         ∨ (names_item d key (Component.internal_id c) ∧ Component.type c = type))
    ∧ (∀ key type replace Name Id,
         (key, (type, replace)) ∈ mappings →
         d !! key = Some (LItem (Some Name) Id) → Name ≠ "" →
         (length (matching type Id rows0) ≤ 1)%nat →
         storable w0 Id (display_name replace Name) = true →
         ∃ c, components' !! type = Some c
              ∧ Component.type c = type ∧ Component.internal_id c = Id)
    ∧ (∀ key type replace Name Id,
         (key, (type, replace)) ∈ mappings →
         d !! key = Some (LItem (Some Name) Id) → Name ≠ "" →
         matching type Id rows0 = [] →
         storable w0 Id (display_name replace Name) = false →
         components' !! type = components !! type).
Proof.
  revert components w.
  induction mappings as [|[key0 [type0 replace0]] mappings IH];
    intros components w Hnodup Hnum Hlim Hcount.
  - exists components, w. simpl. split; [done|]. split; [done|]. split; [done|].
    repeat split; intros; by match goal with H : _ ∈ [] |- _ => apply elem_of_nil in H end.
  - rewrite !fmap_cons in Hnodup. simpl in Hnodup.
    apply NoDup_cons in Hnodup as [Hfresh Hnodup].
    assert (Hstep : ∃ components1 w1,
              dict_step d components (key0, (type0, replace0)) w = (Ok components1, w1)
              ∧ self w1 = self w
              ∧ same_limits w w1
              ∧ (∀ type' id', type' ≠ type0 →
                   (length (matching type' id' (component_rows w1))
                    ≤ length (matching type' id' (component_rows w)))%nat)
              ∧ (components1 = components
                 ∨ ∃ c, components1 = <[type0 := c]> components
                        ∧ Component.type c = type0
                        ∧ names_item d key0 (Component.internal_id c))
              ∧ (∀ Name Id,
                   d !! key0 = Some (LItem (Some Name) Id) → Name ≠ "" →
                   (length (matching type0 Id (component_rows w)) ≤ 1)%nat →
                   storable w Id (display_name replace0 Name) = true →
                   ∃ c, components1 = <[type0 := c]> components
                        ∧ Component.type c = type0 ∧ Component.internal_id c = Id)
              ∧ (∀ Name Id,
                   d !! key0 = Some (LItem (Some Name) Id) → Name ≠ "" →
                   matching type0 Id (component_rows w) = [] →
                   storable w Id (display_name replace0 Name) = false →
                   components1 = components)).
    { pose proof (dict_step_spec d components key0 type0 replace0 w) as Hspec.
      destruct (d !! key0) as [[[Name|] Id|z]|] eqn:Hkey.
      - destruct (decide (Name = "")) as [->|Hname].
        + exists components, w. split; [done|]. split; [done|]. split; [done|].
          split; [done|]. split; [by left|]. split; intros Name' Id' [= <- <-]; done.
        + destruct Hspec as (components1 & w1 & Hrun & Hself & Hlim1 & Hcnt & Hres).
          exists components1, w1. split; [done|]. split; [done|]. split; [done|].
          split; [done|]. split; [|split].
          * destruct Hres as [[-> _] | (c & -> & Hct & Hci & _)]; [by left|].
            right. exists c. split; [done|]. split; [done|].
            exists Name. by rewrite Hci.
          * intros Name' Id' [= <- <-] _ Hle Hst.
            destruct Hres as [(_ & _ & [Hge | [_ Hno]]) | (c & -> & Hct & Hci & _)];
              [lia | congruence | by exists c].
          * intros Name' Id' [= <- <-] _ Hnone Hst.
            destruct Hres as [[-> _] | (c & _ & _ & _ & _ & Hyes)]; [done|].
            rewrite Hyes in Hst; done.
      - exists components, w. split; [done|]. split; [done|]. split; [done|].
        split; [done|]. split; [by left|]. split; intros Name' Id' [=].
      - destruct (Hnum key0 type0 replace0 z); [apply list_elem_of_here | done].
      - exists components, w. split; [done|]. split; [done|]. split; [done|].
        split; [done|]. split; [by left|]. split; intros Name' Id' [=]. }
    destruct Hstep
      as (components1 & w1 & Hrun & Hself1 & Hlim1 & Hcnt1 & Hres1 & Hset1 & Hnot1).
    destruct (IH components1 w1 Hnodup)
      as (components' & w' & Hloop & Hself & Hout & Hsound & Hcompl & Hneg).
    { intros key type replace z Hin. apply (Hnum key type replace z). by right. }
    { by eapply same_limits_trans. }
    { intros type id Hin. etrans; [apply Hcnt1|].
      - intros ->. done.
      - apply Hcount. rewrite !fmap_cons. by right. }
    assert (Hother : ∀ key type replace,
              (key, (type, replace)) ∈ mappings → type ≠ type0).
    { intros key type replace Hin ->. apply Hfresh.
      apply list_elem_of_fmap. exists (type0, replace).
      split; [done|]. apply list_elem_of_fmap. by exists (key, (type0, replace)). }
    exists components', w'. rewrite dict_loop_cons, Hrun.
    split; [done|]. split; [congruence|]. split; [|split; [|split]].
    + intros type Hnot. rewrite !fmap_cons in Hnot. simpl in Hnot.
      apply not_elem_of_cons in Hnot as [Hne Hnot]. rewrite Hout by done.
      destruct Hres1 as [-> | (c & -> & _)]; [done|]. by rewrite lookup_insert_ne.
    + intros key type replace c Hin Hc.
      apply elem_of_cons in Hin as [[= -> -> ->] | Hin].
      * rewrite Hout in Hc by done.
        destruct Hres1 as [-> | (c1 & -> & Hct & Hitem)]; [by left|].
        rewrite lookup_insert_eq in Hc. injection Hc as <-. by right.
      * destruct (Hsound key type replace c Hin Hc) as [Hc1 | Hright]; [|by right].
        left. destruct Hres1 as [-> | (c1 & -> & _)]; [done|].
        rewrite lookup_insert_ne in Hc1; [done|].
        intros <-. by eapply Hother.
    + intros key type replace Name Id Hin Hkey HN Hle Hst.
      apply elem_of_cons in Hin as [[= -> -> ->] | Hin].
      * destruct (Hset1 Name Id Hkey HN) as (c & -> & Hct & Hci).
        { etrans; [|exact Hle]. apply Hcount. rewrite !fmap_cons. apply list_elem_of_here. }
        { by rewrite (same_limits_storable w0 w). }
        exists c. rewrite Hout by done. by rewrite lookup_insert_eq.
      * by apply (Hcompl key type replace Name Id).
    + intros key type replace Name Id Hin Hkey HN Hnone Hst.
      apply elem_of_cons in Hin as [[= -> -> ->] | Hin].
      * rewrite Hout by done. rewrite (Hnot1 Name Id Hkey HN); [done| |].
        -- apply length_zero_iff_nil.
           assert (length (matching type0 Id (component_rows w))
                   ≤ length (matching type0 Id rows0))%nat as Hle.
           { apply Hcount. rewrite !fmap_cons. apply list_elem_of_here. }
           rewrite Hnone in Hle. simpl in Hle. lia.
        -- by rewrite (same_limits_storable w0 w).
      * rewrite (Hneg key type replace Name Id) by done.
        destruct Hres1 as [-> | (c1 & -> & _)]; [done|].
        rewrite lookup_insert_ne; [done|]. intros <-. by eapply Hother.
Qed.

Lemma dict_component_maps_NoDup : NoDup (dict_component_maps.*2.*1).
Proof. apply (bool_decide_unpack _). by vm_compute. Qed.

Lemma vehicle_data_dict_loop w d :
  Player.vehicle_loadout (self w) = LoadoutDict d → d ≠ ∅ →
  vehicle_data w = dict_loop d ∅ dict_component_maps w.
Proof.
  intros Hv Hne. unfold vehicle_data. unfold_M. rewrite Hv. simpl.
  by rewrite bool_decide_eq_false_2.
Qed.

Lemma vehicle_data_dict w d :
  Player.vehicle_loadout (self w) = LoadoutDict d → d ≠ ∅ →
  (∀ key type replace z,
     (key, (type, replace)) ∈ dict_component_maps → d !! key ≠ Some (LNumber z)) →
  ∃ components w',
    vehicle_data w = (Ok components, w')
    ∧ self w' = self w
    ∧ (∀ type c,
         components !! type = Some c →
         ∃ key replace,
           (key, (type, replace)) ∈ dict_component_maps
           ∧ names_item d key (Component.internal_id c)
           ∧ Component.type c = type)
    ∧ (∀ key type replace Name Id,
         (key, (type, replace)) ∈ dict_component_maps →
         d !! key = Some (LItem (Some Name) Id) → Name ≠ "" →
         (length (matching type Id (component_rows w)) ≤ 1)%nat →
         storable w Id (display_name replace Name) = true →
         ∃ c, components !! type = Some c
              ∧ Component.type c = type ∧ Component.internal_id c = Id)
    ∧ (∀ key type replace Name Id,
         (key, (type, replace)) ∈ dict_component_maps →
         d !! key = Some (LItem (Some Name) Id) → Name ≠ "" →
         matching type Id (component_rows w) = [] →
         storable w Id (display_name replace Name) = false →
         components !! type = None).
Proof.
  intros Hv Hne Hnum. rewrite (vehicle_data_dict_loop w d Hv Hne).
  destruct (dict_loop_spec d w (component_rows w) dict_component_maps ∅ w
              dict_component_maps_NoDup Hnum)
    as (components & w' & Hloop & Hself & Hout & Hsound & Hcompl & Hneg); [done..|].
  exists components, w'. split; [done|]. split; [done|]. split; [|split; [done|]].
  - intros type c Hc.
    destruct (decide (type ∈ dict_component_maps.*2.*1)) as [Hin|Hnot].
    + apply list_elem_of_fmap in Hin as ([type' replace] & -> & Hin).
      apply list_elem_of_fmap in Hin as ([key [type'' replace']] & [= <- <-] & Hin).
      simpl in *. exists key, replace. split; [done|].
      destruct (Hsound key type' replace c Hin Hc) as [Hempty | [Hitem Hct]]; [|done].
      by rewrite lookup_empty in Hempty.
    + rewrite Hout in Hc by done. by rewrite lookup_empty in Hc.
  - intros key type replace Name Id Hin Hkey HN Hnone Hst.
    by rewrite (Hneg key type replace Name Id).
Qed.

Lemma dict_loop_TypeError d mappings components w :
  (∃ key type replace z,
     (key, (type, replace)) ∈ mappings ∧ d !! key = Some (LNumber z)) →
  ∃ w', dict_loop d components mappings w = (Raise TypeError, w').
Proof.
  revert components w.
  induction mappings as [|[key0 [type0 replace0]] mappings IH];
    intros components w (key & type & replace & z & Hin & Hz).
  - by apply elem_of_nil in Hin.
  - rewrite dict_loop_cons.
    pose proof (dict_step_spec d components key0 type0 replace0 w) as Hspec.
    assert (Htail : (∃ z0, d !! key0 = Some (LNumber z0))
                    ∨ ∃ key type replace z,
                        (key, (type, replace)) ∈ mappings ∧ d !! key = Some (LNumber z)).
    { apply elem_of_cons in Hin as [[= -> -> ->] | Hin]; [left; by exists z|].
      right. by exists key, type, replace, z. }
    destruct (d !! key0) as [[[Name|] Id|z0]|] eqn:Hkey.
    + destruct Htail as [[z0 ?] | Htail]; [done|].
      destruct (decide (Name = "")).
      * rewrite Hspec. by apply IH.
      * destruct Hspec as (components1 & w1 & -> & _). by apply IH.
    + destruct Htail as [[z0 ?] | Htail]; [done|]. rewrite Hspec. by apply IH.
    + rewrite Hspec. by eexists.
    + destruct Htail as [[z0 ?] | Htail]; [done|]. rewrite Hspec. by apply IH.
Qed.

Lemma vehicle_data_TypeError w d :
  Player.vehicle_loadout (self w) = LoadoutDict d → d ≠ ∅ →
  (∃ key type replace z,
     (key, (type, replace)) ∈ dict_component_maps ∧ d !! key = Some (LNumber z)) →
  ∃ w', vehicle_data w = (Raise TypeError, w').
Proof.
  intros Hv Hne Hnum. rewrite (vehicle_data_dict_loop w d Hv Hne).
  by apply dict_loop_TypeError.
Qed.

(** C4. The projection tells two stored shapes apart when it runs. A
    legacy list of 9 items is first cut down to its middle 7
    ([self.vehicle_loadout[1:-1]]) and then treated as a list of 7; in a list
    of 7 whose numbers the integer column holds, the positions are read in
    the order body, decal, wheels, trail, antenna, topper, a positive item
    number giving a component of that type, and the seventh position has no
    name (a positive number there raises [IndexError]; a list of any other
    length fails the assertion). A newer dictionary is read by slot name: a
    slot that names an item gives a component of the slot's type when at
    most one row has that type and number and the database can store the
    row, and gives none when no row has them and the database refuses the
    row (the exception is swallowed); a slot holding a plain number raises
    [TypeError]. An empty or absent loadout, and any value of another shape,
    gives the empty component map. *)
Theorem vehicle_data_shapes (w : world) :
  (loadout_falsy (Player.vehicle_loadout (self w)) = true →
   vehicle_data w = (Ok ∅, w))
  ∧ (Player.vehicle_loadout (self w) = LoadoutOther true →
     vehicle_data w = (Ok ∅, w))
  ∧ (∀ l,
       Player.vehicle_loadout (self w) = LoadoutList l →
       (length l = 9%nat →
        vehicle_data w
          = vehicle_data (with_vehicle_loadout w (LoadoutList (take 7 (drop 1 l)))))
       ∧ (length l = 7%nat → (∀ x, x ∈ l → (x ≤ integer_max w)%Z) →
          (∀ x, l !! 6%nat = Some x → (x ≤ 0)%Z) →
          ∃ components w',
            vehicle_data w = (Ok components, w')
            ∧ self w' = self w
            ∧ (∀ type, is_Some (components !! type) → type ∈ list_component_maps)
            ∧ (∀ i type x,
                 ["body"; "decal"; "wheels"; "trail"; "antenna"; "topper"] !! i
                   = Some type →
                 l !! i = Some x →
                 if decide (x > 0)%Z
                 then ∃ c, components !! type = Some c
                           ∧ Component.type c = type
                           ∧ Component.internal_id c = x
                           ∧ c ∈ component_rows w'
                 else components !! type = None))
       ∧ (length l = 7%nat → (∀ x, x ∈ l → (x ≤ integer_max w)%Z) →
          (∀ x, l !! 6%nat = Some x → (x > 0)%Z) →
          ∃ w', vehicle_data w = (Raise IndexError, w'))
       ∧ (length l ≠ 0%nat → length l ≠ 7%nat → length l ≠ 9%nat →
          vehicle_data w = (Raise AssertionError, w)))
  ∧ (∀ d,
       Player.vehicle_loadout (self w) = LoadoutDict d → d ≠ ∅ →
       ((∀ key type replace z,
           (key, (type, replace)) ∈ dict_component_maps →
           d !! key ≠ Some (LNumber z)) →
        ∃ components w',
          vehicle_data w = (Ok components, w')
          ∧ self w' = self w
          ∧ (∀ type c,
               components !! type = Some c →
               ∃ key replace,
                 (key, (type, replace)) ∈ dict_component_maps
                 ∧ names_item d key (Component.internal_id c)
                 ∧ Component.type c = type)
          ∧ (∀ key type replace Name Id,
               (key, (type, replace)) ∈ dict_component_maps →
               d !! key = Some (LItem (Some Name) Id) → Name ≠ "" →
               (length (matching type Id (component_rows w)) ≤ 1)%nat →
               storable w Id (display_name replace Name) = true →
               ∃ c, components !! type = Some c
                    ∧ Component.type c = type ∧ Component.internal_id c = Id)
          ∧ (∀ key type replace Name Id,
               (key, (type, replace)) ∈ dict_component_maps →
               d !! key = Some (LItem (Some Name) Id) → Name ≠ "" →
               matching type Id (component_rows w) = [] →
               storable w Id (display_name replace Name) = false →
               components !! type = None))
       ∧ ((∃ key type replace z,
             (key, (type, replace)) ∈ dict_component_maps
             ∧ d !! key = Some (LNumber z)) →
          ∃ w', vehicle_data w = (Raise TypeError, w'))).
Proof.
  split; [apply vehicle_data_falsy|]. split; [apply vehicle_data_other|]. split.
  - intros l Hv. split; [by apply vehicle_data_list_9|].
    split; [by apply vehicle_data_legacy|]. split.
    + intros Hlen Hfits Hlast.
      destruct (l !! 6%nat) as [x|] eqn:Hx.
      * apply (vehicle_data_IndexError w l x); [done..|]. by apply Hlast.
      * apply lookup_ge_None in Hx. lia.
    + by apply vehicle_data_list_AssertionError.
  - intros d Hv Hne. split.
    + by apply vehicle_data_dict.
    + by apply vehicle_data_TypeError.
Qed.

Lemma vehicle_data_shapes_witness :
  (∃ components w',
     vehicle_data legacy_world = (Ok components, w')
     ∧ ∃ c, components !! "wheels" = Some c ∧ Component.internal_id c = 376)
  ∧ vehicle_data long_legacy_world
      = vehicle_data (with_vehicle_loadout long_legacy_world (LoadoutList legacy_loadout))
  ∧ (∃ components w',
       vehicle_data named_world = (Ok components, w')
       ∧ ∃ c, components !! "decal" = Some c ∧ Component.internal_id c = 1178)
  ∧ (∃ components w',
       vehicle_data unstorable_world = (Ok components, w')
       ∧ components !! "body" = None).
Proof.
  split; [|split; [|split]].
  - destruct (proj1 (proj2 (proj1 (proj2 (proj2 (vehicle_data_shapes legacy_world)))
                               legacy_loadout eq_refl)) eq_refl)
      as (components & w' & Hrun & _ & _ & Hpos).
    { intros x Hx. simpl.
      repeat (apply elem_of_cons in Hx as [-> | Hx]; [lia|]).
      by apply elem_of_nil in Hx. }
    { intros x Hx. injection Hx as <-. lia. }
    exists components, w'. split; [exact Hrun|].
    destruct (Hpos 2%nat "wheels" 376 eq_refl eq_refl) as (c & Hc & _ & Hid & _).
    exists c. by split.
  - exact (proj1 (proj1 (proj2 (proj2 (vehicle_data_shapes long_legacy_world)))
                    (9 :: legacy_loadout ++ [9])%list eq_refl) eq_refl).
  - assert (Hne : named_loadout ≠ ∅).
    { intros Heq. apply (f_equal (λ m, m !! "Body")) in Heq. vm_compute in Heq.
      discriminate Heq. }
    destruct (proj1 (proj2 (proj2 (proj2 (vehicle_data_shapes named_world)))
                       named_loadout eq_refl Hne))
      as (components & w' & Hrun & _ & _ & Hcompl & _).
    { intros key type replace z Hin.
      repeat (apply elem_of_cons in Hin as [[= -> -> ->] | Hin];
              [vm_compute; discriminate|]).
      by apply elem_of_nil in Hin. }
    exists components, w'. split; [exact Hrun|].
    destruct (Hcompl "Decal" "decal" "Skin_" "Skin_Force_Junk" 1178)
      as (c & Hc & _ & Hid).
    + apply list_elem_of_further, list_elem_of_here.
    + vm_compute. reflexivity.
    + discriminate.
    + simpl. lia.
    + vm_compute. reflexivity.
    + exists c. by split.
  - assert (Hne : unstorable_loadout ≠ ∅).
    { intros Heq. apply (f_equal (λ m, m !! "Body")) in Heq. vm_compute in Heq.
      discriminate Heq. }
    destruct (proj1 (proj2 (proj2 (proj2 (vehicle_data_shapes unstorable_world)))
                       unstorable_loadout eq_refl Hne))
      as (components & w' & Hrun & _ & _ & _ & Hneg).
    { intros key type replace z Hin.
      repeat (apply elem_of_cons in Hin as [[= -> -> ->] | Hin];
              [vm_compute; discriminate|]).
      by apply elem_of_nil in Hin. }
    exists components, w'. split; [exact Hrun|].
    apply (Hneg "Body" "body" "Body_" "Body_Force" (-1)).
    + apply list_elem_of_here.
    + vm_compute. reflexivity.
    + discriminate.
    + reflexivity.
    + vm_compute. reflexivity.
Defined.

(** ** Boost data *)

Lemma full_clean_is_byte row : full_clean row = Ok () ↔ is_byte (BoostData.value row).
Proof.
  unfold full_clean, run_validators, value_validators, is_byte.
  unfold MinValueValidator, MaxValueValidator. simpl.
  destruct (decide (BoostData.value row < 0)%Z),
           (decide (BoostData.value row > 255)%Z); simpl;
    (split; [intros H; try discriminate H; lia | intros H; try reflexivity; lia]).
Qed.

Lemma PositiveIntegerField_ok_spec integer_max value :
  PositiveIntegerField_ok integer_max value = true ↔ (0 ≤ value ≤ integer_max)%Z.
Proof.
  unfold PositiveIntegerField_ok. rewrite andb_true_iff, !Z.leb_le. done.
Qed.

Lemma boost_data_create_Ok integer_max table row table' :
  boost_data_create integer_max table row = Ok table' ↔
    table' = (table ++ [row])%list
    ∧ (0 ≤ BoostData.frame row ≤ integer_max)%Z
    ∧ (0 ≤ BoostData.value row ≤ integer_max)%Z.
Proof.
  unfold boost_data_create.
  rewrite <- !PositiveIntegerField_ok_spec.
  destruct (PositiveIntegerField_ok integer_max (BoostData.frame row)),
           (PositiveIntegerField_ok integer_max (BoostData.value row)); simpl;
    (split; [intros [= <-] | intros (-> & ? & ?)]; done).
Qed.

(** C5, as the code has it. The bound 0..255 on a boost value is what
    model validation checks: [full_clean] accepts a row exactly when its
    value lies in 0..255. Creating a row does not validate it: [create]
    stores the row exactly when its frame and its value are in the range
    of a positive integer column, and refuses it otherwise. So a table
    whose values are bytes keeps them bytes under the creation of a
    validated row. *)
Theorem boost_value_is_byte :
  (∀ row, full_clean row = Ok () ↔ (0 ≤ BoostData.value row ≤ 255)%Z)
  ∧ (∀ integer_max table row,
       ((0 ≤ BoostData.frame row ≤ integer_max)%Z →
        (0 ≤ BoostData.value row ≤ integer_max)%Z →
        boost_data_create integer_max table row = Ok (table ++ [row])%list)
       ∧ (¬ ((0 ≤ BoostData.frame row ≤ integer_max)%Z
             ∧ (0 ≤ BoostData.value row ≤ integer_max)%Z) →
          boost_data_create integer_max table row = Raise DatabaseError))
  ∧ (∀ integer_max table row table',
       Forall (λ row, 0 ≤ BoostData.value row ≤ 255)%Z table →
       full_clean row = Ok () →
       boost_data_create integer_max table row = Ok table' →
       Forall (λ row, 0 ≤ BoostData.value row ≤ 255)%Z table').
Proof.
  split; [exact full_clean_is_byte|]. split.
  - intros integer_max table row. split.
    + intros Hframe Hvalue. by apply boost_data_create_Ok.
    + intros Hnot.
      destruct (boost_data_create integer_max table row) as [table'|e] eqn:Hrun.
      * apply boost_data_create_Ok in Hrun as (_ & ? & ?). by destruct Hnot.
      * unfold boost_data_create in Hrun.
        destruct (_ && _); congruence.
  - intros integer_max table row table' Htable Hclean Hrun.
    apply boost_data_create_Ok in Hrun as (-> & _ & _).
    apply Forall_app. split; [done|].
    apply Forall_singleton. by apply full_clean_is_byte.
Qed.

Lemma boost_value_is_byte_witness :
  full_clean (boost_row 200) = Ok ()
  ∧ boost_data_create 2147483647 [boost_row 85] (boost_row 200)
      = Ok [boost_row 85; boost_row 200]
  ∧ boost_data_create 2147483647 [] (boost_row (-1)) = Raise DatabaseError
  ∧ Forall (λ row, 0 ≤ BoostData.value row ≤ 255)%Z [boost_row 85; boost_row 200].
Proof.
  assert (Hclean : full_clean (boost_row 200) = Ok ()).
  { apply (proj1 boost_value_is_byte). simpl. lia. }
  assert (Hrun : boost_data_create 2147483647 [boost_row 85] (boost_row 200)
                 = Ok [boost_row 85; boost_row 200]).
  { apply (proj1 (proj1 (proj2 boost_value_is_byte) 2147483647 [boost_row 85]
                    (boost_row 200))); simpl; lia. }
  split; [exact Hclean|]. split; [exact Hrun|]. split.
  - apply (proj2 (proj1 (proj2 boost_value_is_byte) 2147483647 [] (boost_row (-1)))).
    simpl. lia.
  - apply (proj2 (proj2 boost_value_is_byte) 2147483647 [boost_row 85] (boost_row 200)).
    + apply Forall_singleton. simpl. lia.
    + exact Hclean.
    + exact Hrun.
Defined.

(** Creation does not validate: a row with the value 300 is stored, and
    the table then holds a value that is no byte. *)
Lemma boost_create_unvalidated :
  Forall (λ row, 0 ≤ BoostData.value row ≤ 255)%Z []
  ∧ boost_data_create 2147483647 [] (boost_row 300) = Ok [boost_row 300]
  ∧ ¬ Forall (λ row, 0 ≤ BoostData.value row ≤ 255)%Z [boost_row 300]
  ∧ full_clean (boost_row 300) = Raise ValidationError.
Proof.
  split; [constructor|]. split; [reflexivity|]. split; [|reflexivity].
  intros Hall. apply (proj1 (Forall_singleton _ _)) in Hall. simpl in Hall. lia.
Qed.

(** * Further properties *)

(** ** Replacement in strings *)

Lemma str_replace_scan_step o old' new s :
  str_replace_scan o old' new s =
    match s with
    | EmptyString => EmptyString
    | String c s' =>
        match strip_prefix (String o old') s with
        | Some rest => new +:+ str_replace_scan o old' new rest
        | None => String c (str_replace_scan o old' new s')
        end
    end.
Proof.
  destruct s as [|c s']; simp str_replace_scan; [done|].
  destruct (inspect (strip_prefix (String o old') (String c s'))) as [[rest|] E];
    simp str_replace_scan; by rewrite E.
Qed.

Lemma strip_prefix_char o c s :
  strip_prefix (String o "") (String c s) = if decide (c = o) then Some s else None.
Proof.
  unfold strip_prefix. simpl.
  destruct (decide (c = o)) as [->|Hne].
  - by rewrite decide_True.
  - rewrite decide_False; [done|]. intros [= ?]. done.
Qed.

(** With a one-character [old], [replace] maps over the characters. *)
Lemma str_replace_char o new s :
  str_replace (String o "") new s =
    match s with
    | EmptyString => EmptyString
    | String c s' =>
        (if decide (c = o) then new else String c "")
          +:+ str_replace (String o "") new s'
    end.
Proof.
  unfold str_replace. rewrite str_replace_scan_step.
  destruct s as [|c s']; [done|]. rewrite strip_prefix_char.
  by destruct (decide (c = o)).
Qed.

Lemma str_replace_char_free o new s :
  str_forall (λ c, bool_decide (c ≠ o)) new = true →
  str_forall (λ c, bool_decide (c ≠ o)) (str_replace (String o "") new s) = true.
Proof.
  intros Hnew. induction s as [|c s IH]; rewrite str_replace_char; [done|].
  rewrite str_forall_app, IH, andb_true_r.
  destruct (decide (c = o)) as [->|Hne]; [done|].
  simpl. by rewrite bool_decide_eq_true_2.
Qed.

(** X1. The name given to a component read from a loadout dictionary never
    contains an underscore, whatever the item name and the prefix. *)
Theorem display_name_no_underscore (replace Name : string) :
  str_forall (λ c, bool_decide (c ≠ "_"%char)) (display_name replace Name) = true.
Proof. unfold display_name. by apply str_replace_char_free. Qed.

(** ** More on the replay id *)

Lemma ascii_lower_not_upper c : is_upper (ascii_lower c) = false.
Proof. destruct c as [[] [] [] [] [] [] [] []]; reflexivity. Qed.

Lemma str_lower_no_upper s : str_forall (λ c, negb (is_upper c)) (str_lower s) = true.
Proof.
  induction s as [|c s IH]; [done|]. simpl.
  by rewrite ascii_lower_not_upper, IH.
Qed.

(** X2. Whatever the stored id, the uuid holds no uppercase letter. *)
Theorem uuid_no_uppercase (self : Replay.t) (u : string) :
  uuid self = Ok u → str_forall (λ c, negb (is_upper c)) u = true.
Proof.
  unfold uuid. destruct (Replay.replay_id self) as [id|]; [|done].
  intros [= <-]. apply str_lower_no_upper.
Qed.

Lemma uuid_no_uppercase_witness :
  ∃ u, uuid (replay_with_id "0123456789ABCDEF0123456789ABCDEF0") = Ok u
       ∧ str_forall (λ c, negb (is_upper c)) u = true.
Proof.
  eexists. split; [vm_compute; reflexivity|].
  apply (uuid_no_uppercase (replay_with_id "0123456789ABCDEF0123456789ABCDEF0")).
  vm_compute. reflexivity.
Defined.

Lemma ascii_unlower_lower c : is_upper_hex c = true → ascii_unlower (ascii_lower c) = c.
Proof. destruct c as [[] [] [] [] [] [] [] []]; (reflexivity || discriminate). Qed.

Lemma str_unlower_lower s :
  str_forall is_upper_hex s = true → str_unlower (str_lower s) = s.
Proof.
  induction s as [|c s IH]; [done|]. simpl.
  intros [Hc Hs]%andb_true_iff. by rewrite ascii_unlower_lower, IH.
Qed.

Lemma str_app_inj_length (a a' b b' : string) :
  String.length a = String.length a' → a +:+ b = a' +:+ b' → a = a' ∧ b = b'.
Proof.
  revert a'. induction a as [|c a IH]; intros [|c' a'] Hlen; try discriminate Hlen.
  - by rewrite !str_app_nil_l.
  - rewrite !str_app_cons. intros [= -> Heq]. simpl in Hlen.
    destruct (IH a') as [-> ->]; [lia | done | done].
Qed.

Lemma str_lower_length s : String.length (str_lower s) = String.length s.
Proof. induction s as [|c s IH]; simpl; [done | by rewrite IH]. Qed.

Lemma uuid_dashed (self : Replay.t) (id : string) :
  Replay.replay_id self = Some id →
  String.length id = 32%nat → str_forall is_upper_hex id = true →
  uuid self
    = Ok (str_lower (substring 0 8 id +:+ "-" +:+ substring 8 4 id +:+ "-"
                       +:+ substring 12 4 id +:+ "-" +:+ substring 16 4 id
                       +:+ "-" +:+ substring 20 12 id)).
Proof.
  intros Hid Hlen Hhex. unfold uuid. rewrite Hid. do 2 f_equal.
  pose proof (split_8_4_4_4_12 id Hlen) as Hsplit.
  rewrite Hsplit at 1. rewrite Hsplit in Hhex.
  apply re_sub_uuid_groups; [by apply substring_length; lia..|done].
Qed.

(** X3. On stored ids of 32 uppercase hexadecimal characters the uuid is
    injective: two replays with the same uuid have the same replay id. *)
Theorem uuid_injective (r1 r2 : Replay.t) (id1 id2 : string) :
  Replay.replay_id r1 = Some id1 → Replay.replay_id r2 = Some id2 →
  String.length id1 = 32%nat → String.length id2 = 32%nat →
  str_forall is_upper_hex id1 = true → str_forall is_upper_hex id2 = true →
  uuid r1 = uuid r2 → id1 = id2.
Proof.
  intros Hr1 Hr2 Hl1 Hl2 Hh1 Hh2.
  rewrite (uuid_dashed r1 id1 Hr1 Hl1 Hh1).
  rewrite (uuid_dashed r2 id2 Hr2 Hl2 Hh2).
  intros [= Heq].
  pose proof (split_8_4_4_4_12 id1 Hl1) as Hs1.
  pose proof (split_8_4_4_4_12 id2 Hl2) as Hs2.
  rewrite Hs1 in Hh1. rewrite Hs2 in Hh2.
  rewrite !str_forall_app, !andb_true_iff in Hh1, Hh2.
  destruct Hh1 as (Ha1 & Hb1 & Hc1 & Hd1 & He1).
  destruct Hh2 as (Ha2 & Hb2 & Hc2 & Hd2 & He2).
  rewrite !str_lower_app in Heq.
  assert (Hlen : ∀ n m, (n + m ≤ 32)%nat →
            String.length (str_lower (substring n m id1))
            = String.length (str_lower (substring n m id2))).
  { intros n m Hnm. rewrite !str_lower_length, !substring_length; [done|lia..]. }
  apply str_app_inj_length in Heq as [Ea Heq]; [|by apply Hlen; lia].
  apply str_app_inj_length in Heq as [_ Heq]; [|done].
  apply str_app_inj_length in Heq as [Eb Heq]; [|by apply Hlen; lia].
  apply str_app_inj_length in Heq as [_ Heq]; [|done].
  apply str_app_inj_length in Heq as [Ec Heq]; [|by apply Hlen; lia].
  apply str_app_inj_length in Heq as [_ Heq]; [|done].
  apply str_app_inj_length in Heq as [Ed Heq]; [|by apply Hlen; lia].
  apply str_app_inj_length in Heq as [_ Ee]; [|done].
  rewrite Hs1, Hs2.
  rewrite <- (str_unlower_lower _ Ha1), <- (str_unlower_lower _ Hb1),
    <- (str_unlower_lower _ Hc1), <- (str_unlower_lower _ Hd1),
    <- (str_unlower_lower _ He1).
  rewrite Ea, Eb, Ec, Ed, Ee.
  by rewrite !str_unlower_lower.
Qed.

Lemma uuid_injective_witness :
  "0123456789ABCDEF0123456789ABCDEF" = "0123456789ABCDEF0123456789ABCDEF".
Proof.
  apply (uuid_injective
           (replay_with_id "0123456789ABCDEF0123456789ABCDEF")
           {| Replay.pk := 2;
              Replay.replay_id := Some "0123456789ABCDEF0123456789ABCDEF";
              Replay.playlist := Some 10;
              Replay.team_0_score := None; Replay.team_1_score := None;
              Replay.num_frames := None; Replay.record_fps := None |});
    vm_compute; reflexivity.
Defined.

(** ** More on the platform table *)

(** X4. The canonical values and the API names round-trip through the
    table: each value of [PLATFORMS], as a number or as its decimal string,
    is mapped to an API name, and that name is mapped back to the value.
    The display names of [PLATFORMS] are keys of the table with the same
    value, except ['Unknown'], which is not a key. *)
Theorem platform_api_round_trip (name : string) (v : Z) :
  PLATFORMS !! name = Some v →
  (∃ api,
     getitem PLATFORMS_MAPPINGS (KInt v) = Ok (VStr api)
     ∧ getitem PLATFORMS_MAPPINGS (KStr (str_of_int v)) = Ok (VStr api)
     ∧ getitem PLATFORMS_MAPPINGS (KStr api) = Ok (VInt v))
  ∧ getitem PLATFORMS_MAPPINGS (KStr name)
      = if decide (name = "Unknown") then Raise KeyError else Ok (VInt v).
Proof.
  intros Hname. apply dict_literal_lookup_Some in Hname.
  repeat (apply elem_of_cons in Hname as [[= -> ->] | Hname];
    [split; [eexists; repeat split; vm_compute; reflexivity | vm_compute; reflexivity]|]).
  by apply elem_of_nil in Hname.
Qed.

Lemma platform_api_round_trip_witness :
  (∃ api,
     getitem PLATFORMS_MAPPINGS (KInt 4) = Ok (VStr api)
     ∧ getitem PLATFORMS_MAPPINGS (KStr (str_of_int 4)) = Ok (VStr api)
     ∧ getitem PLATFORMS_MAPPINGS (KStr api) = Ok (VInt 4))
  ∧ getitem PLATFORMS_MAPPINGS (KStr "Xbox") = Ok (VInt 4).
Proof.
  apply (platform_api_round_trip "Xbox" 4). vm_compute. reflexivity.
Defined.

(** ** More on [get_rating_data] *)

(** X5. [get_rating_data] never raises [LeagueRating.DoesNotExist]: where
    the rating lookup raises it, the method answers the unranked data. What
    it can raise is [KeyError], for a platform that is not in the table, or
    whatever else the rating lookup raises. On a playlist that is not
    ranked it answers [None]. *)
Theorem get_rating_data_exceptions
    (RANKED_PLAYLISTS : list Z)
    (get_or_request :
       option string → option string → option Z → result (option LeagueRating))
    (static : string → string) (tier_name_tag : Z → string)
    (self : Player.t) (replay : Replay.t) :
  (playlist_not_ranked RANKED_PLAYLISTS (Replay.playlist replay) = true →
   get_rating_data RANKED_PLAYLISTS get_or_request static tier_name_tag self replay
     = Ok None)
  ∧ (∀ e,
       get_rating_data RANKED_PLAYLISTS get_or_request static tier_name_tag
         self replay = Raise e →
       e ≠ DoesNotExist
       ∧ ((e = KeyError
           ∧ PLATFORMS_MAPPINGS !! platform_key (Player.platform self) = None)
          ∨ ∃ online_id,
              get_or_request (Player.platform self) online_id (Replay.playlist replay)
                = Raise e))
  ∧ (∀ online_id mapped,
       playlist_not_ranked RANKED_PLAYLISTS (Replay.playlist replay) = false →
       PLATFORMS_MAPPINGS !! platform_key (Player.platform self) = Some mapped →
       online_id = (if decide (mapped = VInt PLATFORM_STEAM)
                    then Player.online_id self else Some (Player.player_name self)) →
       get_or_request (Player.platform self) online_id (Replay.playlist replay)
         = Raise DoesNotExist →
       get_rating_data RANKED_PLAYLISTS get_or_request static tier_name_tag
         self replay
         = Ok (Some {| image := static "img/tiers/icons/0.png";
                       tier_name := "Unranked" |})).
Proof.
  unfold get_rating_data. split; [by intros ->|]. split.
  - intros e. destruct (playlist_not_ranked _ _); [done|].
    unfold getitem.
    destruct (PLATFORMS_MAPPINGS !! platform_key (Player.platform self)) as [mapped|];
      cbn [mbind result_bind try_except_only].
    + destruct (get_or_request _ _ _) as [[rating|]|e'] eqn:Hreq;
        cbn [mbind result_bind try_except_only]; try done.
      destruct (decide (e' = DoesNotExist)) as [->|Hne]; [done|].
      intros [= <-]. split; [done|]. right. by eexists.
    + rewrite decide_False by done. intros [= <-]. split; [done|]. by left.
  - intros online_id mapped -> Hmapped -> Hreq. unfold getitem. rewrite Hmapped.
    cbn [mbind result_bind]. rewrite Hreq. cbn [mbind result_bind try_except_only].
    by rewrite decide_True.
Qed.

Lemma get_rating_data_exceptions_witness :
  get_rating_data [10; 11; 12; 13] (λ _ _ _, Raise DoesNotExist)
      (λ path, "/static/" +:+ path) (λ _, "") team_0_scorer
      {| Replay.pk := 1; Replay.replay_id := None; Replay.playlist := Some 3;
         Replay.team_0_score := None; Replay.team_1_score := None;
         Replay.num_frames := None; Replay.record_fps := None |}
    = Ok None
  ∧ get_rating_data [10; 11; 12; 13] (λ _ _ _, Raise DoesNotExist)
      (λ path, "/static/" +:+ path) (λ _, "") team_0_scorer ranked_replay
    = Ok (Some {| image := "/static/" +:+ "img/tiers/icons/0.png";
                  tier_name := "Unranked" |})
  ∧ TypeError ≠ DoesNotExist.
Proof.
  split; [|split].
  - apply (get_rating_data_exceptions [10; 11; 12; 13] (λ _ _ _, Raise DoesNotExist)
             (λ path, "/static/" +:+ path) (λ _, "") team_0_scorer).
    vm_compute. reflexivity.
  - apply (proj2 (proj2 (get_rating_data_exceptions [10; 11; 12; 13]
                           (λ _ _ _, Raise DoesNotExist)
                           (λ path, "/static/" +:+ path) (λ _, "")
                           team_0_scorer ranked_replay))
             (Some "76561198000000001") (VInt 1));
      vm_compute; reflexivity.
  - apply (proj1 (proj2 (get_rating_data_exceptions [10; 11; 12; 13]
                           (λ _ _ _, Raise TypeError)
                           (λ path, "/static/" +:+ path) (λ _, "")
                           team_0_scorer ranked_replay))
             TypeError).
    vm_compute. reflexivity.
Defined.

(** ** More on the excitement factor *)

Lemma swing_loop_defined players goals swing swing_values :
  Forall (λ g, is_Some (players !! Goal.player g)) goals →
  ∃ swing_values',
    swing_loop players goals swing swing_values = Ok (swing_values ++ swing_values')%list
    ∧ length swing_values' = length goals.
Proof.
  intros Hall. revert swing swing_values.
  induction Hall as [|g goals [p Hp] _ IH]; intros swing swing_values.
  - exists []. by rewrite app_nil_r.
  - simpl. unfold goal_player. rewrite Hp. cbn [mbind result_bind].
    destruct (IH (if decide (Player.team p = 0) then swing - 1 else swing + 1)
                 (swing_values ++ [if decide (Player.team p = 0)
                                   then swing - 1 else swing + 1])%list)
      as (rest & -> & Hlen).
    eexists (_ :: rest). rewrite <- app_assoc. split; [done|]. simpl. by rewrite Hlen.
Qed.

Lemma swing_loop_DoesNotExist players goals swing swing_values :
  Exists (λ g, players !! Goal.player g = None) goals →
  swing_loop players goals swing swing_values = Raise DoesNotExist.
Proof.
  intros Hex. revert swing swing_values.
  induction goals as [|g goals IH]; intros swing swing_values.
  - by apply Exists_nil in Hex.
  - simpl. unfold goal_player.
    destruct (players !! Goal.player g) as [p|] eqn:Hp; [|done].
    cbn [mbind result_bind]. apply IH.
    apply Exists_cons in Hex as [Hg|Hex]; [congruence | done].
Qed.

(** X6. With both scores set and the player of each of its goals present,
    [calculate_excitement_factor] returns a number: [max] and [min] are
    never taken of an empty list. A goal whose player is missing makes it
    raise [Player.DoesNotExist]; otherwise a missing score makes it raise
    [TypeError]. *)
Theorem excitement_factor_defined
    (nulls_first : bool) (players : gmap Z Player.t) (goals : list Goal.t)
    (self : Replay.t) :
  let own := filter (λ g, Goal.replay g = Replay.pk self) goals in
  (Forall (λ g, is_Some (players !! Goal.player g)) own →
   is_Some (Replay.team_0_score self) → is_Some (Replay.team_1_score self) →
   ∃ q, calculate_excitement_factor nulls_first players goals self = Ok q)
  ∧ (Exists (λ g, players !! Goal.player g = None) own →
     calculate_excitement_factor nulls_first players goals self = Raise DoesNotExist)
  ∧ (Forall (λ g, is_Some (players !! Goal.player g)) own →
     Replay.team_0_score self = None ∨ Replay.team_1_score self = None →
     calculate_excitement_factor nulls_first players goals self = Raise TypeError).
Proof.
  intros own.
  assert (Hperm : goal_set nulls_first goals self ≡ₚ own)
    by apply goal_set_Permutation.
  split; [|split].
  - intros Hall [t0 H0] [t1 H1].
    rewrite <- Hperm in Hall.
    destruct (swing_loop_defined players _ 0 [] Hall) as (svs & Hloop & Hlen).
    unfold calculate_excitement_factor.
    rewrite Hloop, H0, H1. cbn [mbind result_bind score app].
    set (deficit_values := filter (λ x, x < 0)%Z svs).
    assert (Hmax : deficit_values ≠ [] → ∃ m, py_max svs = Ok m).
    { intros Hne. destruct svs as [|x svs]; [done|]. by eexists. }
    assert (Hmin : deficit_values ≠ [] → ∃ m, py_min deficit_values = Ok m).
    { intros Hne. destruct deficit_values as [|x dvs]; [done|]. by eexists. }
    destruct (decide (t0 > t1)%Z); destruct (decide (deficit_values ≠ [])) as [Hne|Heq].
    + destruct (Hmax Hne) as [m ->]. cbn [mbind result_bind]. by eexists.
    + cbn [mbind result_bind]. by eexists.
    + destruct (Hmin Hne) as [m ->]. cbn [mbind result_bind fmap result_fmap]. by eexists.
    + cbn [mbind result_bind]. by eexists.
  - intros Hex. rewrite <- Hperm in Hex.
    unfold calculate_excitement_factor.
    by rewrite (swing_loop_DoesNotExist players _ 0 [] Hex).
  - intros Hall Hnone. rewrite <- Hperm in Hall.
    destruct (swing_loop_defined players _ 0 [] Hall) as (svs & Hloop & Hlen).
    unfold calculate_excitement_factor. rewrite Hloop. cbn [mbind result_bind app].
    destruct (Replay.team_0_score self) as [t0|]; [|done].
    destruct (Replay.team_1_score self) as [t1|]; [|done].
    by destruct Hnone.
Qed.

Lemma excitement_factor_defined_witness :
  (∃ q, calculate_excitement_factor true {[ 10 := team_0_scorer ]}
          [shutout_goal; other_replay_goal] shutout_replay = Ok q)
  ∧ calculate_excitement_factor true ∅ [shutout_goal; other_replay_goal]
      shutout_replay = Raise DoesNotExist
  ∧ calculate_excitement_factor true {[ 10 := team_0_scorer ]}
      [shutout_goal; other_replay_goal]
      {| Replay.pk := 1; Replay.replay_id := None; Replay.playlist := None;
         Replay.team_0_score := Some 1; Replay.team_1_score := None;
         Replay.num_frames := None; Replay.record_fps := None |}
      = Raise TypeError.
Proof.
  split; [|split].
  - apply (proj1 (excitement_factor_defined true {[ 10 := team_0_scorer ]}
                    [shutout_goal; other_replay_goal] shutout_replay)).
    + apply Forall_cons_2; [by eexists | apply Forall_nil_2].
    + by eexists.
    + by eexists.
  - apply (proj1 (proj2 (excitement_factor_defined true ∅
                           [shutout_goal; other_replay_goal] shutout_replay))).
    apply Exists_cons_hd. reflexivity.
  - apply (proj2 (proj2 (excitement_factor_defined true {[ 10 := team_0_scorer ]}
                           [shutout_goal; other_replay_goal]
                           {| Replay.pk := 1; Replay.replay_id := None;
                              Replay.playlist := None;
                              Replay.team_0_score := Some 1;
                              Replay.team_1_score := None;
                              Replay.num_frames := None;
                              Replay.record_fps := None |}))).
    + apply Forall_cons_2; [by eexists | apply Forall_nil_2].
    + by right.
Defined.

(** ** The component table under [vehicle_data] *)

Lemma keeps_table_ok_ret {A} (a : A) : keeps_table_ok (mret a).
Proof. intros w r w' [= <- <-]. done. Qed.

Lemma keeps_table_ok_raise {A} e : keeps_table_ok (raise (A := A) e).
Proof. intros w r w' [= <- <-]. done. Qed.

Lemma keeps_table_ok_bind {A B} (m : M A) (k : A → M B) :
  keeps_table_ok m → (∀ a, keeps_table_ok (k a)) → keeps_table_ok (m ≫= k).
Proof.
  intros Hm Hk w r w'. unfold mbind, M_bind.
  destruct (m w) as [[a|e] w1] eqn:Hrun.
  - intros Hrun' Hok. eapply Hk; [done|]. by eapply Hm.
  - intros [= <- <-]. by eapply Hm.
Qed.

Lemma keeps_table_ok_try {A} (m h : M A) :
  keeps_table_ok m → keeps_table_ok h → keeps_table_ok (try_except_M m h).
Proof.
  intros Hm Hh w r w'. unfold try_except_M.
  destruct (m w) as [[a|e] w1] eqn:Hrun.
  - intros [= <- <-]. by eapply Hm.
  - intros Hrun' Hok. eapply Hh; [done|]. by eapply Hm.
Qed.

Lemma next_pk_fresh rows r : r ∈ rows → (Component.pk r < next_pk rows)%Z.
Proof.
  unfold next_pk. induction rows as [|x rows IH]; intros Hin.
  - by apply elem_of_nil in Hin.
  - rewrite fmap_cons. simpl. apply elem_of_cons in Hin as [->|Hin]; [lia|].
    specialize (IH Hin). lia.
Qed.

Lemma table_ok_create rows type id name :
  table_ok rows → matching type id rows = [] →
  table_ok (rows ++ [{| Component.pk := next_pk rows; Component.type := type;
                        Component.internal_id := id; Component.name := name |}])%list.
Proof.
  intros [Hpk Hcount] Hnone. split.
  - rewrite fmap_app. simpl. apply NoDup_app. split; [done|]. split.
    + intros pk Hin Hnew. apply list_elem_of_singleton in Hnew as ->.
      apply list_elem_of_fmap in Hin as (r & Heq & Hr).
      apply next_pk_fresh in Hr. lia.
    + apply NoDup_singleton.
  - intros type' id'. unfold matching. rewrite filter_app, length_app.
    destruct (decide (type' = type ∧ id' = id)) as [[-> ->]|Hne].
    + fold (matching type id rows). rewrite Hnone. simpl.
      rewrite filter_cons. case_decide; simpl; lia.
    + rewrite (filter_cons_False _ _ []).
      * simpl. rewrite Nat.add_0_r. apply Hcount.
      * intros [Ht Hi]. simpl in *. by destruct Hne.
Qed.

Lemma table_ok_save rows c c' pk :
  table_ok rows → c ∈ rows →
  Component.pk c = pk → Component.pk c' = pk →
  Component.type c' = Component.type c →
  Component.internal_id c' = Component.internal_id c →
  table_ok ((λ r, if decide (Component.pk r = pk) then c' else r) <$> rows).
Proof.
  intros [Hpk Hcount] Hin Hpc Hp Ht Hi.
  set (f := λ r, if decide (Component.pk r = pk) then c' else r).
  assert (Hfpk : ∀ r, Component.pk (f r) = Component.pk r).
  { intros r. unfold f. case_decide; congruence. }
  assert (Hfm : ∀ r type id, r ∈ rows →
            component_matches type id (f r) ↔ component_matches type id r).
  { intros r type id Hr. unfold f. case_decide as Heq; [|done].
    assert (r = c) as ->.
    { rewrite <- Hpc in Heq.
      apply list_elem_of_lookup in Hr as [i Hi'].
      apply list_elem_of_lookup in Hin as [j Hj].
      assert (i = j) as ->; [|congruence].
      eapply NoDup_lookup; [exact Hpk| |]; rewrite list_lookup_fmap.
      - by rewrite Hi'.
      - rewrite Hj. simpl. by rewrite Heq. }
    unfold component_matches. by rewrite Ht, Hi. }
  split.
  - rewrite <- list_fmap_compose.
    rewrite (list_fmap_ext _ Component.pk rows); [done|].
    intros i r _. apply Hfpk.
  - intros type id. etrans; [|apply (Hcount type id)].
    unfold matching. clear Hin Hpk Hcount.
    induction rows as [|r rows IH]; [done|].
    rewrite fmap_cons, !filter_cons.
    specialize (Hfm r type id (list_elem_of_here _ _)) as Hr.
    assert (IH' : (length (filter (component_matches type id) (f <$> rows))
                   ≤ length (filter (component_matches type id) rows))%nat).
    { apply IH. intros r' type' id' Hr'. apply Hfm. by right. }
    repeat case_decide; simpl; try lia; tauto.
Qed.


Lemma list_step_keeps_table_ok components index component :
  keeps_table_ok (list_step components index component).
Proof.
  intros w r w' Hrun Hok. unfold list_step in Hrun.
  destruct (decide (component > 0)%Z); [|by injection Hrun as <- <-].
  cbv beta iota delta [mbind M_bind mret M_ret raise objects_filter objects_create
    component_maps_at] in Hrun.
  destruct (list_component_maps !! index) as [type|]; [|by injection Hrun as <- <-].
  fold (matching type component (component_rows w)) in Hrun.
  destruct (matching type component (component_rows w)) as [|c rows] eqn:Hm.
  - destruct (storable w component "Unknown"); injection Hrun as <- <-; [|done].
    simpl. by apply table_ok_create.
  - by injection Hrun as <- <-.
Qed.

Lemma list_loop_keeps_table_ok l components index :
  keeps_table_ok (list_loop components index l).
Proof.
  revert components index. induction l as [|x l IH]; intros components index; simpl.
  - apply keeps_table_ok_ret.
  - apply keeps_table_ok_bind; [apply list_step_keeps_table_ok|].
    intros components'. apply IH.
Qed.

Lemma dict_step_keeps_table_ok d components mapping :
  keeps_table_ok (dict_step d components mapping).
Proof.
  destruct mapping as [key [type replace]]. intros w r w' Hrun Hok.
  unfold dict_step in Hrun.
  destruct (d !! key) as [[[Name|] Id|z]|]; try by injection Hrun as <- <-.
  destruct (decide (Name = "")); [by injection Hrun as <- <-|].
  unfold try_except_M at 1 in Hrun. unfold mbind at 1, M_bind at 1 in Hrun.
  rewrite objects_get_or_create_spec in Hrun.
  destruct (matching type Id (component_rows w)) as [|c [|c2 rows]] eqn:Hm.
  - cbv zeta in Hrun.
    destruct (storable w Id (display_name replace Name)) eqn:Hst;
      [|by injection Hrun as <- <-].
    pose proof (table_ok_create _ type Id (display_name replace Name) Hok Hm) as Hok1.
    cbn [Component.name Component.pk Component.type Component.internal_id] in Hrun.
    destruct (decide (display_name replace Name = "Unknown"));
      [|by injection Hrun as <- <-].
    unfold try_except_M, save in Hrun. unfold_M.
    cbn [Component.name Component.pk Component.type Component.internal_id] in Hrun.
    rewrite (same_limits_storable w (with_component_rows w _)) in Hrun by done.
    rewrite Hst in Hrun. injection Hrun as <- <-.
    cbn [component_rows with_component_rows].
    eapply (table_ok_save _ _ _ _ Hok1);
      [apply elem_of_app; right; apply list_elem_of_here | done..].
  - assert (Hc : c ∈ matching type Id (component_rows w)).
    { rewrite Hm. apply list_elem_of_here. }
    apply list_elem_of_filter in Hc as [_ Hin].
    destruct (decide (Component.name c = "Unknown"));
      [|by injection Hrun as <- <-].
    unfold try_except_M, save in Hrun. unfold_M.
    cbn [Component.name Component.pk Component.type Component.internal_id] in Hrun.
    destruct (storable w (Component.internal_id c) (display_name replace Name));
      injection Hrun as <- <-; [|done].
    cbn [component_rows with_component_rows]. by eapply (table_ok_save _ c).
  - by injection Hrun as <- <-.
Qed.

Lemma dict_loop_keeps_table_ok d mappings components :
  keeps_table_ok (dict_loop d components mappings).
Proof.
  revert components. induction mappings as [|mapping mappings IH]; intros components.
  - apply keeps_table_ok_ret.
  - simpl. apply keeps_table_ok_bind; [apply dict_step_keeps_table_ok|].
    intros components'. apply IH.
Qed.

Lemma set_vehicle_loadout_keeps_table_ok v : keeps_table_ok (set_vehicle_loadout v).
Proof. intros w r w' [= <- <-]. done. Qed.

(** X7. [vehicle_data] keeps the component table well-formed, whatever the
    stored loadout and whether it returns or raises: primary keys stay
    unique, and no second row is ever added for a type and internal id. *)
Theorem vehicle_data_keeps_table_ok (w : world) (r : result (gmap string Component.t))
    (w' : world) :
  vehicle_data w = (r, w') →
  table_ok (component_rows w) → table_ok (component_rows w').
Proof.
  revert w r w'. change (keeps_table_ok vehicle_data). unfold vehicle_data.
  apply keeps_table_ok_bind.
  { intros w r w' [= <- <-]. done. }
  intros v. destruct (loadout_falsy v); [apply keeps_table_ok_ret|].
  destruct v as [|l|d|b]; try apply keeps_table_ok_ret.
  - apply keeps_table_ok_bind.
    + destruct (decide (length l = 9%nat)); [|apply keeps_table_ok_ret].
      apply keeps_table_ok_bind; [apply set_vehicle_loadout_keeps_table_ok|].
      intros _. apply keeps_table_ok_ret.
    + intros l'. destruct (decide (length l' = 7%nat)).
      * apply list_loop_keeps_table_ok.
      * apply keeps_table_ok_raise.
  - apply dict_loop_keeps_table_ok.
Qed.

Lemma vehicle_data_keeps_table_ok_witness :
  table_ok (component_rows (vehicle_data named_world).2).
Proof.
  apply (vehicle_data_keeps_table_ok named_world (vehicle_data named_world).1).
  - by destruct (vehicle_data named_world).
  - split; [apply NoDup_nil_2 | intros type id; simpl; lia].
Defined.


(** *** Legacy lists: rows are only appended, and a second run finds them *)

Lemma head_app_ne {A} (l1 l2 : list A) : l1 ≠ [] → head (l1 ++ l2) = head l1.
Proof. by destruct l1. Qed.

Lemma list_step_cases components index x w r w1 :
  list_step components index x w = (r, w1) →
  ((x ≤ 0)%Z ∧ r = Ok components ∧ w1 = w)
  ∨ ((x > 0)%Z ∧ w1 = w
     ∧ ∃ e, r = Raise e
            ∧ (list_component_maps !! index = None
               ∨ ∃ type, list_component_maps !! index = Some type
                         ∧ matching type x (component_rows w) = []))
  ∨ ((x > 0)%Z
     ∧ ∃ type c,
         list_component_maps !! index = Some type
         ∧ r = Ok (<[type := c]> components)
         ∧ head (matching type x (component_rows w1)) = Some c
         ∧ self w1 = self w
         ∧ ((matching type x (component_rows w) ≠ [] ∧ w1 = w)
            ∨ (matching type x (component_rows w) = []
               ∧ component_rows w1 = (component_rows w ++ [c])%list
               ∧ Component.name c = "Unknown"
               ∧ Component.internal_id c = x))).
Proof.
  intros Hrun. destruct (decide (x > 0)%Z) as [Hpos|Hneg].
  - right. destruct (list_component_maps !! index) as [type|] eqn:Hty.
    + unfold list_step in Hrun. rewrite decide_True in Hrun by done.
      cbv beta iota delta [mbind M_bind mret M_ret raise objects_filter objects_create
        component_maps_at] in Hrun.
      rewrite Hty in Hrun. fold (matching type x (component_rows w)) in Hrun.
      destruct (matching type x (component_rows w)) as [|c rows] eqn:Hm.
      * destruct (storable w x "Unknown"); injection Hrun as <- <-.
        -- right. split; [done|]. exists type.
           eexists. split; [done|]. split; [done|].
           cbn [component_rows with_component_rows self]. split; [|split; [done|]].
           ++ unfold matching. rewrite filter_app.
              fold (matching type x (component_rows w)).
              rewrite Hm. simpl. rewrite filter_cons_True; [done|]. by split.
           ++ right. done.
        -- left. split; [done|]. split; [done|]. eexists. split; [done|].
           right. by exists type.
      * injection Hrun as <- <-. right. split; [done|]. exists type, c.
        split; [done|]. split; [done|].
        rewrite Hm. split; [done|]. split; [done|]. left. done.
    + left. rewrite list_step_IndexError in Hrun by done.
      injection Hrun as <- <-. split; [done|]. split; [done|].
      eexists. split; [done|]. by left.
  - left. rewrite list_step_skip in Hrun by lia. injection Hrun as <- <-.
    split; [lia|done].
Qed.

Lemma list_loop_rows l components index w r w' :
  list_loop components index l w = (r, w') →
  self w' = self w
  ∧ ∃ created,
      component_rows w' = (component_rows w ++ created)%list
      ∧ (length created ≤ length list_component_maps - index)%nat
      ∧ Forall (λ c, Component.name c = "Unknown"
                     ∧ ∃ x, x ∈ l ∧ (x > 0)%Z ∧ Component.internal_id c = x) created.
Proof.
  revert components index w. induction l as [|x l IH]; intros components index w Hrun.
  - injection Hrun as <- <-. split; [done|]. exists []. rewrite app_nil_r.
    split; [done|]. split; [simpl; lia | constructor].
  - simpl in Hrun. unfold mbind, M_bind in Hrun.
    destruct (list_step components index x w) as [r1 w1] eqn:Hstep.
    apply list_step_cases in Hstep
      as [(Hx & -> & ->) | [(Hx & -> & e & -> & Hwhy) | (Hx & type & c & Hty & -> & Hhead & Hself & Hrows)]].
    + destruct (IH _ _ _ Hrun) as (Hself' & created & Hrows & Hlen & Hall).
      split; [done|]. exists created. split; [done|]. split; [lia|].
      eapply Forall_impl; [exact Hall|]. intros c (Hn & y & Hy & Hpos & Hid).
      split; [done|]. exists y. split; [by right | done].
    + injection Hrun as <- <-. split; [done|]. exists []. rewrite app_nil_r.
      split; [done|]. split; [simpl; lia | constructor].
    + destruct (IH _ _ _ Hrun) as (Hself' & created & Hrows' & Hlen & Hall).
      apply lookup_lt_Some in Hty as Hlt.
      assert (Hall' : Forall (λ c, Component.name c = "Unknown"
                 ∧ ∃ y, y ∈ x :: l ∧ (y > 0)%Z ∧ Component.internal_id c = y) created).
      { eapply Forall_impl; [exact Hall|]. intros c' (Hn & y & Hy & Hpos & Hid).
        split; [done|]. exists y. split; [by right | done]. }
      split; [congruence|].
      destruct Hrows as [[_ ->] | (_ & Hrows1 & Hname & Hid)].
      * exists created. split; [done|]. split; [lia | done].
      * exists (c :: created). rewrite Hrows', Hrows1, <- app_assoc. split; [done|].
        split; [simpl in *; lia|]. constructor; [|done].
        split; [done|]. exists x. split; [by left | done].
Qed.

(** X8. On a legacy list [vehicle_data] only appends to the component
    table, whether it returns or raises: the rows that were there stay as
    they are, at most six rows are added, and each new row is named
    ['Unknown'] and carries a positive item number of the list. *)
Theorem vehicle_data_list_appends (w : world) (l : list Z)
    (r : result (gmap string Component.t)) (w' : world) :
  Player.vehicle_loadout (self w) = LoadoutList l →
  vehicle_data w = (r, w') →
  ∃ created,
    component_rows w' = (component_rows w ++ created)%list
    ∧ (length created ≤ 6)%nat
    ∧ Forall (λ c, Component.name c = "Unknown"
                   ∧ ∃ x, x ∈ l ∧ (x > 0)%Z ∧ Component.internal_id c = x) created.
Proof.
  intros Hv Hrun.
  assert (Hnone : ∀ w0, component_rows w0 = component_rows w →
            ∃ created, component_rows w0 = (component_rows w ++ created)%list
              ∧ (length created ≤ 6)%nat
              ∧ Forall (λ c, Component.name c = "Unknown"
                   ∧ ∃ x, x ∈ l ∧ (x > 0)%Z ∧ Component.internal_id c = x) created).
  { intros w0 ->. exists []. rewrite app_nil_r. split; [done|].
    split; [simpl; lia | constructor]. }
  destruct (decide (length l = 0%nat)) as [H0|H0].
  { rewrite vehicle_data_falsy in Hrun.
    - injection Hrun as <- <-. by apply Hnone.
    - rewrite Hv. simpl. apply bool_decide_eq_true. by destruct l. }
  destruct (decide (length l = 7%nat)) as [H7|H7].
  { rewrite (vehicle_data_list_7 w l Hv H7) in Hrun.
    destruct (list_loop_rows _ _ _ _ _ _ Hrun) as (_ & created & Hrows & Hlen & Hall).
    exists created. done. }
  destruct (decide (length l = 9%nat)) as [H9|H9].
  { rewrite (vehicle_data_list_9 w l Hv H9) in Hrun.
    rewrite (vehicle_data_list_7 _ (take 7 (drop 1 l))) in Hrun; [|done|].
    - destruct (list_loop_rows _ _ _ _ _ _ Hrun) as (_ & created & Hrows & Hlen & Hall).
      exists created. split; [done|]. split; [done|].
      eapply Forall_impl; [exact Hall|]. intros c (Hn & x & Hx & Hpos & Hid).
      split; [done|]. exists x. split; [|done].
      apply (subseteq_take 7), (subseteq_drop 1) in Hx. done.
    - rewrite length_take, length_drop. lia. }
  rewrite (vehicle_data_list_AssertionError w l) in Hrun by done.
  injection Hrun as <- <-. by apply Hnone.
Qed.

Lemma vehicle_data_list_appends_witness :
  ∃ created,
    component_rows (vehicle_data legacy_world).2 = ([] ++ created)%list
    ∧ (length created ≤ 6)%nat
    ∧ Forall (λ c, Component.name c = "Unknown"
                   ∧ ∃ x, x ∈ legacy_loadout ∧ (x > 0)%Z
                          ∧ Component.internal_id c = x) created.
Proof.
  apply (vehicle_data_list_appends legacy_world legacy_loadout
           (vehicle_data legacy_world).1).
  - reflexivity.
  - by destruct (vehicle_data legacy_world).
Defined.


Lemma matching_app type id rows1 rows2 :
  matching type id (rows1 ++ rows2)%list
    = (matching type id rows1 ++ matching type id rows2)%list.
Proof. apply filter_app. Qed.

(** What a run of the loop that returns leaves in the map, read off the
    table it leaves. *)
Lemma list_loop_heads l components0 index w components w' :
  list_loop components0 index l w = (Ok components, w') →
  (∀ j x, l !! j = Some x → (x > 0)%Z →
     ∃ type c, list_component_maps !! (index + j)%nat = Some type
               ∧ components !! type = Some c
               ∧ head (matching type x (component_rows w')) = Some c)
  ∧ (∀ type,
       (∀ j x, l !! j = Some x →
               list_component_maps !! (index + j)%nat = Some type → (x ≤ 0)%Z) →
       components !! type = components0 !! type).
Proof.
  revert components0 index w. induction l as [|x l IH]; intros components0 index w Hrun.
  - injection Hrun as <- <-. split; [|done]. intros j y Hj. by rewrite lookup_nil in Hj.
  - simpl in Hrun. unfold mbind, M_bind in Hrun.
    destruct (list_step components0 index x w) as [r1 w1] eqn:Hstep.
    apply list_step_cases in Hstep
      as [(Hx & -> & ->) | [(Hx & -> & e & -> & Hwhy) | (Hx & type & c & Hty & -> & Hhead & Hself & Hrows)]];
      [| done |].
    + destruct (IH _ _ _ Hrun) as [Hset Hkeep]. split.
      * intros [|j] y Hj Hy; simpl in Hj.
        -- injection Hj as <-. lia.
        -- destruct (Hset j y Hj Hy) as (ty & c & Hty & Hc & Hh).
           exists ty, c. by rewrite Nat.add_succ_r, <- Nat.add_succ_l.
      * intros ty Hskip. apply Hkeep. intros j y Hj Hty.
        apply (Hskip (S j) y Hj). by rewrite Nat.add_succ_r, <- Nat.add_succ_l.
    + destruct (IH _ _ _ Hrun) as [Hset Hkeep].
      destruct (list_loop_rows _ _ _ _ _ _ Hrun) as (_ & created & Hgrow & _).
      split.
      * intros [|j] y Hj Hy; simpl in Hj.
        -- injection Hj as <-. exists type, c. rewrite Nat.add_0_r. split; [done|].
           split.
           ++ rewrite Hkeep; [apply lookup_insert_eq|].
              intros j y Hj Hty'. exfalso.
              pose proof (NoDup_lookup _ _ _ _ list_component_maps_NoDup Hty Hty').
              lia.
           ++ rewrite Hgrow, matching_app, head_app_ne; [done|].
              intros Heq. by rewrite Heq in Hhead.
        -- destruct (Hset j y Hj Hy) as (ty & c' & Hty' & Hc & Hh).
           exists ty, c'. by rewrite Nat.add_succ_r, <- Nat.add_succ_l.
      * intros ty Hskip. rewrite Hkeep.
        -- apply lookup_insert_ne. intros ->.
           specialize (Hskip 0%nat x eq_refl). rewrite Nat.add_0_r in Hskip.
           specialize (Hskip Hty). lia.
        -- intros j y Hj Hty'. apply (Hskip (S j) y Hj).
           by rewrite Nat.add_succ_r, <- Nat.add_succ_l.
Qed.

(** Where every positive item has its row already, the loop returns and
    leaves the world as it is. *)
Lemma list_loop_found l components0 index w :
  (∀ j x, l !! j = Some x → (x > 0)%Z →
     ∃ type, list_component_maps !! (index + j)%nat = Some type
             ∧ matching type x (component_rows w) ≠ []) →
  ∃ components, list_loop components0 index l w = (Ok components, w).
Proof.
  revert components0 index. induction l as [|x l IH]; intros components0 index Hfound.
  - by eexists.
  - simpl. unfold mbind, M_bind.
    destruct (list_step components0 index x w) as [r1 w1] eqn:Hstep.
    assert (Htail : ∀ j y, l !! j = Some y → (y > 0)%Z →
              ∃ type, list_component_maps !! (S index + j)%nat = Some type
                      ∧ matching type y (component_rows w) ≠ []).
    { intros j y Hj Hy. destruct (Hfound (S j) y Hj Hy) as (ty & Hty & Hm).
      exists ty. by rewrite Nat.add_succ_l, <- Nat.add_succ_r. }
    apply list_step_cases in Hstep
      as [(Hx & -> & ->) | [(Hx & -> & e & -> & Hwhy) | (Hx & type & c & Hty & -> & Hhead & Hself & Hrows)]].
    + by apply IH.
    + destruct (Hfound 0%nat x eq_refl Hx) as (ty & Hty' & Hm).
      rewrite Nat.add_0_r in Hty'.
      destruct Hwhy as [Hty | (ty0 & Hty & Hnone)]; [congruence|].
      assert (ty = ty0) as -> by congruence. done.
    + destruct (Hfound 0%nat x eq_refl Hx) as (ty & Hty' & Hm).
      rewrite Nat.add_0_r in Hty'. assert (ty = type) as -> by congruence.
      destruct Hrows as [[_ ->] | (Hnone & _)]; [|done].
      by apply IH.
Qed.

Lemma list_loop_rerun l w components w' :
  list_loop ∅ 0 l w = (Ok components, w') →
  list_loop ∅ 0 l w' = (Ok components, w').
Proof.
  intros Hrun. destruct (list_loop_heads _ _ _ _ _ _ Hrun) as [Hset Hkeep].
  destruct (list_loop_found l ∅ 0 w') as [components2 Hrun2].
  { intros j x Hj Hx. destruct (Hset j x Hj Hx) as (ty & c & Hty & _ & Hh).
    exists ty. split; [done|]. intros Heq. by rewrite Heq in Hh. }
  rewrite Hrun2. do 2 f_equal.
  destruct (list_loop_heads _ _ _ _ _ _ Hrun2) as [Hset2 Hkeep2].
  apply map_eq. intros ty.
  assert (Hcases : (∃ j x, l !! j = Some x ∧ (x > 0)%Z
                           ∧ list_component_maps !! j = Some ty)
                   ∨ (∀ j x, l !! j = Some x →
                        list_component_maps !! (0 + j)%nat = Some ty → (x ≤ 0)%Z)).
  { destruct (decide (ty ∈ list_component_maps)) as [Hin|Hnot].
    - apply list_elem_of_lookup in Hin as [j Hty].
      destruct (l !! j) as [x|] eqn:Hj.
      + destruct (decide (x > 0)%Z); [left; by exists j, x|].
        right. intros j' y Hj' Hty'. simpl in Hty'.
        pose proof (NoDup_lookup _ _ _ _ list_component_maps_NoDup Hty Hty') as <-.
        assert (y = x) by congruence. lia.
      + right. intros j' y Hj' Hty'. simpl in Hty'.
        pose proof (NoDup_lookup _ _ _ _ list_component_maps_NoDup Hty Hty') as <-.
        congruence.
    - right. intros j x _ Hty. destruct Hnot. by eapply list_elem_of_lookup_2. }
  destruct Hcases as [(j & x & Hj & Hx & Hty) | Hskip].
  - destruct (Hset j x Hj Hx) as (ty1 & c1 & Hty1 & Hc1 & Hh1).
    destruct (Hset2 j x Hj Hx) as (ty2 & c2 & Hty2 & Hc2 & Hh2).
    simpl in *. simplify_eq. congruence.
  - by rewrite Hkeep, Hkeep2.
Qed.


(** X9. On a legacy list a second run of [vehicle_data] finds what the
    first one left: it returns the same components and changes nothing. *)
Theorem vehicle_data_list_rerun (w : world) (l : list Z)
    (components : gmap string Component.t) (w' : world) :
  Player.vehicle_loadout (self w) = LoadoutList l →
  vehicle_data w = (Ok components, w') →
  vehicle_data w' = (Ok components, w').
Proof.
  assert (H7 : ∀ w0 l0, Player.vehicle_loadout (self w0) = LoadoutList l0 →
            length l0 = 7%nat →
            vehicle_data w0 = (Ok components, w') →
            vehicle_data w' = (Ok components, w')).
  { intros w0 l0 Hv Hlen Hrun. rewrite (vehicle_data_list_7 w0 l0 Hv Hlen) in Hrun.
    destruct (list_loop_rows _ _ _ _ _ _ Hrun) as (Hself & _).
    rewrite (vehicle_data_list_7 w' l0); [|by rewrite Hself|done].
    exact (list_loop_rerun _ _ _ _ Hrun). }
  intros Hv Hrun.
  destruct (decide (length l = 0%nat)) as [H0|H0].
  { assert (Hf : loadout_falsy (Player.vehicle_loadout (self w)) = true).
    { rewrite Hv. simpl. apply bool_decide_eq_true. by destruct l. }
    rewrite (vehicle_data_falsy w Hf) in Hrun.
    injection Hrun as Hc Hw. subst components w'.
    exact (vehicle_data_falsy w Hf). }
  destruct (decide (length l = 7%nat)) as [Hlen|Hn7]; [by eapply H7|].
  destruct (decide (length l = 9%nat)) as [Hlen|Hn9].
  - rewrite (vehicle_data_list_9 w l Hv Hlen) in Hrun.
    apply (H7 (with_vehicle_loadout w (LoadoutList (take 7 (drop 1 l))))
              (take 7 (drop 1 l))); [reflexivity| |exact Hrun].
    rewrite length_take, length_drop. lia.
  - by rewrite (vehicle_data_list_AssertionError w l) in Hrun.
Qed.

Lemma vehicle_data_list_rerun_witness :
  ∃ components w',
    vehicle_data legacy_world = (Ok components, w')
    ∧ vehicle_data w' = (Ok components, w').
Proof.
  destruct (vehicle_data_legacy legacy_world legacy_loadout eq_refl eq_refl)
    as (components & w' & Hrun & _).
  { intros x Hx. simpl.
    repeat (apply elem_of_cons in Hx as [-> | Hx]; [lia|]).
    by apply elem_of_nil in Hx. }
  { intros x [= <-]. lia. }
  exists components, w'. split; [exact Hrun|].
  exact (vehicle_data_list_rerun legacy_world legacy_loadout components w'
           eq_refl Hrun).
Defined.

(** ** [match_length] *)

Lemma fmt_02d_two_digits (s : Z) :
  (0 ≤ s < 60)%Z →
  fmt_02d s = String (digit_char (s / 10)) (String (digit_char (s mod 10)) "").
Proof.
  intros Hs. assert (Hn : s = Z.of_nat (Z.to_nat s)) by lia.
  rewrite Hn. assert (Hlt : (Z.to_nat s < 60)%nat) by lia.
  generalize dependent (Z.to_nat s). intros n _ Hlt.
  do 60 (destruct n as [|n]; [vm_compute; reflexivity|]). lia.
Qed.

Lemma match_length_clock_parts (self : Replay.t) num_frames fps m s :
  Replay.num_frames self = Some num_frames → num_frames ≠ 0 →
  Replay.record_fps self = Some fps → F64.falsy fps = false →
  clock_parts num_frames fps = Ok (m, s) →
  match_length self = Ok (fmt_d m +:+ ":" +:+ fmt_02d s).
Proof.
  intros Hf Hnz Hr Hfps. unfold match_length, clock_parts. rewrite Hf, Hr.
  unfold frame_falsy, fps_falsy. rewrite Hfps.
  rewrite bool_decide_eq_false_2 by done.
  cbn [orb default option_rect option_map from_option id].
  destruct (F64.of_int num_frames ≫= _) as [calculation|e]; cbn [mbind result_bind];
    [|done].
  destruct (F64.divmod calculation 60) as [[minutes seconds]|e];
    cbn [mbind result_bind]; [|done].
  destruct (F64.int minutes) as [m'|e]; cbn [mbind result_bind]; [|done].
  destruct (F64.int seconds) as [s'|e]; cbn [mbind result_bind]; [|done].
  by intros [= -> ->].
Qed.

(** X10. [match_length] answers ['N/A'] when the frame count or the
    recording FPS is missing or 0 (a zero of either sign). Otherwise it
    divides the frame count, converted to a float, by the FPS in binary64
    arithmetic, splits the quotient by [divmod(..., 60)] and, when both
    parts are finite, answers them, cut to integers, as minutes, a colon,
    and the seconds zero-padded to two digits. At 30 frames per second, for 1 to 18000 frames, these
    are the whole seconds [num_frames / 30] exactly: minutes, a colon, and
    exactly two decimal digits for the seconds, which are below 60. *)
Theorem match_length_format (self : Replay.t) :
  (Replay.num_frames self = None ∨ Replay.num_frames self = Some 0
   ∨ Replay.record_fps self = None
   ∨ (∃ fps, Replay.record_fps self = Some fps ∧ (fps =? 0)%float = true) →
   match_length self = Ok "N/A")
  ∧ (∀ num_frames fps x minutes seconds m s,
       Replay.num_frames self = Some num_frames → num_frames ≠ 0 →
       Replay.record_fps self = Some fps → (fps =? 0)%float = false →
       F64.of_int num_frames = Ok x →
       F64.divmod (x / fps) 60 = Ok (minutes, seconds) →
       F64.int minutes = Ok m → F64.int seconds = Ok s →
       match_length self = Ok (fmt_d m +:+ ":" +:+ fmt_02d s))
  ∧ (∀ num_frames,
       Replay.num_frames self = Some num_frames → (0 < num_frames ≤ 18000)%Z →
       Replay.record_fps self = Some 30%float →
       let seconds := ((num_frames / 30) mod 60)%Z in
       (0 ≤ seconds < 60)%Z
       ∧ match_length self
         = Ok (str_of_int (num_frames / 30 / 60) +:+ ":"
                 +:+ String (digit_char (seconds / 10))
                       (String (digit_char (seconds mod 10)) ""))).
Proof.
  split; [|split].
  - unfold match_length. intros [Hf | [Hf | [Hr | (fps & Hr & Hz)]]].
    + by rewrite Hf.
    + by rewrite Hf.
    + rewrite Hr. simpl. by rewrite orb_true_r.
    + rewrite Hr. simpl. unfold F64.falsy. rewrite Hz. by rewrite orb_true_r.
  - intros num_frames fps x minutes seconds m s Hf Hnz Hr Hfps Hx Hdivmod Hm Hs.
    apply (match_length_clock_parts self num_frames fps); [done..|].
    by apply (clock_parts_Ok num_frames fps x minutes seconds).
  - intros num_frames Hf Hrange Hr seconds. subst seconds.
    pose proof (Z.mod_pos_bound (num_frames / 30) 60 ltac:(lia)) as Hb.
    split; [exact Hb|].
    rewrite <- (fmt_02d_two_digits _ Hb).
    apply (match_length_clock_parts self num_frames 30%float); [done|lia|done|done|].
    by apply clock_parts_30.
Qed.

Lemma match_length_format_witness :
  match_length (replay_with_id "") = Ok "N/A"
  ∧ match_length ranked_replay = Ok "5:00"
  ∧ match_length (replay_at_fps 0x1.e19999999999ap+4) = Ok "0:10".
Proof.
  split; [|split].
  - apply (proj1 (match_length_format (replay_with_id ""))). by left.
  - destruct (proj2 (proj2 (match_length_format ranked_replay))
                9000 eq_refl ltac:(lia) eq_refl) as [_ Hrun].
    rewrite Hrun. reflexivity.
  - apply (proj1 (proj2 (match_length_format _))
             301 0x1.e19999999999ap+4%float 301%float 0%float 10%float 0 10);
      try reflexivity.
    discriminate.
Defined.

(** ** [ReplayPack] *)

Lemma sql_sum_None (values : list (option Z)) :
  Forall (λ v, v = None) values → sql_sum values = None.
Proof.
  intros Hall. unfold sql_sum.
  assert (Hnil : omap id values = []).
  { induction Hall as [|v values -> _ IH]; [done|]. by simpl. }
  by rewrite Hnil.
Qed.

Lemma foldl_add_foldr (z : Z) (zs : list Z) :
  foldl Z.add z zs = (z + foldr Z.add 0 zs)%Z.
Proof.
  revert z. induction zs as [|x zs IH]; intros z; simpl; [lia|].
  rewrite IH. lia.
Qed.

Lemma sql_sum_Some (values : list (option Z)) :
  Exists is_Some values →
  sql_sum values = Some (foldr Z.add 0 (default 0 <$> values)).
Proof.
  intros Hex. unfold sql_sum.
  assert (Hsum : foldr Z.add 0 (omap id values)
                 = foldr Z.add 0 (default 0 <$> values)).
  { clear Hex. induction values as [|[v|] values IH]; [done| |exact IH].
    change (v + foldr Z.add 0 (omap id values)
            = v + foldr Z.add 0 (default 0 <$> values))%Z.
    by rewrite IH. }
  rewrite <- Hsum. clear Hsum.
  destruct (omap id values) as [|z zs] eqn:Hom.
  - exfalso. induction Hex as [v values [z Hz]|v values _ IH].
    + by rewrite Hz in Hom.
    + destruct v; [done|]. by apply IH.
  - by rewrite foldl_add_foldr.
Qed.

Lemma Qfloor_div_30 (z : Z) : Qfloor (inject_Z z / 30) = (z / 30)%Z.
Proof.
  unfold Qdiv, Qmult, Qinv, Qfloor, inject_Z. simpl. by rewrite Z.mul_1_r.
Qed.

Lemma float_pos_inject_Z (z : Z) : float_pos (inject_Z z) = (0 <? z)%Z.
Proof.
  unfold float_pos, Qle_bool, inject_Z. simpl. rewrite Z.mul_1_r.
  destruct (Z.leb_spec z 0), (Z.ltb_spec 0 z); simpl; lia.
Qed.

(** X11. [ReplayPack.total_duration] reads [' 0m 0s'] for a pack without
    replays and raises [TypeError] for a pack none of whose replays has a
    frame count. Otherwise, with the frame counts that are present summed
    and taken at 30 frames per second whatever the replays' FPS, it shows
    the whole seconds as hours (left out unless positive), minutes below
    60 and seconds below 60. *)
Theorem total_duration_spec (replays : list Replay.t) :
  (replays = [] → ReplayPack.total_duration replays = Ok " 0m 0s")
  ∧ (replays ≠ [] → Forall (λ r, Replay.num_frames r = None) replays →
     ReplayPack.total_duration replays = Raise TypeError)
  ∧ (Exists (λ r, is_Some (Replay.num_frames r)) replays →
     let frames := foldr Z.add 0 ((λ r, default 0 (Replay.num_frames r)) <$> replays) in
     let seconds := (frames / 30)%Z in
     ReplayPack.total_duration replays
       = Ok ((if (0 <? seconds / 3600)%Z
              then str_of_int (seconds / 3600) +:+ "h" else "")
               +:+ " " +:+ str_of_int ((seconds / 60) mod 60) +:+ "m "
               +:+ str_of_int (seconds mod 60) +:+ "s")).
Proof.
  split; [|split].
  - intros ->. vm_compute. reflexivity.
  - intros Hne Hall. unfold ReplayPack.total_duration.
    rewrite bool_decide_eq_false_2 by (by destruct replays).
    rewrite sql_sum_None; [done|].
    clear Hne. induction Hall as [|r rs Hr _ IH]; [apply Forall_nil_2|].
    by apply Forall_cons_2.
  - intros Hex frames seconds. unfold ReplayPack.total_duration.
    rewrite bool_decide_eq_false_2
      by (intros Hlen; destruct replays; [by apply Exists_nil in Hex | done]).
    rewrite sql_sum_Some.
    2: { clear frames seconds. induction Hex as [r rs Hr|r rs _ IH]; simpl.
         - by apply Exists_cons_hd.
         - by apply Exists_cons_tl. }
    rewrite <- list_fmap_compose.
    change (foldr Z.add 0 ((default 0 ∘ Replay.num_frames) <$> replays)) with frames.
    cbn [mbind result_bind]. unfold float_divmod.
    rewrite (Qfloor_div_60 (inject_Z frames / 30)), Qfloor_div_30.
    fold seconds.
    rewrite (Qfloor_div_60 (inject_Z (seconds / 60))), Qfloor_Z.
    rewrite float_pos_inject_Z, int_of_float_inject_Z.
    pose proof (divmod_seconds (inject_Z (seconds / 60))) as Hm.
    rewrite Qfloor_div_60, Qfloor_Z in Hm. rewrite Hm.
    pose proof (divmod_seconds (inject_Z frames / 30)) as Hs.
    rewrite Qfloor_div_60, Qfloor_div_30 in Hs. fold seconds in Hs. rewrite Hs.
    rewrite Z.div_div by lia. done.
Qed.

Lemma total_duration_spec_witness :
  ReplayPack.total_duration [] = Ok " 0m 0s"
  ∧ ReplayPack.total_duration [replay_with_id ""] = Raise TypeError
  ∧ ReplayPack.total_duration [ranked_replay; replay_with_id ""; shutout_replay]
    = Ok " 10m 0s".
Proof.
  split; [|split].
  - by apply (proj1 (total_duration_spec [])).
  - apply (proj1 (proj2 (total_duration_spec [replay_with_id ""]))); [done|].
    apply Forall_cons_2; [done | apply Forall_nil_2].
  - rewrite (proj2 (proj2 (total_duration_spec
                             [ranked_replay; replay_with_id ""; shutout_replay]))).
    + vm_compute. reflexivity.
    + apply Exists_cons_hd. by eexists.
Defined.

(** ** [calculate_average_rating] *)

Lemma Qceiling_div (t n : Z) :
  (0 < n)%Z →
  let a := Qceiling (inject_Z t / inject_Z n) in
  ((a - 1) * n < t ≤ a * n)%Z.
Proof.
  intros Hn. destruct n as [|p|p]; [lia| |lia].
  unfold Qceiling, Qfloor, Qdiv, Qmult, Qinv, Qopp, inject_Z. simpl.
  rewrite Z.mul_1_r, Pos.mul_1_l.
  pose proof (Z.div_mod (- t) (Z.pos p) ltac:(lia)) as Hd.
  pose proof (Z.mod_pos_bound (- t) (Z.pos p) ltac:(lia)) as Hb.
  nia.
Qed.

Section average_rating.

Context (rating_get : option string → option string → option Z → result LeagueRating).

Lemma rating_loop_spec playlist players num total :
  (∀ p e, p ∈ players →
     rating_get (Player.platform p) (Player.online_id p) playlist = Raise e →
     e = DoesNotExist) →
  rating_loop rating_get playlist players num total
    = Ok (num + Z.of_nat (length (found_tiers rating_get playlist players)),
          total + foldr Z.add 0 (found_tiers rating_get playlist players))%Z.
Proof.
  revert num total. induction players as [|p players IH]; intros num total Hraise.
  - simpl. do 2 f_equal; lia.
  - cbn [rating_loop]. unfold found_tiers. cbn [omap list_omap].
    fold (found_tiers rating_get playlist players).
    destruct (rating_get (Player.platform p) (Player.online_id p) playlist)
      as [rating|e] eqn:Hget; cbn [mbind result_bind try_except_only].
    + rewrite IH by (intros p' e' Hin; apply Hraise; by right).
      cbn [length foldr]. do 2 f_equal; lia.
    + rewrite (Hraise p e) by (done || by left).
      rewrite decide_True by done. cbn [mbind result_bind].
      apply IH. intros p' e' Hin. apply Hraise. by right.
Qed.

Lemma rating_loop_Raise playlist players num total p e :
  p ∈ players →
  rating_get (Player.platform p) (Player.online_id p) playlist = Raise e →
  e ≠ DoesNotExist →
  ∃ e', e' ≠ DoesNotExist
        ∧ rating_loop rating_get playlist players num total = Raise e'.
Proof.
  intros Hin Hget Hne. revert num total.
  induction players as [|p0 players IH]; intros num total;
    [by apply elem_of_nil in Hin|].
  cbn [rating_loop].
  destruct (rating_get (Player.platform p0) (Player.online_id p0) playlist)
    as [rating|e0] eqn:Hget0; cbn [mbind result_bind try_except_only].
  - apply elem_of_cons in Hin as [->|Hin]; [congruence|]. by apply IH.
  - destruct (decide (e0 = DoesNotExist)) as [->|Hne0]; cbn [mbind result_bind].
    + apply elem_of_cons in Hin as [->|Hin]; [congruence|]. by apply IH.
    + by exists e0.
Qed.

End average_rating.

(** X12. [calculate_average_rating] counts the players of the replay that
    have an online id and a rating, and skips those whose rating lookup
    raises [LeagueRating.DoesNotExist]. With no rating it answers 0;
    otherwise it answers the mean tier rounded up, which lies between the
    lowest and the highest tier found. Any other exception of the lookup
    is raised. *)
Theorem calculate_average_rating_spec
    (rating_get : option string → option string → option Z → result LeagueRating)
    (players : list Player.t) (self : Replay.t) :
  let rated := filter (λ p, Player.replay p = Replay.pk self
                            ∧ Player.online_id p ≠ None) players in
  let lookup p := rating_get (Player.platform p) (Player.online_id p)
                    (Replay.playlist self) in
  let tiers := omap (λ p, match lookup p with
                          | Ok rating => Some (tier rating)
                          | Raise _ => None
                          end) rated in
  ((∀ p e, p ∈ rated → lookup p = Raise e → e = DoesNotExist) →
   ∃ average,
     calculate_average_rating rating_get players self = Ok average
     ∧ (tiers = [] → average = 0)
     ∧ (tiers ≠ [] →
        let n := Z.of_nat (length tiers) in
        let total := foldr Z.add 0 tiers in
        ((average - 1) * n < total ≤ average * n)%Z
        ∧ ∀ lo hi, Forall (λ t, lo ≤ t ≤ hi)%Z tiers → (lo ≤ average ≤ hi)%Z))
  ∧ (∀ p e, p ∈ rated → lookup p = Raise e → e ≠ DoesNotExist →
     ∃ e', e' ≠ DoesNotExist
           ∧ calculate_average_rating rating_get players self = Raise e').
Proof.
  intros rated lookup tiers. split.
  - intros Hraise. unfold calculate_average_rating.
    change (rated_players players self) with rated.
    rewrite rating_loop_spec by exact Hraise.
    change (found_tiers rating_get (Replay.playlist self) rated) with tiers.
    cbn [mbind result_bind]. rewrite !Z.add_0_l.
    destruct tiers as [|t tiers'] eqn:Ht.
    + exists 0. rewrite decide_False by (simpl; lia). done.
    + rewrite <- Ht. set (n := Z.of_nat (length tiers)).
      set (total := foldr Z.add 0 tiers).
      assert (Hn : (0 < n)%Z) by (unfold n; rewrite Ht; simpl; lia).
      rewrite decide_True by lia.
      exists (Qceiling (inject_Z total / inject_Z n)).
      split; [done|]. split; [by rewrite Ht|]. intros _.
      pose proof (Qceiling_div total n Hn) as Hceil. cbv zeta in Hceil.
      split; [exact Hceil|]. intros lo hi Hall.
      assert (Hsum : (lo * n ≤ total ≤ hi * n)%Z).
      { unfold n, total. clear -Hall.
        induction Hall as [|x xs Hx _ IH]; simpl; [lia|]. nia. }
      nia.
  - intros p e Hin Hget Hne. unfold calculate_average_rating.
    destruct (rating_loop_Raise rating_get (Replay.playlist self) rated 0 0 p e
                Hin Hget Hne) as (e' & Hne' & Hloop).
    exists e'. split; [done|].
    change (rated_players players self) with rated. by rewrite Hloop.
Qed.

Lemma calculate_average_rating_spec_witness :
  calculate_average_rating
    (λ _ online_id _,
       if decide (online_id = Some "76561198000000001")
       then Ok {| tier := 7 |} else Raise DoesNotExist)
    [team_0_scorer; epic_player] ranked_replay
  = Ok 7.
Proof.
  destruct (proj1 (calculate_average_rating_spec
                     (λ _ online_id _,
                        if decide (online_id = Some "76561198000000001")
                        then Ok {| tier := 7 |} else Raise DoesNotExist)
                     [team_0_scorer; epic_player] ranked_replay))
    as (average & Hrun & _ & Hmean).
  { intros p e _. cbv beta. case_decide; congruence. }
  rewrite Hrun. f_equal.
  destruct Hmean as [Hmean _]; [by vm_compute|].
  change ((average - 1) * 1 < 7 ≤ average * 1)%Z in Hmean. lia.
Defined.

(** ** [get_default_season] *)

#[global] Instance season_le_total : Total season_le.
Proof. intros a b. unfold season_le. lia. Qed.

#[global] Instance season_le_trans : Transitive season_le.
Proof. intros a b c. unfold season_le. lia. Qed.

Lemma started_seasons_head now seasons :
  match merge_sort season_le (filter (λ s, Season.start_date s ≤ now)%Z seasons) with
  | [] => Forall (λ s, now < Season.start_date s)%Z seasons
  | season :: _ =>
      season ∈ seasons ∧ (Season.start_date season ≤ now)%Z
      ∧ ∀ s, s ∈ seasons → (Season.start_date s ≤ now)%Z →
             (Season.start_date s ≤ Season.start_date season)%Z
  end.
Proof.
  pose proof (merge_sort_Permutation season_le
                (filter (λ s, Season.start_date s ≤ now)%Z seasons)) as Hperm.
  pose proof (StronglySorted_merge_sort season_le
                (filter (λ s, Season.start_date s ≤ now)%Z seasons)) as Hsorted.
  destruct (merge_sort _ _) as [|season sorted].
  - apply Forall_forall. intros s Hs.
    destruct (decide (Season.start_date s ≤ now)%Z) as [Hle|]; [|lia].
    assert (Hin : s ∈ filter (λ s, Season.start_date s ≤ now)%Z seasons)
      by (apply list_elem_of_filter; done).
    rewrite <- Hperm in Hin. by apply elem_of_nil in Hin.
  - assert (Hin : season ∈ filter (λ s, Season.start_date s ≤ now)%Z seasons)
      by (rewrite <- Hperm; apply list_elem_of_here).
    apply list_elem_of_filter in Hin as [Hle Hin].
    split; [done|]. split; [done|]. intros s Hs Hsle.
    assert (Hs' : s ∈ season :: sorted)
      by (rewrite Hperm; apply list_elem_of_filter; done).
    apply StronglySorted_inv in Hsorted as [_ Hall].
    apply elem_of_cons in Hs' as [->|Hs']; [lia|].
    rewrite Forall_forall in Hall. apply (Hall s Hs').
Qed.

(** X13. On an empty [Season] table [get_default_season] creates
    ['Season 1'], starting at the game's release, and answers its key. On a
    table with rows it changes nothing and answers the key of a season that
    has started and that no started season follows; where every season
    starts in the future it raises [IndexError]. After a first call on an
    empty table, a second call at a time not before the release answers the
    same key. *)
Theorem get_default_season_spec (game_release_date now : Z)
    (seasons : list Season.t) :
  (seasons = [] →
   ∃ season,
     get_default_season game_release_date now seasons
       = (Ok (Season.pk season), [season])
     ∧ Season.title season = "Season 1"
     ∧ Season.start_date season = game_release_date
     ∧ ∀ later, (game_release_date ≤ later)%Z →
         get_default_season game_release_date later [season]
           = (Ok (Season.pk season), [season]))
  ∧ (seasons ≠ [] →
     (Forall (λ s, now < Season.start_date s)%Z seasons →
      get_default_season game_release_date now seasons = (Raise IndexError, seasons))
     ∧ (Exists (λ s, Season.start_date s ≤ now)%Z seasons →
        ∃ season,
          get_default_season game_release_date now seasons
            = (Ok (Season.pk season), seasons)
          ∧ season ∈ seasons
          ∧ (Season.start_date season ≤ now)%Z
          ∧ ∀ s, s ∈ seasons → (Season.start_date s ≤ now)%Z →
                 (Season.start_date s ≤ Season.start_date season)%Z)).
Proof.
  split.
  - intros ->. eexists. split; [reflexivity|]. split; [done|]. split; [done|].
    intros later Hlater. unfold get_default_season.
    rewrite bool_decide_eq_false_2 by done.
    cbn [filter list_filter Season.start_date].
    rewrite decide_True by done. done.
  - intros Hne. unfold get_default_season.
    rewrite bool_decide_eq_false_2 by (by destruct seasons).
    pose proof (started_seasons_head now seasons) as Hhead.
    destruct (merge_sort _ _) as [|season sorted]; split.
    + done.
    + intros Hex. exfalso. apply Exists_exists in Hex as (s & Hs & Hle).
      rewrite Forall_forall in Hhead. specialize (Hhead s Hs). lia.
    + intros Hall. exfalso. destruct Hhead as (Hin & Hle & _).
      rewrite Forall_forall in Hall. specialize (Hall season Hin). lia.
    + intros _. exists season. by split.
Qed.

Lemma get_default_season_spec_witness :
  (∃ season,
     get_default_season 100 250 [] = (Ok (Season.pk season), [season])
     ∧ Season.title season = "Season 1"
     ∧ Season.start_date season = 100
     ∧ ∀ later, (100 ≤ later)%Z →
         get_default_season 100 later [season] = (Ok (Season.pk season), [season]))
  ∧ get_default_season 100 250
      [ {| Season.pk := 1; Season.title := "Season 1"; Season.start_date := 300 |} ]
    = (Raise IndexError,
       [ {| Season.pk := 1; Season.title := "Season 1"; Season.start_date := 300 |} ]).
Proof.
  split.
  - by apply (proj1 (get_default_season_spec 100 250 [])).
  - apply (proj1 (proj2 (get_default_season_spec 100 250
             [ {| Season.pk := 1; Season.title := "Season 1";
                  Season.start_date := 300 |} ]) ltac:(done))).
    apply Forall_cons_2; [simpl; lia | apply Forall_nil_2].
Defined.

(** ** [lag_report_url] *)

Lemma strip_prefix_inv old s rest :
  strip_prefix old s = Some rest → s = old +:+ rest.
Proof.
  unfold strip_prefix. intros E.
  destruct (match_class _ _ _) as [[g r]|] eqn:E'; [|done].
  case_decide; [|done]. injection E as ->. subst g.
  by apply match_class_inv in E' as (-> & _).
Qed.

Lemma strip_prefix_app old rest : strip_prefix old (old +:+ rest) = Some rest.
Proof.
  unfold strip_prefix. rewrite (match_class_app _ _ old rest eq_refl).
  - by rewrite decide_True.
  - by induction old.
Qed.

Lemma span_no_match p s :
  match s with String c _ => p c = false | EmptyString => True end →
  span p s = (EmptyString, s).
Proof. destruct s as [|c s]; [done|]. simpl. by intros ->. Qed.

Lemma span_app p (g rest : string) :
  str_forall p g = true →
  match rest with String c _ => p c = false | EmptyString => True end →
  span p (g +:+ rest) = (g, rest).
Proof.
  intros Hg Hrest. induction g as [|c g IH].
  - rewrite str_app_nil_l. by apply span_no_match.
  - rewrite str_app_cons. simpl in *. apply andb_true_iff in Hg as [Hc Hg].
    by rewrite Hc, IH.
Qed.

Lemma span_empty_inv p s rest :
  span p s = (EmptyString, rest) →
  match s with String c _ => p c = false | EmptyString => True end.
Proof.
  destruct s as [|c s]; [done|]. simpl. destruct (p c); [|done].
  by destruct (span p s).
Qed.

Lemma server_pattern_from_no_digit regions s :
  str_forall (λ c, negb (is_digit c)) s = true →
  server_pattern_from regions s = None.
Proof.
  intros Hs. induction regions as [|region regions IH]; [done|].
  cbn [server_pattern_from].
  destruct (strip_prefix region s) as [after|] eqn:Hstrip; [|done].
  apply strip_prefix_inv in Hstrip. subst s.
  rewrite str_forall_app in Hs. apply andb_true_iff in Hs as [_ Hafter].
  rewrite span_no_match; [done|].
  destruct after as [|c after]; [done|]. simpl in Hafter.
  apply andb_true_iff in Hafter as [Hc _]. by apply negb_true_iff in Hc.
Qed.

Lemma server_search_no_digit s :
  str_forall (λ c, negb (is_digit c)) s = true → server_search s = None.
Proof.
  induction s as [|c s IH]; intros Hs.
  - done.
  - cbn [server_search]. unfold server_pattern.
    rewrite server_pattern_from_no_digit by done.
    apply IH. simpl in Hs. by apply andb_true_iff in Hs as [_ Hs].
Qed.

Lemma server_pattern_region region digits rest :
  region ∈ server_regions →
  digits ≠ "" → str_forall is_digit digits = true →
  match rest with String c _ => is_digit c = false | EmptyString => True end →
  server_pattern (region +:+ digits +:+ rest)
    = Some (region, digits, server_suffix rest).
Proof.
  intros Hregion Hne Hdigits Hrest.
  assert (Hspan : span is_digit (digits +:+ rest) = (digits, rest))
    by by apply span_app.
  assert (Hfirst : ∀ r, strip_prefix r (r +:+ digits +:+ rest)
                        = Some (digits +:+ rest))
    by (intros r; apply strip_prefix_app).
  unfold server_pattern, server_regions in *.
  destruct digits as [|d digits]; [done|].
  repeat (apply elem_of_cons in Hregion as [->|Hregion];
    [cbn [server_pattern_from];
     repeat (rewrite Hfirst, Hspan; try done);
     first [ done | (by vm_compute) | idtac ] |]).
  all: try by apply elem_of_nil in Hregion.
Qed.

Lemma server_search_here s m : server_pattern s = Some m → server_search s = Some m.
Proof. intros Hm. destruct s; cbn [server_search]; by rewrite Hm. Qed.

Lemma server_suffix_name c low rest :
  is_upper c = true → low ≠ "" → str_forall is_lower low = true →
  match rest with String c' _ => is_lower c' = false | EmptyString => True end →
  server_suffix ("-" +:+ String c low +:+ rest) = Some ("-" +:+ String c low).
Proof.
  intros Hc Hne Hlow Hrest.
  change ("-" +:+ String c low +:+ rest) with (String "-" (String c (low +:+ rest))).
  change ("-" +:+ String c low) with (String "-" (String c low)).
  cbn [server_suffix]. rewrite Hc, (span_app _ _ _ Hlow Hrest).
  by destruct low.
Qed.

Lemma region_not_empty region s :
  region ∈ server_regions → region +:+ s ≠ "".
Proof.
  unfold server_regions. intros Hregion.
  repeat (apply elem_of_cons in Hregion as [->|Hregion]; [by rewrite str_app_cons|]).
  by apply elem_of_nil in Hregion.
Qed.

(** X14. [lag_report_url] answers the bare form URL for a replay without
    a server name. A server name without a digit makes it raise
    [AttributeError]. For a server name made of a region and a number the
    URL carries both and ends in [field13=None]; where a dash and a
    capitalised name follow, [field13] is that name with its dash. *)
Theorem lag_report_url_spec :
  (∀ server_name, server_name = None ∨ server_name = Some "" →
     lag_report_url server_name = LagReportUrl lag_report_base_url)
  ∧ (∀ name, name ≠ "" → str_forall (λ c, negb (is_digit c)) name = true →
       lag_report_url (Some name) = LagReportAttributeError)
  ∧ (∀ region digits,
       region ∈ ["EU"; "USE"; "USW"; "OCE"; "SAM"] →
       digits ≠ "" → str_forall is_digit digits = true →
       lag_report_url (Some (region +:+ digits))
         = LagReportUrl
             (lag_report_base_url +:+ "/def/field1=" +:+ region
                +:+ "&field2=" +:+ digits +:+ "&field13=None")
       ∧ ∀ c low rest,
           is_upper c = true → low ≠ "" → str_forall is_lower low = true →
           match rest with
           | String c' _ => is_lower c' = false
           | EmptyString => True
           end →
           lag_report_url (Some (region +:+ digits +:+ "-" +:+ String c low +:+ rest))
             = LagReportUrl
                 (lag_report_base_url +:+ "/def/field1=" +:+ region
                    +:+ "&field2=" +:+ digits +:+ "&field13=" +:+ "-"
                    +:+ String c low)).
Proof.
  split; [|split].
  - by intros server_name [-> | ->].
  - intros name Hne Hname. unfold lag_report_url. cbn [text_falsy default].
    rewrite bool_decide_eq_false_2 by done.
    unfold id. by rewrite server_search_no_digit.
  - intros region digits Hregion Hne Hdigits. split.
    + unfold lag_report_url. cbn [text_falsy default].
      rewrite bool_decide_eq_false_2 by by apply region_not_empty.
      unfold id.
      pose proof (server_pattern_region region digits "" Hregion Hne Hdigits I)
        as Hm.
      rewrite str_app_nil_r in Hm. by rewrite (server_search_here _ _ Hm).
    + intros c low rest Hc Hlow Hlower Hrest.
      unfold lag_report_url. cbn [text_falsy default].
      rewrite bool_decide_eq_false_2 by by apply region_not_empty.
      unfold id.
      pose proof (server_pattern_region region digits
                    ("-" +:+ String c low +:+ rest) Hregion Hne Hdigits) as Hm.
      rewrite (server_search_here _ _ (Hm ltac:(by vm_compute))).
      by rewrite server_suffix_name.
Qed.

Lemma lag_report_url_spec_witness :
  lag_report_url None = LagReportUrl lag_report_base_url
  ∧ lag_report_url (Some "Local") = LagReportAttributeError
  ∧ lag_report_url (Some "EU12")
    = LagReportUrl
        "https://psyonixhr.wufoo.com/forms/game-server-performance-report/def/field1=EU&field2=12&field13=None"
  ∧ lag_report_url (Some "USE345-Horse")
    = LagReportUrl
        "https://psyonixhr.wufoo.com/forms/game-server-performance-report/def/field1=USE&field2=345&field13=-Horse".
Proof.
  split; [|split; [|split]].
  - apply (proj1 lag_report_url_spec). by left.
  - by apply (proj1 (proj2 lag_report_url_spec) "Local").
  - apply (proj1 (proj2 (proj2 lag_report_url_spec) "EU" "12"
                    ltac:(apply list_elem_of_here) ltac:(done) eq_refl)).
  - apply (proj2 (proj2 (proj2 lag_report_url_spec) "USE" "345"
                    ltac:(apply list_elem_of_further, list_elem_of_here)
                    ltac:(done) eq_refl)
             "H"%char "orse" "" eq_refl ltac:(done) eq_refl I).
Defined.

(** ** [Player.get_absolute_url] *)

(** X15. Where [int] reads the decimal numbers and rejects the text keys
    of the platform table, as the builtin does, [Player.get_absolute_url]
    links to a profile only for a player whose platform is stored as one
    of the numbers ['1'], ['2'], ['4'] and ['6']: every URL other than
    ['#1'] and ['#2'] comes from [reverse], called with the API name of
    that number and with the online id for Steam, the player name
    otherwise. A platform stored as a text with a character that is no
    digit, such as ['Steam'], ['OnlinePlatform_Steam'] or a name that the
    table lacks, gives ['#2'] for a human player and ['#1'] for a bot. *)
Theorem player_url_numeric_platform
    (reverse : string → gmap string (option pyval) → result string)
    (int : string → result Z) (self : Player.t) :
  (∀ z, z ∈ [1; 2; 4; 6] → int (str_of_int z) = Ok z) →
  (∀ s, KStr s ∈ PLATFORMS_MAPPINGS_items.*1 → str_forall is_digit s = false →
        ∃ e, int s = Raise e) →
  (∀ url,
     get_absolute_url reverse int self = Ok url →
     url ≠ "#1" → url ≠ "#2" →
     ∃ z api,
       z ∈ [1; 2; 4; 6]
       ∧ Player.bot self = false
       ∧ Player.platform self = Some (str_of_int z)
       ∧ PLATFORMS_MAPPINGS !! KInt z = Some (VStr api)
       ∧ reverse "users:player"
           (dict_literal
              [ ("platform", Some (VStr api));
                ("player_id",
                 if decide (z = PLATFORM_STEAM)
                 then VStr <$> Player.online_id self
                 else Some (VStr (Player.player_name self))) ])
         = Ok url)
  ∧ (∀ s,
       Player.platform self = Some s → str_forall is_digit s = false →
       get_absolute_url reverse int self
         = Ok (if Player.bot self then "#1" else "#2")).
Proof.
  intros Hnum Hname. split; [intros url|]; cycle 1.
  { intros s Hplatform Hs. unfold get_absolute_url. rewrite Hplatform.
    destruct (Player.bot self); [done|].
    cbn [orb platform_falsy platform_key default].
    rewrite bool_decide_eq_false_2 by (intros [= ->]; discriminate Hs).
    rewrite bool_decide_eq_false_2 by (intros ->; discriminate Hs).
    cbn [orb]. unfold getitem, id.
    destruct (PLATFORMS_MAPPINGS !! KStr s) as [mapped|] eqn:Hmapped; [|done].
    apply dict_literal_lookup_Some in Hmapped.
    destruct (Hname s) as [e He]; [|done|].
    - apply list_elem_of_fmap. by exists (KStr s, mapped).
    - cbn [mbind result_bind]. by rewrite He. }
  unfold get_absolute_url.
  destruct (Player.bot self) eqn:Hbot; [by intros [= <-]|].
  destruct (Player.platform self) as [s|] eqn:Hplatform;
    [|rewrite orb_true_r; by intros [= <-]].
  cbn [orb platform_falsy platform_key default].
  destruct (bool_decide (Some s = Some "0")) eqn:H0; [by intros [= <-]|].
  apply bool_decide_eq_false in H0.
  destruct (bool_decide (s = "")); [by intros [= <-]|].
  cbn [orb]. unfold getitem, id.
  destruct (PLATFORMS_MAPPINGS !! KStr s) as [mapped|] eqn:Hmapped;
    [|by intros [= <-]].
  apply dict_literal_lookup_Some in Hmapped.
  unfold PLATFORMS_MAPPINGS_items in Hmapped.
  cbn [mbind result_bind].
  repeat (apply elem_of_cons in Hmapped as [Heq | Hmapped];
    [ first
        [ discriminate Heq
        | injection Heq as -> ->;
          first
            [ (* a text key: [int] raises *)
              match goal with
              | |- context [int ?s] =>
                  destruct (Hname s) as [e He];
                  [ by apply (bool_decide_unpack _)
                  | reflexivity
                  | rewrite He; by intros [= <-] ]
              end
            | (* the key '0' *)
              by destruct H0
            | (* a numeric key *)
              idtac ] ]
    | ]).
  all: try by apply elem_of_nil in Hmapped.
  all: unfold PLATFORM_STEAM, PLATFORM_PSN, PLATFORM_XBOX, PLATFORM_SWITCH.
  - assert (Hint : int (pretty 1%positive) = Ok 1)
      by (apply (Hnum 1); by apply (bool_decide_unpack _)).
    rewrite Hint. cbn [mbind result_bind]. intros Hrev _ Hne2. exists 1, "steam".
    split; [by apply (bool_decide_unpack _)|]. do 3 (split; [done|]).
    unfold try_except in Hrev. by destruct (reverse _ _); simplify_eq.
  - assert (Hint : int (pretty 2%positive) = Ok 2)
      by (apply (Hnum 2); by apply (bool_decide_unpack _)).
    rewrite Hint. cbn [mbind result_bind]. intros Hrev _ Hne2. exists 2, "ps4".
    split; [by apply (bool_decide_unpack _)|]. do 3 (split; [done|]).
    unfold try_except in Hrev. by destruct (reverse _ _); simplify_eq.
  - assert (Hint : int (pretty 4%positive) = Ok 4)
      by (apply (Hnum 4); by apply (bool_decide_unpack _)).
    rewrite Hint. cbn [mbind result_bind]. intros Hrev _ Hne2. exists 4, "xboxone".
    split; [by apply (bool_decide_unpack _)|]. do 3 (split; [done|]).
    unfold try_except in Hrev. by destruct (reverse _ _); simplify_eq.
  - assert (Hint : int (pretty 6%positive) = Ok 6)
      by (apply (Hnum 6); by apply (bool_decide_unpack _)).
    rewrite Hint. cbn [mbind result_bind]. intros Hrev _ Hne2. exists 6, "switch".
    split; [by apply (bool_decide_unpack _)|]. do 3 (split; [done|]).
    unfold try_except in Hrev. by destruct (reverse _ _); simplify_eq.
Qed.

Lemma player_url_numeric_platform_witness :
  (∃ z api,
     z ∈ [1; 2; 4; 6]
     ∧ Player.bot numbered_steam_player = false
     ∧ Player.platform numbered_steam_player = Some (str_of_int z)
     ∧ PLATFORMS_MAPPINGS !! KInt z = Some (VStr api)
     ∧ profile_reverse "users:player"
         (dict_literal
            [ ("platform", Some (VStr api));
              ("player_id",
               if decide (z = PLATFORM_STEAM)
               then VStr <$> Player.online_id numbered_steam_player
               else Some (VStr (Player.player_name numbered_steam_player))) ])
       = Ok "/players/steam/76561198000000002/")
  ∧ get_absolute_url profile_reverse int_of_digits team_0_scorer = Ok "#2".
Proof.
  assert (Hnum : ∀ z, z ∈ [1; 2; 4; 6] → int_of_digits (str_of_int z) = Ok z).
  { intros z Hz.
    repeat (apply elem_of_cons in Hz as [->|Hz]; [by vm_compute|]).
    by apply elem_of_nil in Hz. }
  assert (Hname : ∀ s, KStr s ∈ PLATFORMS_MAPPINGS_items.*1 →
            str_forall is_digit s = false → ∃ e, int_of_digits s = Raise e).
  { intros s _ Hs. unfold int_of_digits. rewrite Hs, andb_false_r. by eexists. }
  split.
  - apply (proj1 (player_url_numeric_platform profile_reverse int_of_digits
                    numbered_steam_player Hnum Hname)
             "/players/steam/76561198000000002/").
    + vm_compute. reflexivity.
    + discriminate.
    + discriminate.
  - apply (proj2 (player_url_numeric_platform profile_reverse int_of_digits
                    team_0_scorer Hnum Hname) "Steam"); reflexivity.
Defined.
(** ** [eligible_for_feature] *)

Section features.

Context (PATREON_PLAYBACK_PRICE PATREON_BOOST_PRICE : Z).
Context (pledge_of_user : Z → result Z).
Context (pledge_of_steam_id : option string → result Z).

Lemma features_playback :
  getitem (features PATREON_PLAYBACK_PRICE PATREON_BOOST_PRICE) "playback"
    = Ok PATREON_PLAYBACK_PRICE.
Proof. vm_compute. reflexivity. Qed.

Lemma features_boost_analysis :
  getitem (features PATREON_PLAYBACK_PRICE PATREON_BOOST_PRICE) "boost_analysis"
    = Ok PATREON_BOOST_PRICE.
Proof. vm_compute. reflexivity. Qed.

Lemma patron_loop_monotone (amount amount' : Z) (players : list Player.t) :
  (amount' ≤ amount)%Z →
  patron_loop pledge_of_steam_id amount players = Ok true →
  patron_loop pledge_of_steam_id amount' players = Ok true.
Proof.
  intros Hle. induction players as [|p players IH]; [done|].
  cbn [patron_loop].
  destruct (pledge_of_steam_id (Player.online_id p)) as [pledge|e];
    cbn [mbind result_bind]; [|done].
  destruct (Z.geb_spec pledge amount) as [Hge|Hlt].
  - intros _. destruct (Z.geb_spec pledge amount'); [done|lia].
  - intros Hrest. destruct (pledge >=? amount')%Z; [done|]. by apply IH.
Qed.

Lemma patron_loop_cause (amount : Z) (players : list Player.t) :
  patron_loop pledge_of_steam_id amount players = Ok true →
  ∃ player pledge_amount,
    player ∈ players
    ∧ pledge_of_steam_id (Player.online_id player) = Ok pledge_amount
    ∧ (amount ≤ pledge_amount)%Z.
Proof.
  induction players as [|p players IH]; [done|].
  cbn [patron_loop].
  destruct (pledge_of_steam_id (Player.online_id p)) as [pledge|e] eqn:Hp;
    cbn [mbind result_bind]; [|done].
  destruct (Z.geb_spec pledge amount) as [Hge|Hlt].
  - intros _. exists p, pledge. split; [by left|]. split; [done|lia].
  - intros (player & a & Hin & Ha & Hle)%IH. exists player, a.
    split; [by right|done].
Qed.

End features.

(** X16. [eligible_for_feature] knows the features ['playback'] and
    ['boost_analysis'] and raises [KeyError] for any other. Where it
    answers [True], the uploader, or a player of the replay whose platform
    is stored as ['OnlinePlatform_Steam'] or ['1'], pledges at least the
    feature's price. Where the playback price is not above the boost
    price, a replay eligible for the boost analysis is eligible for
    playback. *)
Theorem eligible_for_feature_spec
    (PATREON_PLAYBACK_PRICE PATREON_BOOST_PRICE : Z)
    (pledge_of_user : Z → result Z)
    (pledge_of_steam_id : option string → result Z)
    (user : option Z) (players : list Player.t) (self : Replay.t) :
  let eligible :=
    eligible_for_feature PATREON_PLAYBACK_PRICE PATREON_BOOST_PRICE
      pledge_of_user pledge_of_steam_id user players self in
  (∀ feature, feature ≠ "playback" → feature ≠ "boost_analysis" →
     eligible feature = Raise KeyError)
  ∧ (∀ feature price,
       (feature, price) ∈ [ ("playback", PATREON_PLAYBACK_PRICE);
                            ("boost_analysis", PATREON_BOOST_PRICE) ] →
       eligible feature = Ok true →
       (∃ uploader pledge_amount,
          user = Some uploader ∧ pledge_of_user uploader = Ok pledge_amount
          ∧ (price ≤ pledge_amount)%Z)
       ∨ (∃ player pledge_amount,
            player ∈ players
            ∧ Player.replay player = Replay.pk self
            ∧ (Player.platform player = Some "OnlinePlatform_Steam"
               ∨ Player.platform player = Some "1")
            ∧ pledge_of_steam_id (Player.online_id player) = Ok pledge_amount
            ∧ (price ≤ pledge_amount)%Z))
  ∧ ((PATREON_PLAYBACK_PRICE ≤ PATREON_BOOST_PRICE)%Z →
     eligible "boost_analysis" = Ok true → eligible "playback" = Ok true).
Proof.
  intros eligible. unfold eligible, eligible_for_feature. split; [|split].
  - intros feature Hp Hb.
    assert (Hnone : features PATREON_PLAYBACK_PRICE PATREON_BOOST_PRICE !! feature
                    = None).
    { apply dict_literal_lookup_None. simpl. set_solver. }
    apply getitem_KeyError in Hnone. by rewrite Hnone.
  - assert (Hcause : ∀ price,
      ((match user with
        | Some user =>
            pledge_amount ← pledge_of_user user;
            Ok (pledge_amount >=? price)%Z
        | None => Ok false
        end) ≫= λ uploader : bool,
         if uploader then Ok true
         else patron_loop pledge_of_steam_id price (steam_players players self))
      = Ok true →
      (∃ uploader pledge_amount,
          user = Some uploader ∧ pledge_of_user uploader = Ok pledge_amount
          ∧ (price ≤ pledge_amount)%Z)
       ∨ (∃ player pledge_amount,
            player ∈ players
            ∧ Player.replay player = Replay.pk self
            ∧ (Player.platform player = Some "OnlinePlatform_Steam"
               ∨ Player.platform player = Some "1")
            ∧ pledge_of_steam_id (Player.online_id player) = Ok pledge_amount
            ∧ (price ≤ pledge_amount)%Z)).
    { intros price Hrun.
      assert (Hloop : patron_loop pledge_of_steam_id price (steam_players players self)
                      = Ok true →
                ∃ player pledge_amount,
                  player ∈ players
                  ∧ Player.replay player = Replay.pk self
                  ∧ (Player.platform player = Some "OnlinePlatform_Steam"
                     ∨ Player.platform player = Some "1")
                  ∧ pledge_of_steam_id (Player.online_id player) = Ok pledge_amount
                  ∧ (price ≤ pledge_amount)%Z).
      { intros (player & a & Hin & Ha & Hle)%patron_loop_cause.
        unfold steam_players in Hin.
        apply list_elem_of_filter in Hin as [[Hreplay Hplatform] Hin].
        exists player, a. split; [done|]. split; [done|]. split; [|done].
        apply elem_of_cons in Hplatform as [->|Hplatform]; [by left|].
        apply elem_of_cons in Hplatform as [->|Hplatform]; [by right|].
        by apply elem_of_nil in Hplatform. }
      destruct user as [u|]; cbn [mbind result_bind] in Hrun.
      - destruct (pledge_of_user u) as [a|e] eqn:Hu; cbn [mbind result_bind] in Hrun;
          [|done].
        destruct (Z.geb_spec a price) as [Hge|Hlt].
        + left. exists u, a. split; [done|]. split; [done|lia].
        + right. by apply Hloop.
      - right. by apply Hloop. }
    intros feature price Hin.
    apply elem_of_cons in Hin as [[= -> ->]|Hin].
    { rewrite features_playback. cbn [mbind result_bind]. apply Hcause. }
    apply elem_of_cons in Hin as [[= -> ->]|Hin].
    { rewrite features_boost_analysis. cbn [mbind result_bind]. apply Hcause. }
    by apply elem_of_nil in Hin.
  - intros Hle. rewrite features_playback, features_boost_analysis.
    cbn [mbind result_bind].
    destruct user as [u|]; cbn [mbind result_bind].
    + destruct (pledge_of_user u) as [a|e]; cbn [mbind result_bind]; [|done].
      destruct (Z.geb_spec a PATREON_BOOST_PRICE) as [Hge|Hlt].
      * intros _. destruct (Z.geb_spec a PATREON_PLAYBACK_PRICE); [done|lia].
      * intros Hloop. destruct (a >=? PATREON_PLAYBACK_PRICE)%Z; [done|].
        by apply (patron_loop_monotone _ PATREON_BOOST_PRICE).
    + by apply patron_loop_monotone.
Qed.

Lemma eligible_for_feature_spec_witness :
  eligible_for_feature 300 500 (λ _, Ok 0)
    (λ steam_id, if decide (steam_id = Some "76561198000000002")
                 then Ok 500 else Ok 0)
    None [team_0_scorer; numbered_steam_player] ranked_replay "playback"
  = Ok true
  ∧ eligible_for_feature 300 500 (λ _, Ok 0)
      (λ steam_id, if decide (steam_id = Some "76561198000000002")
                   then Ok 500 else Ok 0)
      None [team_0_scorer; numbered_steam_player] ranked_replay "heatmap"
    = Raise KeyError.
Proof.
  split.
  - apply (proj2 (proj2 (eligible_for_feature_spec 300 500 (λ _, Ok 0)
                           (λ steam_id,
                              if decide (steam_id = Some "76561198000000002")
                              then Ok 500 else Ok 0)
                           None [team_0_scorer; numbered_steam_player]
                           ranked_replay))).
    + lia.
    + vm_compute. reflexivity.
  - by apply (proj1 (eligible_for_feature_spec 300 500 (λ _, Ok 0)
                       (λ steam_id,
                          if decide (steam_id = Some "76561198000000002")
                          then Ok 500 else Ok 0)
                       None [team_0_scorer; numbered_steam_player]
                       ranked_replay)).
Defined.

(** ** [Replay.get_absolute_url] and [Replay.__str__] *)

(** X17. The URL of a replay that has a replay id is resolved from
    exactly its [uuid]; a replay whose id is missing or empty is resolved
    from its primary key. *)
Theorem replay_url_by_uuid
    (reverse : string → gmap string (option pyval) → result string)
    (self : Replay.t) :
  (∀ id, Replay.replay_id self = Some id → id ≠ "" →
     ∃ u, uuid self = Ok u
          ∧ replay_get_absolute_url reverse self
            = reverse "replay:detail" (dict_literal [("replay_id", Some (VStr u))]))
  ∧ (Replay.replay_id self = None ∨ Replay.replay_id self = Some "" →
     replay_get_absolute_url reverse self
       = reverse "replay:detail"
           (dict_literal [("pk", Some (VInt (Replay.pk self)))])).
Proof.
  unfold replay_get_absolute_url, uuid. split.
  - intros id -> Hne. eexists. split; [reflexivity|].
    cbn [text_falsy]. by rewrite bool_decide_eq_false_2.
  - by intros [-> | ->].
Qed.

Lemma replay_url_by_uuid_witness :
  (∃ u, uuid (replay_with_id "0123456789ABCDEF0123456789ABCDEF") = Ok u
        ∧ replay_get_absolute_url (λ _ _, Raise NoReverseMatch)
            (replay_with_id "0123456789ABCDEF0123456789ABCDEF")
          = Raise NoReverseMatch)
  ∧ replay_get_absolute_url (λ _ _, Ok "/replays/1/") ranked_replay
    = Ok "/replays/1/".
Proof.
  split.
  - apply (proj1 (replay_url_by_uuid (λ _ _, Raise NoReverseMatch)
                    (replay_with_id "0123456789ABCDEF0123456789ABCDEF"))
             "0123456789ABCDEF0123456789ABCDEF"); done.
  - apply (proj2 (replay_url_by_uuid (λ _ _, Ok "/replays/1/") ranked_replay)).
    by left.
Defined.

Lemma pretty_N_go_ne_empty (x : N) (s : string) : s ≠ "" → pretty_N_go x s ≠ "".
Proof.
  revert s. induction (N.lt_wf_0 x) as [x _ IH]; intros s Hs.
  assert (x = 0 ∨ 0 < x)%N as [->|Hx] by lia.
  - by rewrite pretty_N_go_0.
  - rewrite pretty_N_go_step by done. apply IH; [by apply N.div_lt | done].
Qed.

Lemma str_of_int_not_empty (z : Z) : str_of_int z ≠ "".
Proof.
  assert (Hpos : ∀ p : positive, pretty p ≠ "").
  { intros p. unfold pretty, pretty_positive, pretty, pretty_N.
    rewrite decide_False by done.
    rewrite pretty_N_go_step by lia. by apply pretty_N_go_ne_empty. }
  unfold str_of_int, pretty, pretty_Z. destruct z as [|p|p]; [done|apply Hpos|].
  by rewrite str_app_cons.
Qed.

(** X18. A replay prints as its title, or as its primary key where the
    title is missing or empty: the descriptive text that closes the [or]
    chain of [__str__] is never used. *)
Theorem replay_str_never_describes (title : option string) (description : string)
    (self : Replay.t) :
  replay_str title description self
    = match title with
      | Some (String c t) => String c t
      | _ => str_of_int (Replay.pk self)
      end.
Proof.
  unfold replay_str.
  assert (Hpk : str_or (str_of_int (Replay.pk self)) description
                = str_of_int (Replay.pk self)).
  { unfold str_or. rewrite bool_decide_eq_false_2; [done|].
    apply str_of_int_not_empty. }
  rewrite Hpk. by destruct title as [[|c t]|].
Qed.

(** ** [ReplayPack.goals] *)

(** X19. [ReplayPack.goals] is 0 for a pack without replays. Otherwise it
    is the sum of both scores over the replays that have both scores, and
    [None], not 0, where no replay of the pack has both. *)
Theorem replay_pack_goals_spec (replays : list Replay.t) :
  let total r := sql_add (Replay.team_0_score r) (Replay.team_1_score r) in
  (replays = [] → ReplayPack.goals replays = Some 0)
  ∧ (replays ≠ [] → Forall (λ r, total r = None) replays →
     ReplayPack.goals replays = None)
  ∧ (Exists (λ r, is_Some (total r)) replays →
     ReplayPack.goals replays
       = Some (foldr Z.add 0 ((λ r, default 0 (total r)) <$> replays))).
Proof.
  intros total. unfold ReplayPack.goals. split; [|split].
  - by intros ->.
  - intros Hne Hall. rewrite bool_decide_eq_false_2 by (by destruct replays).
    apply sql_sum_None. clear Hne.
    induction Hall as [|r rs Hr _ IH]; [apply Forall_nil_2|].
    by apply Forall_cons_2.
  - intros Hex.
    rewrite bool_decide_eq_false_2
      by (intros Hlen; destruct replays; [by apply Exists_nil in Hex | done]).
    rewrite sql_sum_Some.
    + by rewrite <- list_fmap_compose.
    + induction Hex as [r rs Hr|r rs _ IH]; simpl.
      * by apply Exists_cons_hd.
      * by apply Exists_cons_tl.
Qed.

Lemma replay_pack_goals_spec_witness :
  ReplayPack.goals [] = Some 0
  ∧ ReplayPack.goals
      [ {| Replay.pk := 3; Replay.replay_id := None; Replay.playlist := None;
           Replay.team_0_score := Some 2; Replay.team_1_score := None;
           Replay.num_frames := None; Replay.record_fps := None |} ] = None
  ∧ ReplayPack.goals [ranked_replay; shutout_replay] = Some 2.
Proof.
  split; [|split].
  - by apply (proj1 (replay_pack_goals_spec [])).
  - apply (proj1 (proj2 (replay_pack_goals_spec _))); [done|].
    apply Forall_cons_2; [done | apply Forall_nil_2].
  - apply (proj2 (proj2 (replay_pack_goals_spec [ranked_replay; shutout_replay]))).
    apply Exists_cons_hd. by eexists.
Defined.

(** ** Rows are kept *)

Lemma row_kept_refl c : row_kept c c.
Proof. by repeat split. Qed.

Lemma row_kept_trans c1 c2 c3 : row_kept c1 c2 → row_kept c2 c3 → row_kept c1 c3.
Proof.
  intros (Hp & Ht & Hi & Hn) (Hp' & Ht' & Hi' & Hn').
  repeat split; try congruence.
  intros Hne. rewrite Hn', Hn; [done..|]. by rewrite Hn.
Qed.

Lemma keeps_rows_same {A} (m : M A) :
  (∀ w r w', m w = (r, w') → component_rows w' = component_rows w) →
  keeps_rows m.
Proof.
  intros Hsame w r w' Hrun _ i c Hc. exists c.
  rewrite (Hsame _ _ _ Hrun). split; [done | apply row_kept_refl].
Qed.

Lemma keeps_rows_ret {A} (a : A) : keeps_rows (mret a).
Proof. apply keeps_rows_same. by intros w r w' [= <- <-]. Qed.

Lemma keeps_rows_raise {A} e : keeps_rows (raise (A := A) e).
Proof. apply keeps_rows_same. by intros w r w' [= <- <-]. Qed.

Lemma keeps_rows_bind {A B} (m : M A) (k : A → M B) :
  keeps_table_ok m → keeps_rows m → (∀ a, keeps_rows (k a)) →
  keeps_rows (m ≫= k).
Proof.
  intros Hok Hm Hk w r w'. unfold mbind, M_bind.
  destruct (m w) as [[a|e] w1] eqn:Hrun.
  - intros Hrun' Hw i c Hc.
    destruct (Hm _ _ _ Hrun Hw i c Hc) as (c1 & Hc1 & Hkept1).
    destruct (Hk a _ _ _ Hrun' (Hok _ _ _ Hrun Hw) i c1 Hc1) as (c2 & Hc2 & Hkept2).
    exists c2. split; [done|]. by eapply row_kept_trans.
  - intros [= <- <-]. by eapply Hm.
Qed.

Lemma rows_kept_create rows c i r :
  rows !! i = Some r → ∃ r', (rows ++ [c])%list !! i = Some r' ∧ row_kept r r'.
Proof.
  intros Hr. exists r. split; [|apply row_kept_refl].
  by apply lookup_app_l_Some.
Qed.

Lemma rows_kept_save rows c c' pk i r :
  NoDup (Component.pk <$> rows) → c ∈ rows → row_kept c c' →
  Component.pk c = pk →
  rows !! i = Some r →
  ∃ r', ((λ r, if decide (Component.pk r = pk) then c' else r) <$> rows)
          !! i = Some r'
        ∧ row_kept r r'.
Proof.
  intros Hpk Hin Hkept <- Hr. rewrite list_lookup_fmap, Hr. simpl.
  eexists. split; [done|]. case_decide as Heq; [|apply row_kept_refl].
  assert (r = c) as ->; [|done].
  apply list_elem_of_lookup in Hin as [j Hj].
  assert (i = j) as ->; [|congruence].
  eapply NoDup_lookup; [exact Hpk| |]; rewrite list_lookup_fmap.
  - by rewrite Hr.
  - rewrite Hj. simpl. by rewrite Heq.
Qed.

Lemma list_step_keeps_rows components index component :
  keeps_rows (list_step components index component).
Proof.
  intros w r w' Hrun Hok i c0 Hc0. unfold list_step in Hrun.
  destruct (decide (component > 0)%Z);
    [|injection Hrun as <- <-; exists c0; split; [done | apply row_kept_refl]].
  cbv beta iota delta [mbind M_bind mret M_ret raise objects_filter objects_create
    component_maps_at] in Hrun.
  destruct (list_component_maps !! index) as [type|];
    [|injection Hrun as <- <-; exists c0; split; [done | apply row_kept_refl]].
  destruct (filter _ (component_rows w)) as [|c rows] eqn:Hm.
  - destruct (storable w component "Unknown"); injection Hrun as <- <-.
    + simpl. by apply rows_kept_create.
    + exists c0. split; [done | apply row_kept_refl].
  - injection Hrun as <- <-. exists c0. split; [done | apply row_kept_refl].
Qed.

Lemma list_loop_keeps_rows l components index :
  keeps_rows (list_loop components index l).
Proof.
  revert components index. induction l as [|x l IH]; intros components index; simpl.
  - apply keeps_rows_ret.
  - apply keeps_rows_bind;
      [apply list_step_keeps_table_ok | apply list_step_keeps_rows|].
    intros components'. apply IH.
Qed.

Lemma dict_step_keeps_rows d components mapping :
  keeps_rows (dict_step d components mapping).
Proof.
  destruct mapping as [key [type replace]]. intros w r w' Hrun Hok i c0 Hc0.
  assert (Hsame : ∃ c', component_rows w !! i = Some c' ∧ row_kept c0 c')
    by (exists c0; split; [done | apply row_kept_refl]).
  unfold dict_step in Hrun.
  destruct (d !! key) as [[[Name|] Id|z]|]; try by injection Hrun as <- <-.
  destruct (decide (Name = "")); [by injection Hrun as <- <-|].
  unfold try_except_M at 1 in Hrun. unfold mbind at 1, M_bind at 1 in Hrun.
  rewrite objects_get_or_create_spec in Hrun.
  destruct (matching type Id (component_rows w)) as [|c [|c2 rows]] eqn:Hm.
  - cbv zeta in Hrun.
    destruct (storable w Id (display_name replace Name)) eqn:Hst;
      [|by injection Hrun as <- <-].
    pose proof (table_ok_create _ type Id (display_name replace Name) Hok Hm) as Hok1.
    cbn [Component.name Component.pk Component.type Component.internal_id] in Hrun.
    destruct (decide (display_name replace Name = "Unknown")).
    + unfold try_except_M, save in Hrun. unfold_M.
      cbn [Component.name Component.pk Component.type Component.internal_id] in Hrun.
      rewrite (same_limits_storable w (with_component_rows w _)) in Hrun by done.
      rewrite Hst in Hrun. injection Hrun as <- <-.
      cbn [component_rows with_component_rows].
      set (new := {| Component.pk := next_pk (component_rows w);
                     Component.type := type; Component.internal_id := Id;
                     Component.name := display_name replace Name |}).
      apply (rows_kept_save _ new); [apply Hok1 | | by repeat split | done |].
      * apply elem_of_app. right. apply list_elem_of_here.
      * by apply lookup_app_l_Some.
    + unfold_M. injection Hrun as <- <-. cbn [component_rows with_component_rows].
      by apply rows_kept_create.
  - assert (Hc : c ∈ matching type Id (component_rows w)).
    { rewrite Hm. apply list_elem_of_here. }
    apply list_elem_of_filter in Hc as [_ Hin].
    destruct (decide (Component.name c = "Unknown")) as [Hunknown|];
      [|by injection Hrun as <- <-].
    unfold try_except_M, save in Hrun. unfold_M.
    cbn [Component.name Component.pk Component.type Component.internal_id] in Hrun.
    destruct (storable w (Component.internal_id c) (display_name replace Name));
      injection Hrun as <- <-; [|done].
    cbn [component_rows with_component_rows].
    apply (rows_kept_save _ c); [apply Hok | done | | done | done].
    by repeat split.
  - by injection Hrun as <- <-.
Qed.

Lemma dict_loop_keeps_rows d mappings components :
  keeps_rows (dict_loop d components mappings).
Proof.
  revert components. induction mappings as [|mapping mappings IH]; intros components.
  - apply keeps_rows_ret.
  - simpl. apply keeps_rows_bind;
      [apply dict_step_keeps_table_ok | apply dict_step_keeps_rows|].
    intros components'. apply IH.
Qed.

(** X20. [vehicle_data] never removes a component and never touches one
    that carries a name: on a well-formed table, whatever the loadout and
    whether the call returns or raises, every row is found at its place
    afterwards with its key, type and internal id, and it is the same row
    unless it was named ['Unknown']. *)
Theorem vehicle_data_keeps_rows (w : world) (r : result (gmap string Component.t))
    (w' : world) (i : nat) (c : Component.t) :
  vehicle_data w = (r, w') →
  table_ok (component_rows w) →
  component_rows w !! i = Some c →
  ∃ c',
    component_rows w' !! i = Some c'
    ∧ Component.pk c' = Component.pk c
    ∧ Component.type c' = Component.type c
    ∧ Component.internal_id c' = Component.internal_id c
    ∧ (Component.name c ≠ "Unknown" → c' = c).
Proof.
  intros Hrun Hok Hc.
  assert (Hkeeps : keeps_rows vehicle_data).
  { unfold vehicle_data. apply keeps_rows_bind.
    { intros w0 r0 w0' [= <- <-]. done. }
    { apply keeps_rows_same. by intros w0 r0 w0' [= <- <-]. }
    intros v. destruct (loadout_falsy v); [apply keeps_rows_ret|].
    destruct v as [|l|d|b]; try apply keeps_rows_ret.
    - apply keeps_rows_bind.
      + destruct (decide (length l = 9%nat)); [|apply keeps_table_ok_ret].
        apply keeps_table_ok_bind; [apply set_vehicle_loadout_keeps_table_ok|].
        intros _. apply keeps_table_ok_ret.
      + apply keeps_rows_same. intros w0 r0 w0'.
        destruct (decide (length l = 9%nat)); by intros [= <- <-].
      + intros l'. destruct (decide (length l' = 7%nat)).
        * apply list_loop_keeps_rows.
        * apply keeps_rows_raise.
    - apply dict_loop_keeps_rows. }
  destruct (Hkeeps w r w' Hrun Hok i c Hc) as (c' & Hc' & Hp & Ht & Hi & Hn).
  exists c'. do 4 (split; [done|]). intros Hne. specialize (Hn Hne).
  destruct c, c'. simpl in *. congruence.
Qed.

Lemma vehicle_data_keeps_rows_witness :
  ∃ c',
    component_rows (vehicle_data stocked_world).2 !! 0%nat = Some c'
    ∧ Component.pk c' = Component.pk octane
    ∧ Component.type c' = Component.type octane
    ∧ Component.internal_id c' = Component.internal_id octane
    ∧ (Component.name octane ≠ "Unknown" → c' = octane).
Proof.
  apply (vehicle_data_keeps_rows stocked_world (vehicle_data stocked_world).1
           (vehicle_data stocked_world).2 0 octane).
  - by destruct (vehicle_data stocked_world).
  - split.
    + apply NoDup_singleton.
    + intros type id. unfold matching. simpl. rewrite filter_cons.
      case_decide; simpl; lia.
  - reflexivity.
Defined.

